(** * claude-in-android: the tool dispatcher, the flow engine and the batch
     executor of the MCP server, embedded in Rocq.

    Sources embedded here:
    - [src/tools/registry.ts]          toolMap, aliasMap, getHandler, getTools
    - [src/tools/context.ts]           caches, generateActionHints,
                                       getElementsForPlatform, MAX_RECURSION_DEPTH,
                                       iosTreeToUiElements
    - [src/index.ts]                   handleTool, the handler of tool calls
    - [src/tools/flow-tools.ts]        batch_commands, run_flow
    - [src/tools/interaction-tools.ts] tap, swipe, input_text, press_key
    - [src/tools/screenshot-tools.ts]  screenshot (diff mode)
    - [src/tools/ui-tools.ts]          find_and_tap, wait_for_element,
                                       assert_visible, assert_not_exists
    - [dist/device-manager.js]         getAllDevices, getDevices, setDevice,
                                       getClient, tap, longPress

    The code is asynchronous but single threaded: every [await] is a
    sequencing point, so a handler is a function from the state of the
    server to a result, a new state and the trace of what it did. *)

From Stdlib Require Import String Ascii List ZArith QArith Bool Lia.
From Stdlib Require Import DecimalString.
Import ListNotations.

Local Open Scope string_scope.
Local Open Scope Z_scope.

#[local] Set Warnings "-register-all".

(* ------------------------------------------------------------------ *)
(** * JavaScript strings *)
(* ------------------------------------------------------------------ *)

Module JsString.

(** A string holding the one character [c]. *)
Definition of_ascii (c : ascii) : string := String c EmptyString.

Definition dquote : string := of_ascii (ascii_of_nat 34).
Definition newline : string := of_ascii (ascii_of_nat 10).

(** [s.includes(pat)] *)
Fixpoint includes (pat s : string) : bool :=
  if String.prefix pat s then true
  else match s with
       | EmptyString => false
       | String _ s' => includes pat s'
       end.

(** [s.slice(0, n)] for a non-negative literal [n]. A string is the
    bytes of its UTF-8 text and the cut is after [n] of them, where
    JavaScript cuts after [n] UTF-16 units: the two agree on ASCII
    text. *)
Definition slice0 (n : nat) (s : string) : string := String.substring 0 n s.

(** [String(n)] for an integer [n]. Numbers are integers here; the two
    agree as long as [n] is one a double holds exactly (below 2^53 in
    absolute value). *)
Definition of_Z (n : Z) : string := NilZero.string_of_int (Z.to_int n).

Definition of_nat (n : nat) : string := of_Z (Z.of_nat n).

(** [parts.join(sep)] *)
Fixpoint join (sep : string) (parts : list string) : string :=
  match parts with
  | [] => EmptyString
  | [p] => p
  | p :: rest => p ++ sep ++ join sep rest
  end.

(** JavaScript truthiness of a string: the empty string is falsy. *)
Definition truthy (s : string) : bool :=
  match s with EmptyString => false | String _ _ => true end.

End JsString.

(* ------------------------------------------------------------------ *)
(** * JSON values and argument bags ([Record<string, unknown>]) *)
(* ------------------------------------------------------------------ *)

(** Numbers are modelled as integers: every number the engine compares or
    counts (depth, repeat count, durations, coordinates) is one. *)
Inductive JValue : Type :=
| JUndefined
| JNull
| JBool (b : bool)
| JNum (n : Z)
| JStr (s : string)
| JArr (items : list JValue)
| JObj (fields : list (string * JValue)).

(** An object is its list of own properties in insertion order. *)
Definition JsObject : Type := list (string * JValue).

Module Obj.

(** [o[k]]: the first property named [k], [undefined] when there is none. *)
Fixpoint get (o : JsObject) (k : string) : JValue :=
  match o with
  | [] => JUndefined
  | (k', v) :: rest => if String.eqb k' k then v else get rest k
  end.

(** [o[k] = v]: an existing property keeps its place, a new one is
    appended. *)
Fixpoint set (o : JsObject) (k : string) (v : JValue) : JsObject :=
  match o with
  | [] => [(k, v)]
  | (k', v') :: rest =>
      if String.eqb k' k then (k', v) :: rest else (k', v') :: set rest k v
  end.

(** [k in o] *)
Fixpoint has (o : JsObject) (k : string) : bool :=
  match o with
  | [] => false
  | (k', _) :: rest => if String.eqb k' k then true else has rest k
  end.

End Obj.

(* ------------------------------------------------------------------ *)
(** * JavaScript [Map]: insertion ordered, one entry per key *)
(* ------------------------------------------------------------------ *)

Module JsMap.

Definition t (V : Type) : Type := list (string * V).

Definition empty {V} : t V := [].

Fixpoint get {V} (m : t V) (k : string) : option V :=
  match m with
  | [] => None
  | (k', v) :: rest => if String.eqb k' k then Some v else get rest k
  end.

(** [m.set(k, v)]: overwrites in place, or appends. *)
Fixpoint set {V} (m : t V) (k : string) (v : V) : t V :=
  match m with
  | [] => [(k, v)]
  | (k', v') :: rest =>
      if String.eqb k' k then (k', v) :: rest else (k', v') :: set rest k v
  end.

(** [[...m.values()]] *)
Definition values {V} (m : t V) : list V := List.map snd m.

Definition keys {V} (m : t V) : list string := List.map fst m.

End JsMap.

(* ------------------------------------------------------------------ *)
(** * Errors and results *)
(* ------------------------------------------------------------------ *)

(** The classes of [src/errors.ts] that the tools test with [instanceof];
    every other thrown value is a plain [Error]. *)
Inductive ErrorClass : Type :=
| PlainError
| DeviceNotFoundError
| DeviceOfflineError
| AdbNotInstalledError.

(** What is thrown is an [Error] with a message: the fallbacks of the
    code for a thrown value without one ([hintError?.message ??
    "unknown error"]) have no counterpart here. *)
Record JsError : Type := mkError {
  err_class : ErrorClass;
  err_message : string;
}.

(** [e instanceof DeviceNotFoundError || e instanceof DeviceOfflineError
     || e instanceof AdbNotInstalledError] *)
Definition is_backend_unavailable (e : JsError) : bool :=
  match err_class e with
  | PlainError => false
  | DeviceNotFoundError | DeviceOfflineError | AdbNotInstalledError => true
  end.

(** Why a call did not return a value. [IllTyped] stands for an argument
    bag that does not inhabit the TypeScript type a handler casts it to
    ([as FlowStep[]] and the like): the casts are unchecked and such runs
    are left outside the model. [OutOfFuel] is the cut-off of the
    dispatcher's recursion. No [catch] sees either of them. *)
Inductive Failure : Type :=
| Thrown (e : JsError)
| IllTyped
| OutOfFuel.

Inductive Res (A : Type) : Type :=
| Ok (a : A)
| Fail (f : Failure).

Arguments Ok {A} a.
Arguments Fail {A} f.

Abbreviation Throw e := (Fail (Thrown e)).

Definition is_ok {A} (r : Res A) : bool :=
  match r with Ok _ => true | _ => false end.

(* ------------------------------------------------------------------ *)
(** * The data model of the UI and of the responses *)
(* ------------------------------------------------------------------ *)

Record Bounds : Type := mkBounds { x1 : Z; y1 : Z; x2 : Z; y2 : Z }.

(** [UiElement] as [iosTreeToUiElements] builds it. *)
Record UiElement : Type := mkUiElement {
  index : Z;
  resourceId : string;
  className : string;
  packageName : string;
  text : string;
  contentDesc : string;
  checkable : bool;
  checked : bool;
  clickable : bool;
  enabled : bool;
  focusable : bool;
  focused : bool;
  scrollable : bool;
  longClickable : bool;
  password : bool;
  selected : bool;
  bounds : Bounds;
  centerX : Z;
  centerY : Z;
  width : Z;
  height : Z;
}.

(** The result of [diffUiElements]. *)
Record UiDiff : Type := mkUiDiff {
  appeared : list string;
  disappeared : list string;
  beforeCount : Z;
  afterCount : Z;
  screenChanged : bool;
}.

Definition Buffer : Type := list Z.

Record Region : Type := mkRegion {
  region_x : Z; region_y : Z; region_width : Z; region_height : Z;
}.

(** The result of [compareScreenshots]; the percentage is a fraction. *)
Record ScreenDiff : Type := mkScreenDiff {
  changePercent : Q;
  changedRegion : option Region;
}.

Record Image : Type := mkImage { img_data : string; img_mimeType : string }.

(** What a handler returns: [{ text }], [{ image }] or [{ image, text }]. *)
Record Response : Type := mkResponse {
  resp_text : option string;
  resp_image : option Image;
}.

Definition text_response (s : string) : Response := mkResponse (Some s) None.

Record CompressOptions : Type := mkCompressOptions {
  maxWidth : option Z;
  maxHeight : option Z;
  quality : option Z;
  monitorIndex : option Z;
}.

Record FindCriteria : Type := mkFindCriteria {
  crit_text : option string;
  crit_resourceId : option string;
  crit_className : option string;
}.

(* ------------------------------------------------------------------ *)
(** * Traces *)
(* ------------------------------------------------------------------ *)

(** The places where the composite tools re-enter the dispatcher through
    [ctx.handleTool]. *)
Inductive CallSite : Type :=
| BatchCommand        (* batch_commands, one command of the list *)
| FlowStepAttempt     (* run_flow, the step at the top of an iteration *)
| FlowFallbackSwipe   (* run_flow, the swipe of scroll_down / scroll_up *)
| FlowFallbackRetry.  (* run_flow, the step again after that swipe *)

(** The methods of the device manager and of its clients that reach a
    backend. *)
Inductive AdapterOp : Type :=
| OpGetUiHierarchyAsync (platform : string)
| OpGetUiHierarchy (platform : string)
| OpGetScreenshotBufferAsync (platform : string)
| OpTap (x y : Z)
| OpIosFindElement
| OpIosTapElement
| OpSwipeDirection (direction : string)
| OpSwipe (x1 y1 x2 y2 duration : Z)
| OpInputText (text : string)
| OpPressKey (key : string).

(** What a run leaves behind, in order. A call through [ctx.handleTool]
    keeps what happened inside it apart from what its caller did. *)
Inductive Event : Type :=
| EvInvoke (name : string) (args : JsObject) (depth : Z)
| EvCall (site : CallSite) (name : string) (args : JsObject) (depth : Z)
         (inner : list Event)
| EvAdapter (op : AdapterOp)
| EvSleep (ms : Z).

Definition Trace : Type := list Event.

(* ------------------------------------------------------------------ *)
(** * The environment of the orchestration core *)
(* ------------------------------------------------------------------ *)

(** Everything the tools import from outside [src/tools]: the device
    manager and its clients, the clock, [adb/ui-parser], [utils/image] and
    the JavaScript built-ins. None of it is constrained: each theorem below
    holds whatever these compute, and any of them may throw. *)
Class Env : Type := mkEnv {
  Device : Type;
  (** [deviceManager.getCurrentPlatform()]: reads [activeDevice?.platform] *)
  getCurrentPlatform : Device -> option string;
  (** [Date.now()] *)
  now : Device -> Z;
  (** [await new Promise(resolve => setTimeout(resolve, ms))] *)
  elapse : Z -> Device -> Device;
  dm_getUiHierarchyAsync : string -> Device -> Res string * Device;
  dm_getUiHierarchy : string -> Device -> Res string * Device;
  dm_getScreenshotBufferAsync : string -> Device -> Res Buffer * Device;
  dm_tap : Z -> Z -> option string -> option Z -> Device -> Res unit * Device;
  ios_findElement :
    option string -> option string -> Device -> Res string * Device;
  ios_tapElement : string -> Device -> Res unit * Device;
  (** [adb/ui-parser] *)
  parseUiHierarchy : string -> Res (list UiElement);
  desktopHierarchyToUiElements : string -> Res (list UiElement);
  findElements : list UiElement -> FindCriteria -> Res (list UiElement);
  findByText : list UiElement -> string -> Res (list UiElement);
  findByResourceId : list UiElement -> string -> Res (list UiElement);
  diffUiElements : list UiElement -> list UiElement -> Res UiDiff;
  suggestNextActions : list UiElement -> Res (list string);
  (** [iosTreeToUiElements(JSON.parse(json))] *)
  parseIosTree : string -> Res (list UiElement);
  (** [utils/image] *)
  compareScreenshots : Buffer -> Buffer -> Z -> Res ScreenDiff;
  cropRegion : Buffer -> Region -> Z -> Res Buffer;
  compressScreenshot : Buffer -> CompressOptions -> Res Image;
  (** built-ins *)
  buffer_to_base64 : Buffer -> string;
  number_to_string : Q -> string;
  JSON_stringify : Response -> string;
}.

(* ------------------------------------------------------------------ *)
(** * The orchestration core *)
(* ------------------------------------------------------------------ *)

Section Core.

Context {E : Env}.

(** The module-level state of [context.ts], with the backend. *)
Record State : Type := mkState {
  device : Device;
  cachedElementsMap : JsMap.t (list UiElement);
  lastScreenshotMap : JsMap.t Buffer;
}.

(** ** Computations: state, failure and trace *)

Definition M (A : Type) : Type := State -> Res A * State * Trace.

Definition ret {A} (a : A) : M A := fun s => (Ok a, s, []).

Definition bind {A B} (m : M A) (k : A -> M B) : M B :=
  fun s =>
    match m s with
    | (Ok a, s1, t1) =>
        match k a s1 with (r, s2, t2) => (r, s2, (t1 ++ t2)%list) end
    | (Fail f, s1, t1) => (Fail f, s1, t1)
    end.

Notation "x <- m ;; k" := (bind m (fun x => k))
  (at level 61, m at next level, right associativity).
Notation "m ;; k" := (bind m (fun _ => k))
  (at level 61, right associativity).

Definition fail {A} (f : Failure) : M A := fun s => (Fail f, s, []).

(** [throw new Error(msg)] *)
Definition throw_error {A} (msg : string) : M A :=
  fail (Thrown (mkError PlainError msg)).

(** [try { m } catch (e) { h e }] *)
Definition try_catch {A} (m : M A) (h : JsError -> M A) : M A :=
  fun s =>
    match m s with
    | (Throw e, s1, t1) =>
        match h e s1 with (r, s2, t2) => (r, s2, (t1 ++ t2)%list) end
    | other => other
    end.

(** The two ways out of a [try] block, as a value: used where the [catch]
    reads a variable the [try] block assigned before it threw. *)
Definition attempt {A} (m : M A) : M (A + JsError) :=
  fun s =>
    match m s with
    | (Ok a, s1, t1) => (Ok (inl a), s1, t1)
    | (Throw e, s1, t1) => (Ok (inr e), s1, t1)
    | (Fail f, s1, t1) => (Fail f, s1, t1)
    end.

(** A pure function of [adb/ui-parser] or [utils/image], which may throw. *)
Definition lift {A} (r : Res A) : M A := fun s => (r, s, []).

(** A call that reaches a backend. *)
Definition adapter {A} (op : AdapterOp)
    (f : Device -> Res A * Device) : M A :=
  fun s =>
    match f (device s) with
    | (r, d) =>
        (r, mkState d (cachedElementsMap s) (lastScreenshotMap s),
         [EvAdapter op])
    end.

(** [Date.now()] *)
Definition date_now : M Z := fun s => (Ok (now (device s)), s, []).

(** [await new Promise(resolve => setTimeout(resolve, ms))] *)
Definition sleep (ms : Z) : M unit :=
  fun s =>
    (Ok tt,
     mkState (elapse ms (device s)) (cachedElementsMap s)
       (lastScreenshotMap s),
     [EvSleep ms]).

Definition current_platform : M (option string) :=
  fun s => (Ok (getCurrentPlatform (device s)), s, []).

(** ** [src/tools/registry.ts] *)

Record Tool : Type := mkTool {
  tool_name : string;
  tool_description : string;
  tool_inputSchema : JValue;
}.

(** [ToolContext]: of its members only [handleTool] differs from one call
    to the next; the others are the functions of [context.ts] below. *)
Record ToolContext : Type := mkToolContext {
  ctx_handleTool : string -> JsObject -> Z -> M Response;
}.

Definition Handler : Type := JsObject -> ToolContext -> Z -> M Response.

Record ToolDefinition : Type := mkToolDefinition {
  tool : Tool;
  handler : Handler;
}.

(** The two module-level maps. *)
Record Registry : Type := mkRegistry {
  toolMap : JsMap.t ToolDefinition;
  aliasMap : JsMap.t string;
}.

Definition empty_registry : Registry := mkRegistry JsMap.empty JsMap.empty.

Definition registerTools (defs : list ToolDefinition) (reg : Registry)
    : Registry :=
  fold_left
    (fun r def =>
       mkRegistry (JsMap.set (toolMap r) (tool_name (tool def)) def)
                  (aliasMap r))
    defs reg.

(** [aliases] is [Object.entries] of the argument. *)
Definition registerAliases (aliases : list (string * string))
    (reg : Registry) : Registry :=
  fold_left
    (fun r entry =>
       mkRegistry (toolMap r)
                  (JsMap.set (aliasMap r) (fst entry) (snd entry)))
    aliases reg.

Definition getTools (reg : Registry) : list Tool :=
  List.map tool (JsMap.values (toolMap reg)).

Definition getHandler (reg : Registry) (name : string) : option Handler :=
  match JsMap.get (toolMap reg) name with
  | Some direct => Some (handler direct)
  | None =>
      match JsMap.get (aliasMap reg) name with
      | Some canonical =>
          if JsString.truthy canonical
          then option_map handler (JsMap.get (toolMap reg) canonical)
          else None
      | None => None
      end
  end.

(** ** [src/tools/context.ts] *)

Definition MAX_RECURSION_DEPTH : Z := 3.

Definition getCachedElements (platform : string) : M (list UiElement) :=
  fun s =>
    (Ok (match JsMap.get (cachedElementsMap s) platform with
         | Some els => els
         | None => []
         end), s, []).

Definition setCachedElements (platform : string) (elements : list UiElement)
    : M unit :=
  fun s =>
    (Ok tt,
     mkState (device s) (JsMap.set (cachedElementsMap s) platform elements)
       (lastScreenshotMap s),
     []).

Definition is_nil {A} (l : list A) : bool :=
  match l with [] => true | _ :: _ => false end.

(** [platform ?? fallback] on an optional string *)
Definition or_else {A} (o : option A) (d : A) : A :=
  match o with Some a => a | None => d end.

Definition hints_header : string :=
  JsString.newline ++ "--- Hints ---".

(** The [try] block of [generateActionHints]: the capture after the
    action. *)
Definition capture_after (currentPlatform : string) : M (list UiElement) :=
  if String.eqb currentPlatform "android" then
    xml <- adapter (OpGetUiHierarchyAsync "android")
             (dm_getUiHierarchyAsync "android") ;;
    lift (parseUiHierarchy xml)
  else if String.eqb currentPlatform "ios" then
    json <- adapter (OpGetUiHierarchy "ios") (dm_getUiHierarchy "ios") ;;
    lift (parseIosTree json)
  else if String.eqb currentPlatform "desktop" then
    txt <- adapter (OpGetUiHierarchyAsync "desktop")
             (dm_getUiHierarchyAsync "desktop") ;;
    lift (desktopHierarchyToUiElements txt)
  else ret [].

Definition hints_unavailable (reason : string) : string :=
  hints_header ++ JsString.newline
  ++ "Unable to fetch UI state for hints: " ++ reason.

(** [platform ?? deviceManager.getCurrentPlatform() ?? "android"] *)
Definition platform_or_android (platform active : option string) : string :=
  match platform with
  | Some p => p
  | None => or_else active "android"
  end.

Definition generateActionHints (platform : option string) : M string :=
  active <- current_platform ;;
  let currentPlatform := platform_or_android platform active in
  beforeElements <- getCachedElements currentPlatform ;;
  sleep 150 ;;
  captured <- attempt (capture_after currentPlatform) ;;
  match captured with
  | inr hintError =>
      let reason := err_message hintError in
      ret (hints_unavailable reason)
  | inl afterElements =>
      setCachedElements currentPlatform afterElements ;;
      if is_nil beforeElements && is_nil afterElements then
        ret (hints_header ++ JsString.newline ++ "No UI elements detected.")
      else
        diff <- lift (diffUiElements beforeElements afterElements) ;;
        suggestions <- lift (suggestNextActions afterElements) ;;
        let lines :=
          ([hints_header]
           ++ (if screenChanged diff
               then ["Screen changed (new activity or major UI update)"]
               else [])
           ++ (if is_nil (appeared diff) then []
               else ["New: " ++ JsString.join ", " (appeared diff)])%string
           ++ (if is_nil (disappeared diff) then []
               else ["Gone: " ++ JsString.join ", " (disappeared diff)])%string
           ++ [("Elements: " ++ JsString.of_Z (beforeCount diff) ++ " â†’ "
                ++ JsString.of_Z (afterCount diff))%string]
           ++ (if is_nil suggestions then []
               else ["Suggested: "
                     ++ JsString.join "; " suggestions])%string)%list in
        ret (JsString.join JsString.newline lines)
  end.

(** [plat === "android" || !plat] *)
Definition android_or_unset (plat : option string) : bool :=
  match plat with
  | None => true
  | Some p => String.eqb p "android" || negb (JsString.truthy p)
  end.

Definition getElementsForPlatform (plat : option string)
    : M (list UiElement) :=
  if android_or_unset plat then
    xml <- adapter (OpGetUiHierarchyAsync "android")
             (dm_getUiHierarchyAsync "android") ;;
    elements <- lift (parseUiHierarchy xml) ;;
    setCachedElements "android" elements ;;
    ret elements
  else if String.eqb (or_else plat EmptyString) "ios" then
    json <- adapter (OpGetUiHierarchy "ios") (dm_getUiHierarchy "ios") ;;
    elements <- lift (parseIosTree json) ;;
    setCachedElements "ios" elements ;;
    ret elements
  else if String.eqb (or_else plat EmptyString) "desktop" then
    txt <- adapter (OpGetUiHierarchyAsync "desktop")
             (dm_getUiHierarchyAsync "desktop") ;;
    elements <- lift (desktopHierarchyToUiElements txt) ;;
    setCachedElements "desktop" elements ;;
    ret elements
  else ret [].

(** ** [src/index.ts]: the dispatcher *)

Definition recursion_message : string :=
  "Maximum recursion depth (" ++ JsString.of_Z MAX_RECURSION_DEPTH
  ++ ") exceeded. Nested batch_commands/run_flow calls are limited to prevent stack overflow.".

Definition emit (e : Event) : M unit := fun s => (Ok tt, s, [e]).

(** [handleTool(name, args, depth)]. The context is wired to [handleTool]
    itself; [fuel] bounds how many times a handler may come back through
    it. *)
Fixpoint handleTool_fuel (fuel : nat) (reg : Registry) (name : string)
    (args : JsObject) (depth : Z) : M Response :=
  match fuel with
  | O => fail OutOfFuel
  | S fuel' =>
      if depth >? MAX_RECURSION_DEPTH then throw_error recursion_message
      else
        match getHandler reg name with
        | None => throw_error ("Unknown tool: " ++ name)
        | Some h =>
            emit (EvInvoke name args depth) ;;
            h args (mkToolContext (handleTool_fuel fuel' reg)) depth
        end
  end.

(** A chain of composite tools stops at the depth guard, so this much fuel
    covers every chain that starts at [depth] and goes down one level at a
    time. *)
Definition fuel_for (depth : Z) : nat :=
  S (Z.to_nat (MAX_RECURSION_DEPTH + 1 - depth)).

Definition handleTool (reg : Registry) (name : string) (args : JsObject)
    (depth : Z) : M Response :=
  handleTool_fuel (fuel_for depth) reg name args depth.

(** A call through [ctx.handleTool], recorded with what it did inside. *)
Definition call (site : CallSite) (ctx : ToolContext) (name : string)
    (args : JsObject) (depth : Z) : M Response :=
  fun s =>
    match ctx_handleTool ctx name args depth s with
    | (r, s1, inner) => (r, s1, [EvCall site name args depth inner])
    end.

(** [typeof result === "object" && result !== null && "text" in result
     ? result.text : JSON.stringify(result)] *)
Definition result_text (result : Response) : string :=
  match resp_text result with
  | Some t => t
  | None => JSON_stringify result
  end.

(** ** Reading an argument bag at the type a handler casts it to *)

Definition typed {A} (o : option A) : M A :=
  match o with
  | Some a => ret a
  | None => fail IllTyped
  end.

Definition obind {A B} (o : option A) (k : A -> option B) : option B :=
  match o with Some a => k a | None => None end.

(** [v as string | undefined] *)
Definition as_opt_string (v : JValue) : option (option string) :=
  match v with
  | JUndefined => Some None
  | JStr s => Some (Some s)
  | _ => None
  end.

(** [v as number | undefined] *)
Definition as_opt_number (v : JValue) : option (option Z) :=
  match v with
  | JUndefined => Some None
  | JNum n => Some (Some n)
  | _ => None
  end.

(** [v as Record<string, unknown> | undefined] *)
Definition as_opt_object (v : JValue) : option (option JsObject) :=
  match v with
  | JUndefined => Some None
  | JObj o => Some (Some o)
  | _ => None
  end.

Definition as_string (v : JValue) : option string :=
  match v with JStr s => Some s | _ => None end.

(** Every element of an array read at one type. *)
Fixpoint decode_all {A} (f : JValue -> option A) (l : list JValue)
    : option (list A) :=
  match l with
  | [] => Some []
  | v :: rest =>
      obind (f v) (fun a =>
      obind (decode_all f rest) (fun la => Some (a :: la)))
  end.

Definition as_opt_array {A} (f : JValue -> option A) (v : JValue)
    : option (option (list A)) :=
  match v with
  | JUndefined => Some None
  | JArr l => option_map Some (decode_all f l)
  | _ => None
  end.

(** JavaScript truthiness of an optional string *)
Definition truthy_opt (o : option string) : bool :=
  match o with Some s => JsString.truthy s | None => false end.

Definition platform_value (p : option string) : JValue :=
  match p with Some s => JStr s | None => JUndefined end.

(** ** [src/tools/flow-tools.ts]: batch_commands *)

Record Command : Type := mkCommand {
  cmd_name : string;
  cmd_arguments : option JsObject;
}.

Definition decode_command (v : JValue) : option Command :=
  match v with
  | JObj o =>
      obind (as_string (Obj.get o "name")) (fun n =>
      obind (as_opt_object (Obj.get o "arguments")) (fun a =>
      Some (mkCommand n a)))
  | _ => None
  end.

Record BatchResult : Type := mkBatchResult {
  br_command : string;
  br_success : bool;
  br_result : string;
}.

Definition em_dash : string := "—".

Section Batch.

Variables (ctx : ToolContext) (_depth : Z) (stopOnError : bool).

(** [for (const cmd of commands) { try { ... } catch { ... } }] *)
Fixpoint batch_loop (commands : list Command) (results : list BatchResult)
    : M (list BatchResult) :=
  match commands with
  | [] => ret results
  | cmd :: rest =>
      outcome <- attempt
        (call BatchCommand ctx (cmd_name cmd)
           (or_else (cmd_arguments cmd) []) (_depth + 1)) ;;
      match outcome with
      | inl result =>
          batch_loop rest
            (results ++ [mkBatchResult (cmd_name cmd) true
                           (result_text result)])%list
      | inr error =>
          let results' :=
            (results ++ [mkBatchResult (cmd_name cmd) false
                           (err_message error)])%list in
          if stopOnError then ret results' else batch_loop rest results'
      end
  end.

End Batch.

(** [results.map((r, i) => ...)], [i] counted from [k] *)
Fixpoint batch_lines (k : nat) (results : list BatchResult) : list string :=
  match results with
  | [] => []
  | r :: rest =>
      (JsString.of_nat (k + 1) ++ ". " ++ br_command r ++ ": "
       ++ (if br_success r then "OK" else "ERROR")
       ++ " " ++ em_dash ++ " " ++ br_result r)
      :: batch_lines (S k) rest
  end.

Definition batch_failed (results : list BatchResult) : nat :=
  List.length (filter (fun r => negb (br_success r)) results).

Definition batch_summary (results : list BatchResult) (total : nat)
    : string :=
  let failed := batch_failed results in
  if (0 <? failed)%nat then
    "Batch: " ++ JsString.of_nat (List.length results) ++ "/"
    ++ JsString.of_nat total ++ " executed, " ++ JsString.of_nat failed
    ++ " failed"
  else "Batch: " ++ JsString.of_nat (List.length results) ++ " commands OK".

Definition batch_text (results : list BatchResult) (total : nat) : string :=
  batch_summary results total ++ JsString.newline ++ JsString.newline
  ++ JsString.join JsString.newline (batch_lines 0 results).

(** [args.stopOnError !== false] *)
Definition stopOnError_of (args : JsObject) : bool :=
  match Obj.get args "stopOnError" with
  | JBool false => false
  | _ => true
  end.

Definition batch_commands_handler : Handler := fun args ctx _depth =>
  if _depth >? MAX_RECURSION_DEPTH then throw_error recursion_message
  else
    commands <- typed (as_opt_array decode_command
                         (Obj.get args "commands")) ;;
    let stopOnError := stopOnError_of args in
    match commands with
    | None | Some [] => ret (text_response "No commands provided")
    | Some commands =>
        results <- batch_loop ctx _depth stopOnError commands [] ;;
        ret (text_response (batch_text results (List.length commands)))
    end.

(** ** [src/tools/flow-tools.ts]: run_flow *)

Definition FLOW_ALLOWED_ACTIONS : list string :=
  ["tap"; "swipe"; "input_text"; "press_key"; "wait"; "wait_for_element";
   "screenshot"; "analyze_screen"; "assert_visible"; "assert_not_exists";
   "find_and_tap"; "find_element"; "open_url"].

Definition FLOW_MAX_STEPS : Z := 20.
Definition FLOW_MAX_DURATION : Z := 60000.
Definition FLOW_MAX_REPEAT : Z := 10.

(** [FLOW_ALLOWED_ACTIONS.has(action)] *)
Definition flow_allowed (action : string) : bool :=
  existsb (String.eqb action) FLOW_ALLOWED_ACTIONS.

Record RepeatSpec : Type := mkRepeatSpec {
  repeat_times : option Z;
  repeat_until_found : option string;
  repeat_until_not_found : option string;
}.

(** [if_not_found] and [on_error] stay strings: the code compares them with
    string literals and nothing checks the schema's enumerations. *)
Record FlowStep : Type := mkFlowStep {
  step_action : string;
  step_args : option JsObject;
  step_if_not_found : option string;
  step_repeat : option RepeatSpec;
  step_on_error : option string;
  step_label : option string;
}.

Record FlowStepResult : Type := mkFlowStepResult {
  fsr_step : Z;
  fsr_action : string;
  fsr_label : option string;
  fsr_success : bool;
  fsr_message : string;
  fsr_durationMs : Z;
}.

Definition decode_repeat (v : JValue) : option (option RepeatSpec) :=
  match v with
  | JUndefined => Some None
  | JObj o =>
      obind (as_opt_number (Obj.get o "times")) (fun t =>
      obind (as_opt_string (Obj.get o "until_found")) (fun uf =>
      obind (as_opt_string (Obj.get o "until_not_found")) (fun unf =>
      Some (Some (mkRepeatSpec t uf unf)))))
  | _ => None
  end.

Definition decode_step (v : JValue) : option FlowStep :=
  match v with
  | JObj o =>
      obind (as_string (Obj.get o "action")) (fun a =>
      obind (as_opt_object (Obj.get o "args")) (fun ar =>
      obind (as_opt_string (Obj.get o "if_not_found")) (fun inf =>
      obind (decode_repeat (Obj.get o "repeat")) (fun rp =>
      obind (as_opt_string (Obj.get o "on_error")) (fun oe =>
      obind (as_opt_string (Obj.get o "label")) (fun lb =>
      Some (mkFlowStep a ar inf rp oe lb)))))))
  | _ => None
  end.

Definition format_flow_line (r : FlowStepResult) : string :=
  let lbl := if truthy_opt (fsr_label r)
             then " (" ++ or_else (fsr_label r) EmptyString ++ ")"
             else EmptyString in
  let status := if fsr_success r then "OK" else "FAIL" in
  JsString.of_Z (fsr_step r) ++ ". " ++ fsr_action r ++ lbl
  ++ ": " ++ status ++ " " ++ em_dash ++ " " ++ fsr_message r
  ++ " (" ++ JsString.of_Z (fsr_durationMs r) ++ "ms)".

Definition formatFlowResults (results : list FlowStepResult) (totalMs : Z)
    : string :=
  JsString.join JsString.newline
    (("Flow completed (" ++ JsString.of_Z totalMs ++ "ms)")
     :: EmptyString
     :: List.map format_flow_line results).

(** [error.message?.includes("not found")
     || error.message?.includes("No element")] *)
Definition is_not_found (error : JsError) : bool :=
  JsString.includes "not found" (err_message error)
  || JsString.includes "No element" (err_message error).

(** How the loop over the iterations of one step is left: by [break] or by
    its condition ([LoopEnd], with [lastStepResult]), or by the [return] in
    its [catch] ([FlowReturn]). *)
Inductive LoopExit : Type :=
  | LoopEnd (lastStepResult : option FlowStepResult)
  | FlowReturn (lastStepResult : FlowStepResult).

Section Flow.

Variables (ctx : ToolContext) (_depth : Z).
Variables (flowStart maxDuration : Z) (currentPlatform : option string).

Section Step.

Variables (step : FlowStep) (i : Z).

(** [{ ...step.args, platform: currentPlatform }] *)
Definition stepArgs : JsObject :=
  Obj.set (or_else (step_args step) []) "platform"
    (platform_value currentPlatform).

Definition onError : string := or_else (step_on_error step) "stop".

(** [step.repeat?.times ? Math.min(step.repeat.times, FLOW_MAX_REPEAT)
     : 1] *)
Definition repeatTimes : Z :=
  match step_repeat step with
  | Some r =>
      match repeat_times r with
      | Some n => if n =? 0 then 1 else Z.min n FLOW_MAX_REPEAT
      | None => 1
      end
  | None => 1
  end.

Definition untilFound : option string :=
  match step_repeat step with
  | Some r => repeat_until_found r
  | None => None
  end.

Definition untilNotFound : option string :=
  match step_repeat step with
  | Some r => repeat_until_not_found r
  | None => None
  end.

Definition hasRepeatCondition : bool :=
  truthy_opt untilFound || truthy_opt untilNotFound.

Definition maxIterations : Z :=
  if hasRepeatCondition then FLOW_MAX_REPEAT else repeatTimes.

Definition step_result (success : bool) (message : string)
    (durationMs : Z) : FlowStepResult :=
  mkFlowStepResult (i + 1) (step_action step) (step_label step) success
    message durationMs.

(** The inner [try] block of the repeat condition: [true] when it
    leaves the loop by [break]. *)
Definition repeat_condition : M bool :=
  elements <- getElementsForPlatform currentPlatform ;;
  appeared_now <-
    (if truthy_opt untilFound then
       found <- lift (findElements elements
                        (mkFindCriteria untilFound None None)) ;;
       ret (negb (is_nil found))
     else ret false) ;;
  if (appeared_now : bool) then ret true
  else if truthy_opt untilNotFound then
    found <- lift (findElements elements
                     (mkFindCriteria untilNotFound None None)) ;;
    ret (is_nil found)
  else ret false.

(** The swipe of [scroll_down] / [scroll_up] and the one retry. *)
Definition scroll_and_retry (stepStart : Z) (inf : string)
    : M FlowStepResult :=
  call FlowFallbackSwipe ctx "swipe"
    [("direction",
      JStr (if String.eqb inf "scroll_down" then "up" else "down"));
     ("platform", platform_value currentPlatform)]
    (_depth + 1) ;;
  sleep 300 ;;
  retryResult <- call FlowFallbackRetry ctx (step_action step) stepArgs
                   (_depth + 1) ;;
  t <- date_now ;;
  ret (step_result true
         (JsString.slice0 150 (result_text retryResult)
          ++ " (after " ++ inf ++ ")")
         (t - stepStart)).

(** The [catch (error)] of an iteration. [last] is [lastStepResult] as
    the [try] block left it; [next] goes on with the next iteration
    ([continue]). *)
Definition step_catch (stepStart iter : Z)
    (last : option FlowStepResult) (error : JsError)
    (next : option FlowStepResult -> M LoopExit) : M LoopExit :=
  t <- date_now ;;
  let durationMs := t - stepStart in
  let isNotFound := is_not_found error in
  if isNotFound && truthy_opt (step_if_not_found step) then
    let inf := or_else (step_if_not_found step) EmptyString in
    if String.eqb inf "skip" then
      ret (LoopEnd (Some (step_result true "Skipped (element not found)"
                            durationMs)))
    else if String.eqb inf "scroll_down" || String.eqb inf "scroll_up"
    then
      retried <- attempt (scroll_and_retry stepStart inf) ;;
      match retried with
      | inl r => ret (LoopEnd (Some r))
      | inr retryErr =>
          t' <- date_now ;;
          ret (LoopEnd (Some (step_result false
                                (err_message retryErr ++ " (after "
                                 ++ inf ++ ")")
                                (t' - stepStart))))
      end
    else
      ret (LoopEnd (Some (step_result false (err_message error)
                            durationMs)))
  else if String.eqb onError "retry" && (iter <? maxIterations - 1) then
    sleep 300 ;;
    next last
  else
    let r := step_result false (err_message error) durationMs in
    if String.eqb onError "stop" then ret (FlowReturn r)
    else ret (LoopEnd (Some r)).

(** One iteration of [for (let iter = 0; iter < maxIterations; iter++)].
    A device-class error of the repeat condition is thrown again from
    the inner [catch]; the [try] of the iteration encloses it, so it
    lands in [step_catch] after [lastStepResult] was assigned. *)
Definition step_body (iter : Z) (last : option FlowStepResult)
    (next : option FlowStepResult -> M LoopExit) : M LoopExit :=
  t0 <- date_now ;;
  if t0 - flowStart >? maxDuration then ret (LoopEnd last)
  else
    stepStart <- date_now ;;
    dispatched <- attempt
      (call FlowStepAttempt ctx (step_action step) stepArgs
         (_depth + 1)) ;;
    match dispatched with
    | inr error => step_catch stepStart iter last error next
    | inl result =>
        t1 <- date_now ;;
        let last' :=
          Some (step_result true
                  (JsString.slice0 200 (result_text result))
                  (t1 - stepStart)) in
        if hasRepeatCondition then
          checked <- attempt repeat_condition ;;
          match checked with
          | inl true => ret (LoopEnd last')
          | inl false => sleep 300 ;; next last'
          | inr condErr =>
              if is_backend_unavailable condErr
              then step_catch stepStart iter last' condErr next
              else sleep 300 ;; next last'
          end
        else next last'
    end.

(** The loop; [fuel] is the number of iterations left,
    [maxIterations - iter]. *)
Fixpoint step_iters (fuel : nat) (iter : Z)
    (last : option FlowStepResult) : M LoopExit :=
  match fuel with
  | O => ret (LoopEnd last)
  | S fuel' => step_body iter last (step_iters fuel' (iter + 1))
  end.

Definition run_step : M LoopExit :=
  step_iters (Z.to_nat maxIterations) 0 None.

End Step.

(** [for (let i = 0; i < steps.length; i++)], from step [i] on. *)
Fixpoint flow_steps (i : Z) (steps : list FlowStep)
    (results : list FlowStepResult) : M (list FlowStepResult) :=
  match steps with
  | [] => ret results
  | step :: rest =>
      t <- date_now ;;
      if t - flowStart >? maxDuration then
        ret (List.app results
               [mkFlowStepResult (i + 1) (step_action step)
                  (step_label step) false
                  ("Flow timeout (" ++ JsString.of_Z maxDuration
                   ++ "ms exceeded)")
                  0])
      else
        exit <- run_step step i ;;
        match exit with
        | FlowReturn last => ret (results ++ [last])%list
        | LoopEnd (Some last) =>
            let results' := (results ++ [last])%list in
            if negb (fsr_success last)
               && String.eqb (or_else (step_on_error step) "stop") "stop"
            then ret results'
            else flow_steps (i + 1) rest results'
        | LoopEnd None => flow_steps (i + 1) rest results
        end
  end.

End Flow.

Record FlowArgs : Type := mkFlowArgs {
  flow_platform : option string;
  flow_steps_arg : option (list FlowStep);
  flow_maxDuration : option Z;
}.

Definition decode_flow_args (args : JsObject) : option FlowArgs :=
  obind (as_opt_string (Obj.get args "platform")) (fun p =>
  obind (as_opt_array decode_step (Obj.get args "steps")) (fun st =>
  obind (as_opt_number (Obj.get args "maxDuration")) (fun md =>
  Some (mkFlowArgs p st md)))).

Definition not_allowed_text (action : string) : string :=
  "Action " ++ JsString.dquote ++ action ++ JsString.dquote
  ++ " is not allowed in flows. Allowed: "
  ++ JsString.join ", " FLOW_ALLOWED_ACTIONS.

Definition too_many_steps_text (n : nat) : string :=
  "Too many steps (" ++ JsString.of_nat n ++ "). Maximum is "
  ++ JsString.of_Z FLOW_MAX_STEPS ++ ".".

Definition run_flow_handler : Handler := fun args ctx _depth =>
  if _depth >? MAX_RECURSION_DEPTH then throw_error recursion_message
  else
    fa <- typed (decode_flow_args args) ;;
    let maxDuration :=
      Z.min (or_else (flow_maxDuration fa) 30000) FLOW_MAX_DURATION in
    active <- current_platform ;;
    let currentPlatform :=
      match flow_platform fa with
      | Some p => Some p
      | None => active
      end in
    match flow_steps_arg fa with
    | None | Some [] => ret (text_response "No steps provided")
    | Some steps =>
        if Z.of_nat (List.length steps) >? FLOW_MAX_STEPS then
          ret (text_response (too_many_steps_text (List.length steps)))
        else
          match find (fun st => negb (flow_allowed (step_action st))) steps
          with
          | Some bad => ret (text_response (not_allowed_text (step_action bad)))
          | None =>
              flowStart <- date_now ;;
              results <- flow_steps ctx _depth flowStart maxDuration
                           currentPlatform 0 steps [] ;;
              t <- date_now ;;
              ret (text_response (formatFlowResults results (t - flowStart)))
          end
    end.

(** ** [src/tools/interaction-tools.ts]: tap *)

(** [a || b] on two optional strings, as the template literals print it *)
Definition first_truthy (a b : option string) : string :=
  if truthy_opt a then or_else a EmptyString
  else or_else b "undefined".

Definition platform_is (p : option string) (name : string) : bool :=
  match p with Some s => String.eqb s name | None => false end.

(** [args.hints === true], [args.diff === true] *)
Definition is_true (v : JValue) : bool :=
  match v with JBool true => true | _ => false end.

(** [args.compress !== false] *)
Definition is_not_false (v : JValue) : bool :=
  match v with JBool false => false | _ => true end.

Definition tapped_at (x y : Z) : string :=
  "Tapped at (" ++ JsString.of_Z x ++ ", " ++ JsString.of_Z y ++ ")".

(** The end of the handler, from [deviceManager.tap] on. *)
Definition tap_and_report (x y : Z) (platform : option string)
    (targetPid : option Z) (hints : bool) : M Response :=
  adapter (OpTap x y) (dm_tap x y platform targetPid) ;;
  let result := tapped_at x y in
  if hints then
    h <- generateActionHints platform ;;
    ret (text_response (result ++ h))
  else ret (text_response result).

Definition tap_handler : Handler := fun args ctx _depth =>
  platform <- typed (as_opt_string (Obj.get args "platform")) ;;
  x0 <- typed (as_opt_number (Obj.get args "x")) ;;
  y0 <- typed (as_opt_number (Obj.get args "y")) ;;
  txt <- typed (as_opt_string (Obj.get args "text")) ;;
  lbl <- typed (as_opt_string (Obj.get args "label")) ;;
  rid <- typed (as_opt_string (Obj.get args "resourceId")) ;;
  idx <- typed (as_opt_number (Obj.get args "index")) ;;
  targetPid <- typed (as_opt_number (Obj.get args "targetPid")) ;;
  active <- current_platform ;;
  let currentPlatform :=
    match platform with Some p => Some p | None => active end in
  if platform_is currentPlatform "ios" && (truthy_opt lbl || truthy_opt txt)
  then
    try_catch
      (element <- adapter OpIosFindElement (ios_findElement txt lbl) ;;
       adapter OpIosTapElement (ios_tapElement element) ;;
       ret (text_response ("Tapped element: " ++ first_truthy lbl txt)))
      (fun error =>
         ret (text_response
                ("Element not found: " ++ first_truthy lbl txt
                 ++ JsString.newline ++ err_message error)))
  else
    (* by index, from the cached elements *)
    by_index <-
      match idx with
      | Some n =>
          if platform_is currentPlatform "android" then
            cached <- getCachedElements "android" ;;
            elements <-
              (if is_nil cached then
                 xml <- adapter (OpGetUiHierarchyAsync "android")
                          (dm_getUiHierarchyAsync "android") ;;
                 parsed <- lift (parseUiHierarchy xml) ;;
                 setCachedElements "android" parsed ;;
                 ret parsed
               else ret cached) ;;
            match find (fun e => index e =? n) elements with
            | None =>
                ret (inl (text_response
                            ("Element with index " ++ JsString.of_Z n
                             ++ " not found. Run get_ui first.")))
            | Some el => ret (inr (Some (centerX el), Some (centerY el)))
            end
          else ret (inr (x0, y0))
      | None => ret (inr (x0, y0))
      end ;;
    match by_index with
    | inl early => ret early
    | inr (x1, y1) =>
        (* by text or resource id *)
        by_text <-
          (if (truthy_opt txt || truthy_opt rid)
              && platform_is currentPlatform "android"
           then
             xml <- adapter (OpGetUiHierarchyAsync "android")
                      (dm_getUiHierarchyAsync "android") ;;
             elements <- lift (parseUiHierarchy xml) ;;
             setCachedElements "android" elements ;;
             found <-
               (if truthy_opt txt
                then lift (findByText elements (or_else txt EmptyString))
                else if truthy_opt rid
                then lift (findByResourceId elements
                             (or_else rid EmptyString))
                else ret []) ;;
             match found with
             | [] =>
                 ret (inl (text_response
                             ("Element not found: " ++ first_truthy txt rid)))
             | first :: _ =>
                 let target :=
                   match filter clickable found with
                   | c :: _ => c
                   | [] => first
                   end in
                 ret (inr (Some (centerX target), Some (centerY target)))
             end
           else ret (inr (x1, y1))) ;;
        match by_text with
        | inl early => ret early
        | inr (Some x, Some y) =>
            tap_and_report x y platform targetPid
              (is_true (Obj.get args "hints"))
        | inr _ =>
            ret (text_response
                   "Please provide x,y coordinates, text, resourceId, label, or index")
        end
    end.

(** ** [src/tools/screenshot-tools.ts]: screenshot *)

Definition STABLE_INTERVAL_MS : Z := 300.
Definition STABLE_MAX_RETRIES : nat := 3.
Definition STABLE_THRESHOLD_PERCENT : Q := 2 # 1.

(** [a < b] on fractions *)
Definition Qltb (a b : Q) : bool := negb (Qle_bool b a).

Fixpoint stable_loop (getBuffer : M Buffer) (retries : nat) (prev : Buffer)
    : M Buffer :=
  match retries with
  | O => ret prev
  | S retries' =>
      sleep STABLE_INTERVAL_MS ;;
      next <- getBuffer ;;
      diff <- lift (compareScreenshots prev next 30) ;;
      if Qltb (changePercent diff) STABLE_THRESHOLD_PERCENT then ret next
      else stable_loop getBuffer retries' next
  end.

Definition waitForStableScreenshot (getBuffer : M Buffer) : M Buffer :=
  prev <- getBuffer ;;
  stable_loop getBuffer STABLE_MAX_RETRIES prev.

(** [compress ? await compressScreenshot(buf, compressOptions)
     : { data: buf.toString("base64"), mimeType: "image/png" }] *)
Definition encode_image (compress : bool) (options : CompressOptions)
    (buf : Buffer) : M Image :=
  if compress then lift (compressScreenshot buf options)
  else ret (mkImage (buffer_to_base64 buf) "image/png").

Definition is_none {A} (o : option A) : bool :=
  match o with None => true | Some _ => false end.

Definition get_last_screenshot (platform : string) : M (option Buffer) :=
  fun s => (Ok (JsMap.get (lastScreenshotMap s) platform), s, []).

Definition set_last_screenshot (platform : string) (buf : Buffer) : M unit :=
  fun s =>
    (Ok tt,
     mkState (device s) (cachedElementsMap s)
       (JsMap.set (lastScreenshotMap s) platform buf),
     []).

Definition unchanged_text (percent : string) : string :=
  "Screen unchanged (" ++ percent ++ "% diff)".

Definition full_frame_text (percent : string) : string :=
  "Screen changed significantly (" ++ percent ++ "% diff) " ++ em_dash
  ++ " full screenshot".

Definition changed_region_text (percent : string) (region : Region)
    : string :=
  "Changed region (" ++ percent ++ "% diff) at ("
  ++ JsString.of_Z (region_x region) ++ ", "
  ++ JsString.of_Z (region_y region) ++ ") "
  ++ JsString.of_Z (region_width region) ++ "x"
  ++ JsString.of_Z (region_height region).

(** The three tiers of diff mode, once the two captures were compared. *)
Definition diff_tiers (compress : bool) (options : CompressOptions)
    (pngBuffer : Buffer) (diff : ScreenDiff) : M Response :=
  let percent := number_to_string (changePercent diff) in
  let full_frame :=
    result <- encode_image compress options pngBuffer ;;
    ret (mkResponse (Some (full_frame_text percent)) (Some result)) in
  if Qltb (changePercent diff) (5 # 1) then
    ret (text_response (unchanged_text percent))
  else if Qle_bool (80 # 1) (changePercent diff)
          || is_none (changedRegion diff) then full_frame
  else
    match changedRegion diff with
    | None => full_frame (* excluded by the test above *)
    | Some region =>
        croppedBuffer <- lift (cropRegion pngBuffer region 20) ;;
        result <- encode_image compress options croppedBuffer ;;
        ret (mkResponse (Some (changed_region_text percent region))
               (Some result))
    end.

Definition screenshot_handler : Handler := fun args ctx _depth =>
  platform <- typed (as_opt_string (Obj.get args "platform")) ;;
  let compress := is_not_false (Obj.get args "compress") in
  let diffMode := is_true (Obj.get args "diff") in
  let stableMode := is_true (Obj.get args "waitForStable") in
  threshold <- typed (as_opt_number (Obj.get args "diffThreshold")) ;;
  let diffThreshold := or_else threshold 30 in
  mw <- typed (as_opt_number (Obj.get args "maxWidth")) ;;
  mh <- typed (as_opt_number (Obj.get args "maxHeight")) ;;
  q <- typed (as_opt_number (Obj.get args "quality")) ;;
  mi <- typed (as_opt_number (Obj.get args "monitorIndex")) ;;
  let compressOptions := mkCompressOptions mw mh q mi in
  active <- current_platform ;;
  let currentPlatform := platform_or_android platform active in
  let captureBuffer :=
    adapter (OpGetScreenshotBufferAsync currentPlatform)
      (dm_getScreenshotBufferAsync currentPlatform) in
  if diffMode then
    pngBuffer <- (if stableMode then waitForStableScreenshot captureBuffer
                  else captureBuffer) ;;
    prevBuffer <- get_last_screenshot currentPlatform ;;
    set_last_screenshot currentPlatform pngBuffer ;;
    match prevBuffer with
    | None =>
        result <- encode_image compress compressOptions pngBuffer ;;
        ret (mkResponse
               (Some "First screenshot (no previous to diff against)")
               (Some result))
    | Some prev =>
        diff <- lift (compareScreenshots prev pngBuffer diffThreshold) ;;
        diff_tiers compress compressOptions pngBuffer diff
    end
  else
    pngBuffer <- (if stableMode then waitForStableScreenshot captureBuffer
                  else captureBuffer) ;;
    set_last_screenshot currentPlatform pngBuffer ;;
    result <- encode_image compress compressOptions pngBuffer ;;
    ret (mkResponse None (Some result)).

End Core.

Arguments mkToolContext {E} _.
Arguments mkToolDefinition {E} _ _.
Arguments mkRegistry {E} _ _.

(* ------------------------------------------------------------------ *)
(** * [src/tools/context.ts]: the accessibility tree of iOS *)
(* ------------------------------------------------------------------ *)

(** [tree.rect]: each of the four numbers may be missing. They are
    integers here, as the frames WebDriverAgent reports are. *)
Record IosRect : Type := mkIosRect {
  rect_x : option Z;
  rect_y : option Z;
  rect_width : option Z;
  rect_height : option Z;
}.

(** The tree WebDriverAgent returns ([tree: any]), read at the fields
    the two functions below use. A missing [children] is the empty list:
    both functions only iterate over it. *)
Inductive IosNode : Type := mkIosNode {
  node_rect : option IosRect;
  node_identifier : option string;
  node_type : option string;
  node_label : option string;
  node_value : option string;
  node_name : option string;
  node_enabled : option bool;
  node_selected : option bool;
  node_children : list IosNode;
}.

(** [tree.enabled !== false] *)
Definition not_disabled (tree : IosNode) : bool :=
  match node_enabled tree with Some false => false | _ => true end.

(** [tree.type?.includes(pat)]; [undefined] reads as [false], which is
    how [||] and [??] below take it. *)
Definition type_includes (tree : IosNode) (pat : string) : bool :=
  match node_type tree with
  | Some t => JsString.includes pat t
  | None => false
  end.

(** The object literal pushed for a node whose rect is [x], [y], [w],
    [h], under the index [i]. *)
Definition ios_element (tree : IosNode) (x y w h i : Z) : UiElement :=
  let opt (o : option string) :=
    match o with Some s => s | None => EmptyString end in
  {| index := i;
     resourceId := opt (node_identifier tree);
     className := opt (node_type tree);
     packageName := EmptyString;
     text := match node_label tree with
             | Some l => l
             | None => opt (node_value tree)
             end;
     contentDesc := opt (node_name tree);
     checkable := false;
     checked := false;
     clickable := not_disabled tree
                  && (type_includes tree "Button"
                      || type_includes tree "Link"
                      || type_includes tree "Cell");
     enabled := not_disabled tree;
     focusable := not_disabled tree;
     focused := false;
     scrollable := type_includes tree "ScrollView";
     longClickable := false;
     password := type_includes tree "SecureTextField";
     selected := match node_selected tree with
                 | Some b => b
                 | None => false
                 end;
     bounds := mkBounds x y (x + w) (y + h);
     centerX := x + w / 2;
     centerY := y + h / 2;
     width := w;
     height := h |}.

(** [iosTreeToUiElements(tree, elements, index)]: the array [elements]
    and the counter [index.value] are shared by the whole traversal, so
    they go in and come out. *)
Fixpoint iosTreeToUiElements (tree : IosNode)
    (acc : list UiElement * Z) : list UiElement * Z :=
  let pushed :=
    match node_rect tree with
    | Some rect =>
        let x := match rect_x rect with Some n => n | None => 0 end in
        let y := match rect_y rect with Some n => n | None => 0 end in
        let w := match rect_width rect with Some n => n | None => 0 end in
        let h := match rect_height rect with Some n => n | None => 0 end in
        if (w >? 0) && (h >? 0)
        then ((fst acc ++ [ios_element tree x y w h (snd acc)])%list,
              snd acc + 1)
        else acc
    | None => acc
    end in
  fold_left (fun acc' child => iosTreeToUiElements child acc')
    (node_children tree) pushed.

(** The call with the default arguments, [elements = []] and
    [index = { value: 0 }]. *)
Definition iosTreeToUiElements_of (tree : IosNode) : list UiElement :=
  fst (iosTreeToUiElements tree ([], 0)).

(* ------------------------------------------------------------------ *)
(** * [src/tools/ui-tools.ts] *)
(* ------------------------------------------------------------------ *)

(** The result of [findBestMatch]. *)
Record BestMatch : Type := mkBestMatch {
  match_element : UiElement;
  match_confidence : Q;
  match_reason : string;
}.

(** What [ui-tools.ts] imports from [adb/ui-parser] beyond the functions
    of the core. Neither is constrained. *)
Class UiParser : Type := mkUiParser {
  formatElement : UiElement -> Res string;
  findBestMatch : list UiElement -> string -> Res (option BestMatch);
}.

Section UiTools.

Context {E : Env} {P : UiParser}.

Notation "x <- m ;; k" := (bind m (fun x => k))
  (at level 61, m at next level, right associativity).
Notation "m ;; k" := (bind m (fun _ => k))
  (at level 61, right associativity).

(** [platform ?? ctx.deviceManager.getCurrentPlatform()] *)
Definition platform_or_active (platform : option string)
    : M (option string) :=
  active <- current_platform ;;
  ret (match platform with Some p => Some p | None => active end).

(** [`${o ?? ""}`] *)
Definition or_empty (o : option string) : string :=
  match o with Some s => s | None => EmptyString end.

(** ** wait_for_element *)

(** The two platform branches at the top of the [try] block of a poll:
    what [lastElements] is once they ran. *)
Definition poll_elements (currentPlatform : option string)
    (lastElements : list UiElement) : M (list UiElement) :=
  if platform_is currentPlatform "android" then
    xml <- adapter (OpGetUiHierarchyAsync "android")
             (dm_getUiHierarchyAsync "android") ;;
    parsed <- lift (parseUiHierarchy xml) ;;
    setCachedElements "android" parsed ;;
    ret parsed
  else if platform_is currentPlatform "ios" then
    json <- adapter (OpGetUiHierarchyAsync "ios")
              (dm_getUiHierarchyAsync "ios") ;;
    lift (parseIosTree json)
  else ret lastElements.

Definition element_found_text (elapsed : Z) (formatted : string)
    (matches : nat) : string :=
  "Element found after " ++ JsString.of_Z elapsed ++ "ms:"
  ++ JsString.newline ++ formatted ++ JsString.newline
  ++ (if (1 <? matches)%nat
      then "(" ++ JsString.of_nat matches ++ " total matches)"
      else EmptyString).

Definition wait_timeout_text (timeout : Z)
    (searchText searchId searchClass : option string) : string :=
  "Timeout after " ++ JsString.of_Z timeout
  ++ "ms: element not found (text=" ++ or_empty searchText
  ++ ", resourceId=" ++ or_empty searchId
  ++ ", className=" ++ or_empty searchClass ++ ")".

Section Wait.

Variables (currentPlatform : option string) (timeout interval : Z).
Variables (searchText searchId searchClass : option string).
Variable (startTime : Z).

(** The rest of the [try] block: the search in [lastElements], and the
    [return] when it finds something. *)
Definition poll_search (lastElements : list UiElement)
    : M (option Response) :=
  found <- lift (findElements lastElements
                   (mkFindCriteria searchText searchId searchClass)) ;;
  match found with
  | [] => ret None
  | first :: _ =>
      t <- date_now ;;
      let elapsed := t - startTime in
      formatted <- lift (formatElement first) ;;
      ret (Some (text_response
                   (element_found_text elapsed formatted
                      (List.length found))))
  end.

(** [while (Date.now() - startTime < timeout) { try { ... } catch
    (pollErr) { ... } await sleep(interval) }], then the timeout text.
    [fuel] bounds the number of polls; [None] stands for a loop that is
    still polling when the fuel is used up. *)
Fixpoint wait_loop (fuel : nat) (lastElements : list UiElement)
    : M (option Response) :=
  match fuel with
  | O => ret None
  | S fuel' =>
      t <- date_now ;;
      if t - startTime <? timeout then
        let on_poll_error (pollErr : JsError) (last : list UiElement) :=
          if is_backend_unavailable pollErr then fail (Thrown pollErr)
          else sleep interval ;; wait_loop fuel' last in
        fetched <- attempt (poll_elements currentPlatform lastElements) ;;
        match fetched with
        | inr pollErr => on_poll_error pollErr lastElements
        | inl elements =>
            searched <- attempt (poll_search elements) ;;
            match searched with
            | inl (Some response) => ret (Some response)
            | inl None => sleep interval ;; wait_loop fuel' elements
            | inr pollErr => on_poll_error pollErr elements
            end
        end
      else
        ret (Some (text_response
                     (wait_timeout_text timeout searchText searchId
                        searchClass)))
  end.

End Wait.

Definition wait_for_element_handler (fuel : nat) : Handler :=
  fun args ctx _depth =>
    platform <- typed (as_opt_string (Obj.get args "platform")) ;;
    currentPlatform <- platform_or_active platform ;;
    timeout <- typed (as_opt_number (Obj.get args "timeout")) ;;
    interval <- typed (as_opt_number (Obj.get args "interval")) ;;
    searchText <- typed (as_opt_string (Obj.get args "text")) ;;
    searchId <- typed (as_opt_string (Obj.get args "resourceId")) ;;
    searchClass <- typed (as_opt_string (Obj.get args "className")) ;;
    if negb (truthy_opt searchText) && negb (truthy_opt searchId)
       && negb (truthy_opt searchClass)
    then
      ret (text_response
             "Provide at least one search criteria: text, resourceId, or className")
    else
      startTime <- date_now ;;
      ended <- wait_loop currentPlatform (or_else timeout 5000)
                 (or_else interval 500) searchText searchId searchClass
                 startTime fuel [] ;;
      match ended with
      | Some response => ret response
      | None => fail OutOfFuel
      end.

(** ** assert_visible, assert_not_exists *)

(** The elements both assertions look at. *)
Definition asserted_elements (currentPlatform : option string)
    : M (list UiElement) :=
  if platform_is currentPlatform "android" then
    xml <- adapter (OpGetUiHierarchyAsync "android")
             (dm_getUiHierarchyAsync "android") ;;
    elements <- lift (parseUiHierarchy xml) ;;
    setCachedElements "android" elements ;;
    ret elements
  else if platform_is currentPlatform "ios" then
    json <- adapter (OpGetUiHierarchyAsync "ios")
              (dm_getUiHierarchyAsync "ios") ;;
    lift (parseIosTree json)
  else ret [].

(** [(text=${searchText ?? ""}, resourceId=${searchId ?? ""})] *)
Definition searched_for (searchText searchId : option string) : string :=
  "(text=" ++ or_empty searchText ++ ", resourceId=" ++ or_empty searchId
  ++ ")".

Definition assert_visible_handler : Handler := fun args ctx _depth =>
  platform <- typed (as_opt_string (Obj.get args "platform")) ;;
  currentPlatform <- platform_or_active platform ;;
  searchText <- typed (as_opt_string (Obj.get args "text")) ;;
  searchId <- typed (as_opt_string (Obj.get args "resourceId")) ;;
  if negb (truthy_opt searchText) && negb (truthy_opt searchId) then
    ret (text_response "Provide text or resourceId to assert")
  else
    elements <- asserted_elements currentPlatform ;;
    found <- lift (findElements elements
                     (mkFindCriteria searchText searchId None)) ;;
    match found with
    | first :: _ =>
        formatted <- lift (formatElement first) ;;
        ret (text_response
               ("PASS: Element visible " ++ em_dash ++ " " ++ formatted))
    | [] =>
        ret (text_response
               ("FAIL: Element not visible "
                ++ searched_for searchText searchId))
    end.

Definition assert_not_exists_handler : Handler := fun args ctx _depth =>
  platform <- typed (as_opt_string (Obj.get args "platform")) ;;
  currentPlatform <- platform_or_active platform ;;
  searchText <- typed (as_opt_string (Obj.get args "text")) ;;
  searchId <- typed (as_opt_string (Obj.get args "resourceId")) ;;
  if negb (truthy_opt searchText) && negb (truthy_opt searchId) then
    ret (text_response "Provide text or resourceId to assert absence")
  else
    elements <- asserted_elements currentPlatform ;;
    found <- lift (findElements elements
                     (mkFindCriteria searchText searchId None)) ;;
    match found with
    | [] =>
        ret (text_response
               ("PASS: Element not present "
                ++ searched_for searchText searchId))
    | first :: _ =>
        formatted <- lift (formatElement first) ;;
        ret (text_response
               ("FAIL: Element exists " ++ em_dash ++ " " ++ formatted))
    end.

(** ** find_and_tap *)

Definition no_match_text (description : string) : string :=
  "No element found matching " ++ JsString.dquote ++ description
  ++ JsString.dquote
  ++ ". Try using get_ui or analyze_screen to see available elements.".

Definition low_confidence_text (m : BestMatch) (formatted : string)
    : string :=
  "Best match has low confidence ("
  ++ number_to_string (match_confidence m) ++ "%): " ++ match_reason m
  ++ JsString.newline ++ "Element: " ++ formatted ++ JsString.newline
  ++ "Set minConfidence lower or use tap with coordinates.".

Definition tapped_match_text (description : string) (m : BestMatch)
    : string :=
  "Tapped " ++ JsString.dquote ++ description ++ JsString.dquote ++ " ("
  ++ number_to_string (match_confidence m) ++ "% confidence)"
  ++ JsString.newline ++ "Match: " ++ match_reason m ++ JsString.newline
  ++ "Coordinates: (" ++ JsString.of_Z (centerX (match_element m)) ++ ", "
  ++ JsString.of_Z (centerY (match_element m)) ++ ")".

Definition find_and_tap_handler : Handler := fun args ctx _depth =>
  platform <- typed (as_opt_string (Obj.get args "platform")) ;;
  currentPlatform <- platform_or_active platform ;;
  if negb (platform_is currentPlatform "android") then
    ret (text_response
           "find_and_tap is only available for Android. Use tap with coordinates for iOS/Desktop.")
  else
    description <- typed (as_string (Obj.get args "description")) ;;
    minimum <- typed (as_opt_number (Obj.get args "minConfidence")) ;;
    let minConfidence := or_else minimum 30 in
    xml <- adapter (OpGetUiHierarchyAsync "android")
             (dm_getUiHierarchyAsync "android") ;;
    tapElements <- lift (parseUiHierarchy xml) ;;
    setCachedElements "android" tapElements ;;
    best <- lift (findBestMatch tapElements description) ;;
    match best with
    | None => ret (text_response (no_match_text description))
    | Some m =>
        if Qltb (match_confidence m) (inject_Z minConfidence) then
          formatted <- lift (formatElement (match_element m)) ;;
          ret (text_response (low_confidence_text m formatted))
        else
          adapter (OpTap (centerX (match_element m))
                     (centerY (match_element m)))
            (dm_tap (centerX (match_element m))
               (centerY (match_element m)) (Some "android") None) ;;
          ret (text_response (tapped_match_text description m))
    end.

End UiTools.

(* ------------------------------------------------------------------ *)
(** * [src/tools/interaction-tools.ts]: swipe, input_text, press_key *)
(* ------------------------------------------------------------------ *)

(** What the three tools ask of the device manager. *)
Class Gestures {E : Env} : Type := mkGestures {
  dm_swipeDirection : string -> option string -> Device -> Res unit * Device;
  dm_swipe :
    Z -> Z -> Z -> Z -> Z -> option string -> Device -> Res unit * Device;
  dm_inputText :
    string -> option string -> option Z -> Device -> Res unit * Device;
  dm_pressKey :
    string -> option string -> option Z -> Device -> Res unit * Device;
}.

Section InteractionTools.

Context {E : Env} {G : Gestures}.

Notation "x <- m ;; k" := (bind m (fun x => k))
  (at level 61, m at next level, right associativity).
Notation "m ;; k" := (bind m (fun _ => k))
  (at level 61, right associativity).

(** The end the three tools share with tap:
    [if (args.hints === true) result += await
     ctx.generateActionHints(platform); return { text: result }] *)
Definition report_with_hints (result : string) (platform : option string)
    (hints : bool) : M Response :=
  if hints then
    h <- generateActionHints platform ;;
    ret (text_response (result ++ h))
  else ret (text_response result).

Definition swiped_from (x1 y1 x2 y2 : Z) : string :=
  "Swiped from (" ++ JsString.of_Z x1 ++ ", " ++ JsString.of_Z y1
  ++ ") to (" ++ JsString.of_Z x2 ++ ", " ++ JsString.of_Z y2 ++ ")".

Definition swipe_handler : Handler := fun args ctx _depth =>
  platform <- typed (as_opt_string (Obj.get args "platform")) ;;
  direction <- typed (as_opt_string (Obj.get args "direction")) ;;
  if truthy_opt direction then
    let dir := or_else direction EmptyString in
    adapter (OpSwipeDirection dir) (dm_swipeDirection dir platform) ;;
    report_with_hints ("Swiped " ++ dir) platform
      (is_true (Obj.get args "hints"))
  else
    x1 <- typed (as_opt_number (Obj.get args "x1")) ;;
    y1 <- typed (as_opt_number (Obj.get args "y1")) ;;
    x2 <- typed (as_opt_number (Obj.get args "x2")) ;;
    y2 <- typed (as_opt_number (Obj.get args "y2")) ;;
    match x1, y1, x2, y2 with
    | Some a, Some b, Some c, Some d =>
        given <- typed (as_opt_number (Obj.get args "duration")) ;;
        let duration := or_else given 300 in
        adapter (OpSwipe a b c d duration)
          (dm_swipe a b c d duration platform) ;;
        report_with_hints (swiped_from a b c d) platform
          (is_true (Obj.get args "hints"))
    | _, _, _, _ =>
        ret (text_response
               "Please provide direction or x1,y1,x2,y2 coordinates")
    end.

Definition input_text_handler : Handler := fun args ctx _depth =>
  platform <- typed (as_opt_string (Obj.get args "platform")) ;;
  targetPid <- typed (as_opt_number (Obj.get args "targetPid")) ;;
  text <- typed (as_string (Obj.get args "text")) ;;
  adapter (OpInputText text) (dm_inputText text platform targetPid) ;;
  report_with_hints
    ("Entered text: " ++ JsString.dquote ++ text ++ JsString.dquote)
    platform (is_true (Obj.get args "hints")).

Definition press_key_handler : Handler := fun args ctx _depth =>
  platform <- typed (as_opt_string (Obj.get args "platform")) ;;
  targetPid <- typed (as_opt_number (Obj.get args "targetPid")) ;;
  key <- typed (as_string (Obj.get args "key")) ;;
  adapter (OpPressKey key) (dm_pressKey key platform targetPid) ;;
  report_with_hints ("Pressed key: " ++ key) platform
    (is_true (Obj.get args "hints")).

End InteractionTools.

(* ------------------------------------------------------------------ *)
(** * [src/index.ts]: the request handler of the server *)
(* ------------------------------------------------------------------ *)

(** One item of the [content] of a reply. *)
Inductive ContentItem : Type :=
| ImageContent (data mimeType : string)
| TextContent (text : string).

(** The reply to a [tools/call] request; [isError] is absent unless the
    call threw. *)
Record CallToolResult : Type := mkCallToolResult {
  content : list ContentItem;
  isError : bool;
}.

Section Server.

Context {E : Env}.

Notation "x <- m ;; k" := (bind m (fun x => k))
  (at level 61, m at next level, right associativity).

(** The reply built from what a handler returned. *)
Definition reply_of (result : Response) : CallToolResult :=
  match resp_image result with
  | Some img =>
      mkCallToolResult
        (ImageContent (img_data img) (img_mimeType img)
         :: (if truthy_opt (resp_text result)
             then [TextContent (or_else (resp_text result) EmptyString)]
             else []))
        false
  | None => mkCallToolResult [TextContent (result_text result)] false
  end.

Definition error_reply (error : JsError) : CallToolResult :=
  mkCallToolResult [TextContent ("Error: " ++ err_message error)] true.

(** [server.setRequestHandler(CallToolRequestSchema, ...)]: [args] is
    [request.params.arguments]. *)
Definition call_tool_request (reg : Registry) (name : string)
    (args : option JsObject) : M CallToolResult :=
  try_catch
    (result <- handleTool reg name (or_else args []) 0 ;;
     ret (reply_of result))
    (fun error => ret (error_reply error)).

End Server.

(* ------------------------------------------------------------------ *)
(** * [dist/device-manager.js]: the device manager *)
(* ------------------------------------------------------------------ *)

Module DeviceManager.

(** A device as [AdbClient.getDevices] lists it. *)
Record AdbDevice : Type := mkAdbDevice {
  adb_id : string;
  adb_model : option string;
  adb_state : string;
}.

(** A device as [IosClient.getDevices] lists it. *)
Record SimDevice : Type := mkSimDevice {
  sim_id : string;
  sim_name : string;
  sim_state : string;
  sim_isSimulator : bool;
}.

(** [Device] of [device-manager.d.ts]. *)
Record Device : Type := mkDevice {
  dev_id : string;
  dev_name : string;
  dev_platform : string;
  dev_state : string;
  dev_isSimulator : bool;
}.

(** [this.androidClient], [this.iosClient] *)
Inductive Client : Type := AndroidClient | IosClient.

(** The calls the manager makes on its two clients. *)
Inductive ClientCall : Type :=
| GetDevices (client : Client)
| SetDevice (client : Client) (id : string)
| Tap (client : Client) (x y : Z)
| LongPress (x y durationMs : Z).

(** The two clients: whatever they do, they do it to a world outside
    the manager, and any of their methods may throw. *)
Class Clients : Type := mkClients {
  World : Type;
  adb_getDevices : World -> Res (list AdbDevice) * World;
  ios_getDevices : World -> Res (list SimDevice) * World;
  client_setDevice : Client -> string -> World -> Res unit * World;
  client_tap : Client -> Z -> Z -> World -> Res unit * World;
  adb_longPress : Z -> Z -> Z -> World -> Res unit * World;
}.

Section Manager.

Context {C : Clients}.

(** The fields of the class: [activeDevice], and the clients through
    the world they act on. *)
Record Manager : Type := mkManager {
  activeDevice : option Device;
  world : World;
}.

Definition DM (A : Type) : Type :=
  Manager -> Res A * Manager * list ClientCall.

Definition ret {A} (a : A) : DM A := fun m => (Ok a, m, []).

Definition bind {A B} (c : DM A) (k : A -> DM B) : DM B :=
  fun m =>
    match c m with
    | (Ok a, m1, t1) =>
        match k a m1 with (r, m2, t2) => (r, m2, (t1 ++ t2)%list) end
    | (Fail f, m1, t1) => (Fail f, m1, t1)
    end.

Notation "x <- c ;; k" := (bind c (fun x => k))
  (at level 61, c at next level, right associativity).
Notation "c ;; k" := (bind c (fun _ => k))
  (at level 61, right associativity).

(** [throw new Error(msg)] *)
Definition throw_error {A} (msg : string) : DM A :=
  fun m => (Throw (mkError PlainError msg), m, []).

(** A method of a client. *)
Definition client {A} (call : ClientCall)
    (f : World -> Res A * World) : DM A :=
  fun m =>
    match f (world m) with
    | (r, w) => (r, mkManager (activeDevice m) w, [call])
    end.

(** [try { ... } catch { }] around a listing: what was thrown is
    dropped. *)
Definition or_nothing {A} (c : DM (list A)) : DM (list A) :=
  fun m =>
    match c m with
    | (Throw _, m1, t1) => (Ok [], m1, t1)
    | other => other
    end.

Definition of_adb (d : AdbDevice) : Device :=
  mkDevice (adb_id d)
    (match adb_model d with Some model => model | None => adb_id d end)
    "android" (adb_state d) (String.prefix "emulator" (adb_id d)).

Definition of_sim (d : SimDevice) : Device :=
  mkDevice (sim_id d) (sim_name d) "ios" (sim_state d) (sim_isSimulator d).

Definition getAllDevices : DM (list Device) :=
  android <- or_nothing
               (androidDevices <- client (GetDevices AndroidClient)
                                    adb_getDevices ;;
                ret (List.map of_adb androidDevices)) ;;
  ios <- or_nothing
           (iosDevices <- client (GetDevices IosClient) ios_getDevices ;;
            ret (List.map of_sim iosDevices)) ;;
  ret (android ++ ios)%list.

(** [getDevices(platform)]: [!platform] holds for [undefined] and for
    the empty string. *)
Definition getDevices (platform : option string) : DM (list Device) :=
  all <- getAllDevices ;;
  if truthy_opt platform
  then ret (filter
              (fun d => String.eqb (dev_platform d)
                          (or_else platform EmptyString)) all)
  else ret all.

(** [d.platform === platform && d.state === "device"
     || d.state === "booted"] *)
Definition fallback_match (platform : string) (d : Device) : bool :=
  (String.eqb (dev_platform d) platform && String.eqb (dev_state d) "device")
  || String.eqb (dev_state d) "booted".

Definition set_active (d : Device) : DM unit :=
  fun m => (Ok tt, mkManager (Some d) (world m), []).

Definition client_of (platform : string) : Client :=
  if String.eqb platform "android" then AndroidClient else IosClient.

Definition setDevice (deviceId : string) (platform : option string)
    : DM Device :=
  devices <- getAllDevices ;;
  let by_id := find (fun d => String.eqb (dev_id d) deviceId) devices in
  let device :=
    match by_id with
    | Some d => Some d
    | None =>
        if truthy_opt platform
        then find (fallback_match (or_else platform EmptyString)) devices
        else None
    end in
  match device with
  | None => throw_error ("Device not found: " ++ deviceId)
  | Some d =>
      set_active d ;;
      client (SetDevice (client_of (dev_platform d)) (dev_id d))
        (client_setDevice (client_of (dev_platform d)) (dev_id d)) ;;
      ret d
  end.

(** [this.activeDevice?.platform] *)
Definition getCurrentPlatform : DM (option string) :=
  fun m => (Ok (option_map dev_platform (activeDevice m)), m, []).

(** [d.state === "device" || d.state === "booted"] *)
Definition usable (d : Device) : bool :=
  String.eqb (dev_state d) "device" || String.eqb (dev_state d) "booted".

Definition getClient (platform : option string) : DM Client :=
  active <- getCurrentPlatform ;;
  let targetPlatform :=
    match platform with Some p => Some p | None => active end in
  if truthy_opt targetPlatform
  then ret (client_of (or_else targetPlatform EmptyString))
  else
    devices <- getAllDevices ;;
    match find usable devices with
    | Some booted =>
        setDevice (dev_id booted) None ;;
        ret (client_of (dev_platform booted))
    | None =>
        throw_error "No active device. Use set_device or list_devices first."
    end.

Definition tap (x y : Z) (platform : option string) : DM unit :=
  c <- getClient platform ;;
  client (Tap c x y) (client_tap c x y).

(** [longPress(x, y, durationMs = 1000, platform)] *)
Definition longPress (x y : Z) (durationMs : option Z)
    (platform : option string) : DM unit :=
  c <- getClient platform ;;
  match c with
  | AndroidClient =>
      client (LongPress x y (or_else durationMs 1000))
        (adb_longPress x y (or_else durationMs 1000))
  | IosClient => client (Tap IosClient x y) (client_tap IosClient x y)
  end.

End Manager.

End DeviceManager.

(* ------------------------------------------------------------------ *)
(** * A scripted backend, to run the tools on concrete inputs *)
(* ------------------------------------------------------------------ *)

Module Sim.

(** The backend answers from scripts: each call takes the next outcome
    of its script and succeeds once the script is used up. Every call
    that reaches it takes 10 ms. *)
Record Backend : Type := mkBackend {
  clock : Z;
  active : option string;
  taps : list (Res unit);
  hierarchies : list (Res string);
  shots : list (Res Buffer);
  tools : list (Res string);
}.

Definition tick (b : Backend) (ms : Z) : Backend :=
  mkBackend (clock b + ms) (active b) (taps b) (hierarchies b) (shots b)
    (tools b).

Definition next_tap (b : Backend) : Res unit * Backend :=
  match taps b with
  | [] => (Ok tt, tick b 10)
  | r :: rest =>
      (r, mkBackend (clock b + 10) (active b) rest (hierarchies b)
            (shots b) (tools b))
  end.

Definition next_hierarchy (b : Backend) : Res string * Backend :=
  match hierarchies b with
  | [] => (Ok EmptyString, tick b 10)
  | r :: rest =>
      (r, mkBackend (clock b + 10) (active b) (taps b) rest (shots b)
            (tools b))
  end.

Definition next_shot (b : Backend) : Res Buffer * Backend :=
  match shots b with
  | [] => (Ok [], tick b 10)
  | r :: rest =>
      (r, mkBackend (clock b + 10) (active b) (taps b) (hierarchies b)
            rest (tools b))
  end.

Definition next_tool (b : Backend) : Res string * Backend :=
  match tools b with
  | [] => (Ok "done", tick b 10)
  | r :: rest =>
      (r, mkBackend (clock b + 10) (active b) (taps b) (hierarchies b)
            (shots b) rest)
  end.

(** A hierarchy dump is the text of its one element; the empty dump has
    no element. *)
Definition element_of (s : string) : UiElement :=
  mkUiElement 0 EmptyString "View" EmptyString s EmptyString
    false false true true true false false false false false
    (mkBounds 0 0 10 10) 5 5 10 10.

Definition parse (dump : string) : Res (list UiElement) :=
  Ok (if JsString.truthy dump then [element_of dump] else []).

Definition by_text (els : list UiElement) (t : string) : list UiElement :=
  filter (fun e => JsString.includes t (text e)) els.

(** Two captures differ by the first byte of the later one, in percent;
    the region is known when its second byte is not 0. *)
Definition compare (prev next : Buffer) (threshold : Z) : Res ScreenDiff :=
  Ok (mkScreenDiff (inject_Z (nth 0 next 0))
        (if nth 1 next 0 =? 0 then None else Some (mkRegion 1 2 3 4))).

Definition env : Env := {|
  Device := Backend;
  getCurrentPlatform := active;
  now := clock;
  elapse := fun ms b => tick b ms;
  dm_getUiHierarchyAsync := fun _ => next_hierarchy;
  dm_getUiHierarchy := fun _ => next_hierarchy;
  dm_getScreenshotBufferAsync := fun _ => next_shot;
  dm_tap := fun _ _ _ _ => next_tap;
  ios_findElement := fun _ _ => next_tool;
  ios_tapElement := fun _ => next_tap;
  parseUiHierarchy := parse;
  desktopHierarchyToUiElements := parse;
  findElements := fun els c =>
    Ok (by_text els (or_else (crit_text c) EmptyString));
  findByText := fun els t => Ok (by_text els t);
  findByResourceId := fun els _ => Ok els;
  diffUiElements := fun b a =>
    Ok (mkUiDiff [] [] (Z.of_nat (List.length b)) (Z.of_nat (List.length a))
          false);
  suggestNextActions := fun _ => Ok [];
  parseIosTree := parse;
  compareScreenshots := compare;
  cropRegion := fun buf _ _ => Ok (firstn 1 buf);
  compressScreenshot := fun buf _ => Ok (mkImage "jpeg-bytes" "image/jpeg");
  buffer_to_base64 := fun _ => "base64";
  number_to_string := fun q => JsString.of_Z (Qnum q);
  JSON_stringify := fun _ => "{}";
|}.

(** A tool whose outcomes are scripted, as a handler that throws or
    returns a text. *)
Definition scripted_handler : @Handler env := fun _ _ _ s =>
  match next_tool (device s) with
  | (Ok t, b) =>
      (Ok (text_response t),
       @mkState env b (cachedElementsMap s) (lastScreenshotMap s), [])
  | (Fail f, b) =>
      (Fail f, @mkState env b (cachedElementsMap s) (lastScreenshotMap s),
       [])
  end.

Definition ok_handler : @Handler env := fun _ _ _ =>
  ret (text_response "ok").

Definition failing_handler : @Handler env := fun _ _ _ =>
  throw_error "boom".

Definition def (name : string) (h : @Handler env) : @ToolDefinition env :=
  mkToolDefinition (mkTool name EmptyString JNull) h.

(** The registry of [index.ts], with the four tools embedded above and
    scripted stand-ins for three more. *)
Definition registry : @Registry env :=
  registerTools
    [def "tap" tap_handler;
     def "swipe" scripted_handler;
     def "find_and_tap" scripted_handler;
     def "screenshot" screenshot_handler;
     def "ok_tool" ok_handler;
     def "failing_tool" failing_handler;
     def "batch_commands" batch_commands_handler;
     def "run_flow" run_flow_handler]
    empty_registry.

Definition backend0 : Backend :=
  mkBackend 1000 (Some "android") [] [] [] [].

Definition state_of (b : Backend) : @State env :=
  @mkState env b JsMap.empty JsMap.empty.

Definition state0 : @State env := state_of backend0.

Definition not_found : Res string :=
  Throw (mkError PlainError "Element not found").

End Sim.

(* ------------------------------------------------------------------ *)
(** * Inputs for runs on the scripted backend *)
(* ------------------------------------------------------------------ *)

Module Runs.

Import Sim.

(** The context [index.ts] wires: [ctx.handleTool] is the dispatcher. *)
Definition ctx : @ToolContext env := mkToolContext (handleTool registry).

Definition android (taps : list (Res unit)) (hierarchies : list (Res string))
    (tools : list (Res string)) : @State env :=
  state_of (mkBackend 0 (Some "android") taps hierarchies [] tools).

Definition lines (l : list string) : Res Response :=
  Ok (text_response (JsString.join JsString.newline l)).

Definition tap_1_1 : JValue := JObj [("x", JNum 1); ("y", JNum 1)].

Definition flow_of (steps : list JValue) : JsObject :=
  [("steps", JArr steps)].

(** One tap, to be retried on error, twice at most. *)
Definition tap_with_retry : JsObject :=
  flow_of [JObj [("action", JStr "tap"); ("args", tap_1_1);
                 ("on_error", JStr "retry");
                 ("repeat", JObj [("times", JNum 2)])]].

(** A tap repeated until "Done" shows, errors skipped; then a tap. *)
Definition tap_until_done_then_tap : JsObject :=
  flow_of [JObj [("action", JStr "tap"); ("args", tap_1_1);
                 ("on_error", JStr "skip");
                 ("repeat", JObj [("until_found", JStr "Done")])];
           JObj [("action", JStr "tap"); ("args", tap_1_1)]].

Definition device_not_found : JsError :=
  mkError DeviceNotFoundError "Device not found".

Definition device_offline : JsError :=
  mkError DeviceOfflineError "device offline".

Definition tap_dispatch : CallSite * string * JsObject * Z :=
  (FlowStepAttempt, "tap",
   [("x", JNum 1); ("y", JNum 1); ("platform", JStr "android")], 1).

(** find_and_tap ten times, scrolling down when the element is not
    found. *)
Definition ten_times_with_scroll : JsObject :=
  flow_of [JObj [("action", JStr "find_and_tap");
                 ("if_not_found", JStr "scroll_down");
                 ("repeat", JObj [("times", JNum 10)])]].

Definition named (name : string) (d : CallSite * string * JsObject * Z)
    : bool :=
  String.eqb (snd (fst (fst d))) name.

Definition find_with_scroll : JsObject :=
  flow_of [JObj [("action", JStr "find_and_tap");
                 ("if_not_found", JStr "scroll_down")]].

(** A flow that tries to nest a flow. *)
Definition nested_flow : JsObject :=
  flow_of [JObj [("action", JStr "tap"); ("args", tap_1_1)];
           JObj [("action", JStr "run_flow")]].

(** A flow on iOS whose one step asks for Android. *)
Definition mixed_flow : JsObject :=
  [("platform", JStr "ios");
   ("steps",
    JArr [JObj [("action", JStr "tap");
                ("args", JObj [("x", JNum 1); ("y", JNum 1);
                               ("platform", JStr "android")])]])].

Definition mixed_step : FlowStep :=
  mkFlowStep "tap"
    (Some [("x", JNum 1); ("y", JNum 1); ("platform", JStr "android")])
    None None None None.

Definition three_commands (stop : list (string * JValue)) : JsObject :=
  (("commands",
    JArr [JObj [("name", JStr "ok_tool")];
          JObj [("name", JStr "failing_tool")];
          JObj [("name", JStr "ok_tool")]]) :: stop).

(** The last screenshot is in the cache; the next one differs by 3 %. *)
Definition with_previous_capture : @State env :=
  @mkState env (mkBackend 0 (Some "android") [] [] [Ok [3; 1]] []) []
    [("android", [9; 9])].

Definition plain_tap : FlowStep :=
  mkFlowStep "tap" (Some [("x", JNum 1); ("y", JNum 1)]) None None None None.

Definition no_next : option FlowStepResult -> @M env LoopExit :=
  fun l => ret (LoopEnd l).

Definition find_or_skip : FlowStep :=
  mkFlowStep "find_and_tap" None (Some "skip") None None None.

(** The steps of [ten_times_with_scroll] and of [find_with_scroll], as
    run_flow reads them. *)
Definition ten_times_step : FlowStep :=
  mkFlowStep "find_and_tap" None (Some "scroll_down")
    (Some (mkRepeatSpec (Some 10) None None)) None None.

Definition scroll_step : FlowStep :=
  mkFlowStep "find_and_tap" None (Some "scroll_down") None None None.

Definition swipe_failed : JsError := mkError PlainError "swipe failed".

Definition element_not_found : JsError :=
  mkError PlainError "Element not found".

End Runs.

(* ------------------------------------------------------------------ *)
(** * More inputs: a matcher of descriptions, an iOS tree, two clients *)
(* ------------------------------------------------------------------ *)

Module MoreRuns.

Import Sim.
Import Runs.

(** An element is shown by its text, and the best match of a
    description is the first element whose text includes it, at 80. *)
Definition parser : UiParser := {|
  formatElement := fun e => Ok (text e);
  findBestMatch := fun els description =>
    Ok (match by_text els description with
        | [] => None
        | e :: _ => Some (mkBestMatch e (80 # 1) "text match")
        end);
|}.

(** Gestures take the next outcome of the script of taps. *)
Definition gestures : @Gestures env :=
  @mkGestures env
    (fun _ _ => next_tap) (fun _ _ _ _ _ _ => next_tap)
    (fun _ _ _ => next_tap) (fun _ _ _ => next_tap).

(** A tap on the text "Submit" with a fallback, then a tap at (1, 1). *)
Definition submit_then_tap (if_not_found : string) : JsObject :=
  flow_of [JObj [("action", JStr "tap");
                 ("args", JObj [("text", JStr "Submit")]);
                 ("if_not_found", JStr if_not_found)];
           JObj [("action", JStr "tap"); ("args", tap_1_1)]].

(** A screen that shows "Login" and nothing else. *)
Definition login_screen : @State env := android [] [Ok "Login"] [].

(** The step of [tap_with_retry], as run_flow reads it. *)
Definition retried_tap : FlowStep :=
  mkFlowStep "tap" (Some [("x", JNum 1); ("y", JNum 1)]) None
    (Some (mkRepeatSpec (Some 2) None None)) (Some "retry") None.

(** A tap at (1, 1), to be skipped when it is not found. *)
Definition tap_or_skip : FlowStep :=
  mkFlowStep "tap" (Some [("x", JNum 1); ("y", JNum 1)]) (Some "skip")
    None None None.

(** The registry of [Sim], after a second registration of [tap] and an
    alias. *)
Definition registry_with_alias : @Registry env :=
  registerAliases [("press", "tap")]
    (registerTools [def "tap" ok_handler] registry).

Definition leaf (type label : string) (x y w h : Z) : IosNode :=
  mkIosNode (Some (mkIosRect (Some x) (Some y) (Some w) (Some h))) None
    (Some type) (Some label) None None None None [].

(** A window with a button, a group of no size that holds a text, and a
    node without a rect. *)
Definition window : IosNode :=
  mkIosNode (Some (mkIosRect (Some 0) (Some 0) (Some 100) (Some 200)))
    None (Some "Window") None None None None None
    [leaf "Button" "OK" 10 10 40 20;
     mkIosNode (Some (mkIosRect (Some 0) (Some 50) (Some 0) (Some 0)))
       None (Some "Group") None None None None None
       [leaf "StaticText" "Hello" 10 60 80 15];
     mkIosNode None None (Some "Other") None None None None None []].

Definition ios_label_tap : JsObject :=
  [("label", JStr "OK"); ("platform", JStr "ios")].

Definition shot_of_android : JsObject :=
  [("platform", JStr "android"); ("diff", JBool true)].

Definition find_login : JsObject := [("description", JStr "Login")].

(** The two clients answer from what the bench holds: the two listings
    stay, the other calls take the next answer and succeed once the
    answers are used up. *)
Record Bench : Type := mkBench {
  adb_listing : Res (list DeviceManager.AdbDevice);
  sim_listing : Res (list DeviceManager.SimDevice);
  answers : list (Res unit);
}.

Definition next_answer (w : Bench) : Res unit * Bench :=
  match answers w with
  | [] => (Ok tt, w)
  | r :: rest => (r, mkBench (adb_listing w) (sim_listing w) rest)
  end.

Definition clients : DeviceManager.Clients := {|
  DeviceManager.World := Bench;
  DeviceManager.adb_getDevices := fun w => (adb_listing w, w);
  DeviceManager.ios_getDevices := fun w => (sim_listing w, w);
  DeviceManager.client_setDevice := fun _ _ => next_answer;
  DeviceManager.client_tap := fun _ _ _ => next_answer;
  DeviceManager.adb_longPress := fun _ _ _ => next_answer;
|}.

Definition pixel : DeviceManager.AdbDevice :=
  DeviceManager.mkAdbDevice "emulator-5554" (Some "Pixel") "device".

Definition iphone : DeviceManager.SimDevice :=
  DeviceManager.mkSimDevice "A1" "iPhone 15" "booted" true.

(** No adb on the machine, one simulator booted, no active device. *)
Definition no_adb : @DeviceManager.Manager clients :=
  @DeviceManager.mkManager clients None
    (mkBench (Throw (mkError PlainError "adb: not found")) (Ok [iphone]) []).

(** One device of each platform. *)
Definition both : @DeviceManager.Manager clients :=
  @DeviceManager.mkManager clients None
    (mkBench (Ok [pixel]) (Ok [iphone]) []).

End MoreRuns.

(* ------------------------------------------------------------------ *)
(** * The vocabulary of the statements *)
(* ------------------------------------------------------------------ *)

Section Vocabulary.

Context {E : Env}.

(** Every entry of [toolMap] sits under the name of its tool:
    [registerTools] is the only writer and uses [def.tool.name]. *)
Definition keyed_by_name (reg : Registry) : Prop :=
  Forall (fun entry => fst entry = tool_name (tool (snd entry)))
    (toolMap reg).

Definition tool_names (reg : Registry) : list string :=
  List.map tool_name (getTools reg).

Definition RecursionLimitExceeded : JsError :=
  mkError PlainError recursion_message.

Definition result_of {A} (o : Res A * State * Trace) : Res A :=
  fst (fst o).

Definition final_state {A} (o : Res A * State * Trace) : State :=
  snd (fst o).

Definition trace_of {A} (o : Res A * State * Trace) : Trace := snd o.

(** Every event a computation leaves satisfies [Q], from any state. *)
Definition emits_only {A} (Q : Event -> Prop) (m : M A) : Prop :=
  forall s, Forall Q (trace_of (m s)).

(** [{ direction, platform: currentPlatform }] *)
Definition swipe_args (cur : option string) (direction : string)
    : JsObject :=
  [("direction", JStr direction); ("platform", platform_value cur)].

(** What an event of a flow may be, for a flow running at [depth] on
    the platform [cur] with the steps [steps]: a dispatch of one of the
    steps with its arguments and [platform] set to [cur], the swipe of a
    scroll fallback on the same platform, a capture for a repeat
    condition, or the pause of 300 ms. *)
Definition flow_event (depth : Z) (cur : option string)
    (steps : list FlowStep) (ev : Event) : Prop :=
  match ev with
  | EvCall BatchCommand _ _ _ _ => False
  | EvCall FlowFallbackSwipe name a d _ =>
      d = depth + 1 /\ name = "swipe"
      /\ (a = swipe_args cur "up" \/ a = swipe_args cur "down")
      /\ Obj.get a "platform" = platform_value cur
  | EvCall _ name a d _ =>
      d = depth + 1
      /\ (exists st, In st steps /\ name = step_action st
                     /\ a = Obj.set (or_else (step_args st) []) "platform"
                              (platform_value cur))
      /\ Obj.get a "platform" = platform_value cur
  | EvInvoke _ _ _ => False
  | EvAdapter (OpGetUiHierarchyAsync _) => True
  | EvAdapter (OpGetUiHierarchy _) => True
  | EvAdapter _ => False
  | EvSleep ms => ms = 300
  end.

(** [platform ?? ctx.deviceManager.getCurrentPlatform()] *)
Definition resolved_platform (fa : FlowArgs) (s : State) : option string :=
  match flow_platform fa with
  | Some p => Some p
  | None => getCurrentPlatform (device s)
  end.

Definition declared_steps (fa : FlowArgs) : list FlowStep :=
  or_else (flow_steps_arg fa) [].

(** The calls a trace made through [ctx.handleTool], in order. *)
Fixpoint dispatches (tr : Trace)
    : list (CallSite * string * JsObject * Z) :=
  match tr with
  | [] => []
  | EvCall site name args depth _ :: rest =>
      (site, name, args, depth) :: dispatches rest
  | _ :: rest => dispatches rest
  end.

Definition batch_ok (cmd : Command) (result : Response) : BatchResult :=
  mkBatchResult (cmd_name cmd) true (result_text result).

Definition batch_error (cmd : Command) (error : JsError) : BatchResult :=
  mkBatchResult (cmd_name cmd) false (err_message error).

Definition batch_call (depth : Z) (cmd : Command) (inner : Trace) : Event :=
  EvCall BatchCommand (cmd_name cmd) (or_else (cmd_arguments cmd) [])
    (depth + 1) inner.

Definition signature_of (depth : Z) (cmd : Command)
    : CallSite * string * JsObject * Z :=
  (BatchCommand, cmd_name cmd, or_else (cmd_arguments cmd) [], depth + 1).

(** The entries of a batch are those of a prefix of its command list,
    in the order of the list, with one call to the dispatcher each and
    nothing else in the trace. *)
Definition executed_prefix (depth : Z) (commands : list Command)
    (entries : list BatchResult) (tr : Trace) : Prop :=
  List.map br_command entries
  = List.map cmd_name (firstn (List.length entries) commands)
  /\ dispatches tr
     = List.map (signature_of depth)
         (firstn (List.length entries) commands)
  /\ List.length tr = List.length entries
  /\ (List.length entries <= List.length commands)%nat.

(** With [stopOnError] the entries are successes up to the end of the
    list, or successes up to a first failure, which is the last entry;
    without it there is an entry for every command. *)
Definition halted_at_first_error (stopOnError : bool)
    (commands : list Command) (entries : list BatchResult) : Prop :=
  if stopOnError then
    (Forall (fun r => br_success r = true) entries
     /\ List.length entries = List.length commands)
    \/ (exists before failed,
          entries = (before ++ [failed])%list
          /\ Forall (fun r => br_success r = true) before
          /\ br_success failed = false)
  else List.length entries = List.length commands.

(** An optional number as it sits in an argument bag. *)
Definition number_value (n : option Z) : JValue :=
  match n with Some z => JNum z | None => JUndefined end.

(** The state once [ms] milliseconds have passed. *)
Definition after_delay (ms : Z) (s : State) : State :=
  mkState (elapse ms (device s)) (cachedElementsMap s)
    (lastScreenshotMap s).

(** The state once the backend has moved to [d]. *)
Definition with_device (d : Device) (s : State) : State :=
  mkState d (cachedElementsMap s) (lastScreenshotMap s).

(** The image of a response: compressed, or the bytes in base 64. *)
Definition encoded (compress : bool) (options : CompressOptions)
    (buf : Buffer) : Res Image :=
  if compress then compressScreenshot buf options
  else Ok (mkImage (buffer_to_base64 buf) "image/png").

(** A response that carries [txt] and the image, once the image could
    be made. *)
Definition image_response (txt : string) (image : Res Image)
    : Res Response :=
  match image with
  | Ok img => Ok (mkResponse (Some txt) (Some img))
  | Fail f => Fail f
  end.

Definition cropped_response (compress : bool) (options : CompressOptions)
    (pngBuffer : Buffer) (percent : string) (region : Region)
    : Res Response :=
  match cropRegion pngBuffer region 20 with
  | Ok cropped =>
      image_response (changed_region_text percent region)
        (encoded compress options cropped)
  | Fail f => Fail f
  end.

(** The state once [buf] is the last screenshot of [platform]. *)
Definition with_last_screenshot (platform : string) (buf : Buffer)
    (s : State) : State :=
  mkState (device s) (cachedElementsMap s)
    (JsMap.set (lastScreenshotMap s) platform buf).

(** [captureBuffer], or [waitForStableScreenshot(captureBuffer)] *)
Definition capture_phase (stableMode : bool) (platform : string)
    : M Buffer :=
  let captureBuffer :=
    adapter (OpGetScreenshotBufferAsync platform)
      (dm_getScreenshotBufferAsync platform) in
  if stableMode then waitForStableScreenshot captureBuffer
  else captureBuffer.

(** What came before, put in front of a run. *)
Definition prepend {A} (t : Trace) (o : Res A * State * Trace)
    : Res A * State * Trace :=
  let '(r, s, t') := o in (r, s, (t ++ t')%list).

(** Every call through the context returns or throws: none is cut off,
    none is given arguments outside its type. *)
Definition settles (ctx : ToolContext) : Prop :=
  forall name args depth s,
    match result_of (ctx_handleTool ctx name args depth s) with
    | Ok _ | Throw _ => True
    | Fail _ => False
    end.

(** The events of the three calls run_flow makes for a step. *)
Definition attempt_event (depth : Z) (cur : option string) (step : FlowStep)
    (inner : Trace) : Event :=
  EvCall FlowStepAttempt (step_action step) (stepArgs cur step)
    (depth + 1) inner.

Definition swipe_event (depth : Z) (cur : option string) (inf : string)
    (inner : Trace) : Event :=
  EvCall FlowFallbackSwipe "swipe"
    (swipe_args cur (if String.eqb inf "scroll_down" then "up" else "down"))
    (depth + 1) inner.

Definition retry_event (depth : Z) (cur : option string) (step : FlowStep)
    (inner : Trace) : Event :=
  EvCall FlowFallbackRetry (step_action step) (stepArgs cur step)
    (depth + 1) inner.

(** The flow is still within its time budget in state [s]. *)
Definition in_budget (flowStart maxDuration : Z) (s : State) : Prop :=
  now (device s) - flowStart <= maxDuration.

(** [lastStepResult] after a dispatch that returned: [s] is the state at
    the start of the iteration, [s1] the state when the call was back. *)
Definition succeeded (step : FlowStep) (i : Z) (res : Response)
    (s s1 : State) : FlowStepResult :=
  step_result step i true (JsString.slice0 200 (result_text res))
    (now (device s1) - now (device s)).

Definition is_scroll (inf : string) : Prop :=
  inf = "scroll_down" \/ inf = "scroll_up".

Definition site_eqb (a b : CallSite) : bool :=
  match a, b with
  | BatchCommand, BatchCommand
  | FlowStepAttempt, FlowStepAttempt
  | FlowFallbackSwipe, FlowFallbackSwipe
  | FlowFallbackRetry, FlowFallbackRetry => true
  | _, _ => false
  end.

(** 1 for a call made at [site], 0 for anything else. *)
Definition at_site (site : CallSite) (ev : Event) : nat :=
  match ev with
  | EvCall site' _ _ _ _ => if site_eqb site' site then 1 else 0
  | _ => 0
  end.

(** The number of calls a trace made at [site]. *)
Definition calls_at (site : CallSite) (tr : Trace) : nat :=
  list_sum (List.map (at_site site) tr).

(** From any state, the computation calls at most [n] times at [site]. *)
Definition calls_at_most {A} (site : CallSite) (n : nat) (m : M A)
    : Prop :=
  forall s, (calls_at site (trace_of (m s)) <= n)%nat.

End Vocabulary.

(* ------------------------------------------------------------------ *)
(** * More vocabulary: registries, replies, trees, clients *)
(* ------------------------------------------------------------------ *)

Section MoreVocabulary.

Context {E : Env}.

(** The registries [index.ts] can build: [registerTools] and
    [registerAliases] applied to the two empty maps, any number of
    times and in any order. *)
Inductive built : Registry -> Prop :=
| built_empty : built empty_registry
| built_tools defs reg : built reg -> built (registerTools defs reg)
| built_aliases aliases reg :
    built reg -> built (registerAliases aliases reg).

(** No definition of [defs] is called [name]. *)
Definition none_named (name : string) (defs : list ToolDefinition) : Prop :=
  Forall (fun d => tool_name (tool d) <> name) defs.

Definition UnknownTool (name : string) : JsError :=
  mkError PlainError ("Unknown tool: " ++ name).

(** The platform under which [getElementsForPlatform] caches what it
    fetched, if it fetches anything for [plat]. *)
Definition cache_of (plat : option string) : option string :=
  if android_or_unset plat then Some "android"
  else if String.eqb (or_else plat EmptyString) "ios" then Some "ios"
  else if String.eqb (or_else plat EmptyString) "desktop"
  then Some "desktop"
  else None.

(** The cached elements of [platform] in state [s]. *)
Definition cached (s : State) (platform : string) : list UiElement :=
  match JsMap.get (cachedElementsMap s) platform with
  | Some els => els
  | None => []
  end.

(** The computation does not throw, from any state. *)
Definition never_throws {A} (m : M A) : Prop :=
  forall s e, result_of (m s) <> Throw e.

(** Whatever the computation returns satisfies [P]. *)
Definition ensures {A} (P : A -> Prop) (m : M A) : Prop :=
  forall s a s' t, m s = (Ok a, s', t) -> P a.

(** The row of a report is the row of step number [i + 1], [step]. *)
Definition row_of (step : FlowStep) (i : Z) (r : FlowStepResult) : Prop :=
  fsr_step r = i + 1 /\ fsr_action r = step_action step
  /\ fsr_label r = step_label step.

(** What the loop over the iterations of a step hands back is a row of
    that step. *)
Definition exit_row (step : FlowStep) (i : Z) (exit : LoopExit) : Prop :=
  match exit with
  | FlowReturn r | LoopEnd (Some r) => row_of step i r
  | LoopEnd None => True
  end.

(** The numbers grow, starting above [lo]. *)
Fixpoint increasing_from (lo : Z) (l : list Z) : Prop :=
  match l with
  | [] => True
  | x :: rest => lo < x /\ increasing_from x rest
  end.

(** The rows of a report follow the steps [steps], which are numbered
    from [i + 1] on: their step numbers grow, and each row carries the
    action and the label of the step of its number. *)
Definition rows_follow (i : Z) (steps : list FlowStep)
    (rows : list FlowStepResult) : Prop :=
  increasing_from i (List.map fsr_step rows)
  /\ Forall
       (fun r =>
          exists st,
            nth_error steps (Z.to_nat (fsr_step r - i - 1)) = Some st
            /\ row_of st (fsr_step r - 1) r)
       rows.

(** The three answers of run_flow that come before any step. *)
Definition refusal (steps : list FlowStep) (response : Response) : Prop :=
  response = text_response "No steps provided"
  \/ response = text_response (too_many_steps_text (List.length steps))
  \/ exists bad,
       In bad steps /\ flow_allowed (step_action bad) = false
       /\ response = text_response (not_allowed_text (step_action bad)).

(** The entry of a command the depth guard refused. *)
Definition refused_by_guard (cmd : Command) : BatchResult :=
  mkBatchResult (cmd_name cmd) false recursion_message.

(** How many calls at [site] one step of a flow can make: none from
    batch_commands, ten attempts, one swipe and one retry. *)
Definition per_step (site : CallSite) : nat :=
  match site with
  | BatchCommand => 0
  | FlowStepAttempt => 10
  | FlowFallbackSwipe | FlowFallbackRetry => 1
  end.

(** Beyond the depth limit the context refuses every call, and does
    nothing else. *)
Definition guarded (ctx : ToolContext) : Prop :=
  forall name args depth s,
    depth > MAX_RECURSION_DEPTH ->
    ctx_handleTool ctx name args depth s
    = (Throw RecursionLimitExceeded, s, []).

(** Anything but a tap at coordinates. *)
Definition not_a_tap (ev : Event) : Prop :=
  match ev with
  | EvAdapter (OpTap _ _) => False
  | _ => True
  end.

(** The trace has a tap at coordinates. *)
Definition tapped (t : Trace) : Prop :=
  exists x y, In (EvAdapter (OpTap x y)) t.

(** The answer begins with "Tapped at (". *)
Definition says_tapped (r : Response) : bool :=
  String.prefix "Tapped at (" (or_else (resp_text r) EmptyString).

(** When the computation returns, its answer says "Tapped at (" exactly
    when its trace has a tap at coordinates. *)
Definition reports_taps (m : M Response) : Prop :=
  forall s,
    match result_of (m s) with
    | Ok r => tapped (trace_of (m s)) <-> says_tapped r = true
    | Fail _ => True
    end.

(** [platform ?? getCurrentPlatform()] as tap reads it from its
    arguments. *)
Definition requested_platform (args : JsObject) (s : State)
    : option string :=
  match Obj.get args "platform" with
  | JStr p => Some p
  | _ => getCurrentPlatform (device s)
  end.

(** [args[key]] is a non-empty string. *)
Definition given (args : JsObject) (key : string) : bool :=
  match Obj.get args key with
  | JStr t => JsString.truthy t
  | _ => false
  end.

(** The two calls of the iOS client that tap an element. *)
Definition ios_element_call (ev : Event) : Prop :=
  ev = EvAdapter OpIosFindElement \/ ev = EvAdapter OpIosTapElement.

(** The trace of [waitForStableScreenshot] after [k] re-captures. *)
Definition stable_trace (platform : string) (k : nat) : Trace :=
  EvAdapter (OpGetScreenshotBufferAsync platform)
  :: concat (repeat [EvSleep 300;
                     EvAdapter (OpGetScreenshotBufferAsync platform)] k).

(** The buffer is one the backend returned for the platform. *)
Definition captured (platform : string) (buf : Buffer) : Prop :=
  exists d, fst (dm_getScreenshotBufferAsync platform d) = Ok buf.

(** The arguments of screenshot are of the types the handler casts
    them to. *)
Definition screenshot_args_typed (args : JsObject) : Prop :=
  as_opt_string (Obj.get args "platform") <> None
  /\ as_opt_number (Obj.get args "diffThreshold") <> None
  /\ as_opt_number (Obj.get args "maxWidth") <> None
  /\ as_opt_number (Obj.get args "maxHeight") <> None
  /\ as_opt_number (Obj.get args "quality") <> None
  /\ as_opt_number (Obj.get args "monitorIndex") <> None.

(** [platform ?? getCurrentPlatform() ?? "android"] as screenshot reads
    it from its arguments. *)
Definition screenshot_platform (args : JsObject) (s : State) : string :=
  match Obj.get args "platform" with
  | JStr p => p
  | _ => or_else (getCurrentPlatform (device s)) "android"
  end.

(** The computation leaves the state as it found it. *)
Definition keeps_state {A} (m : M A) : Prop :=
  forall s, final_state (m s) = s.

End MoreVocabulary.

(** The nodes of a tree in document order: a node, then the nodes of its
    children from the first child to the last. *)
Fixpoint document_order (tree : IosNode) : list IosNode :=
  tree :: flat_map document_order (node_children tree).

(** The four numbers of the rect of a node, 0 for a missing one. *)
Definition rect_or_zero (tree : IosNode) : option (Z * Z * Z * Z) :=
  match node_rect tree with
  | Some rect =>
      Some (match rect_x rect with Some n => n | None => 0 end,
            match rect_y rect with Some n => n | None => 0 end,
            match rect_width rect with Some n => n | None => 0 end,
            match rect_height rect with Some n => n | None => 0 end)
  | None => None
  end.

(** The node has a rect of positive width and height. *)
Definition on_screen (tree : IosNode) : bool :=
  match rect_or_zero tree with
  | Some (_, _, w, h) => (w >? 0) && (h >? 0)
  | None => false
  end.

(** The element of a node that is on screen, under the index [i]. *)
Definition element_of_node (i : Z) (tree : IosNode) : UiElement :=
  match rect_or_zero tree with
  | Some (x, y, w, h) => ios_element tree x y w h i
  | None => ios_element tree 0 0 0 0 i
  end.

(** The elements of [nodes], numbered from [k] on. *)
Fixpoint numbered_from (k : Z) (nodes : list IosNode) : list UiElement :=
  match nodes with
  | [] => []
  | node :: rest => element_of_node k node :: numbered_from (k + 1) rest
  end.

(** The box of an element has the size the element says, and its
    centre lies inside it. *)
Definition well_shaped (e : UiElement) : Prop :=
  0 < width e /\ 0 < height e
  /\ x2 (bounds e) = x1 (bounds e) + width e
  /\ y2 (bounds e) = y1 (bounds e) + height e
  /\ x1 (bounds e) <= centerX e < x2 (bounds e)
  /\ y1 (bounds e) <= centerY e < y2 (bounds e).


(** What an assertion answered: passed, failed, or neither. *)
Definition verdict (r : Response) : option bool :=
  let answer := match resp_text r with Some t => t | None => EmptyString end in
  if String.prefix "PASS" answer then Some true
  else if String.prefix "FAIL" answer then Some false
  else None.

(** [(args.minConfidence as number) ?? 30] *)
Definition min_confidence (args : JsObject) : Z :=
  match Obj.get args "minConfidence" with
  | JNum n => n
  | _ => 30
  end.

(** The calls to the backend in a trace, and the pauses. *)
Definition backend_calls (t : Trace) : nat :=
  List.length
    (filter (fun ev => match ev with EvAdapter _ => true | _ => false end)
       t).

Definition pauses (t : Trace) : nat :=
  List.length
    (filter (fun ev => match ev with EvSleep _ => true | _ => false end) t).

(** The number of polls that fit in [remaining] milliseconds when each
    is followed by a pause of [interval]: the quotient, rounded up. *)
Definition polls_within (remaining interval : Z) : nat :=
  Z.to_nat ((remaining + interval - 1) / interval).

(** ** The device manager *)

Section ManagerVocabulary.

Context {C : DeviceManager.Clients}.

(** What a method of the manager returned, the manager it left, and
    the calls it made on the clients. *)
Definition dm_result {A}
    (out : Res A * DeviceManager.Manager * list DeviceManager.ClientCall)
    : Res A :=
  fst (fst out).

Definition dm_manager {A}
    (out : Res A * DeviceManager.Manager * list DeviceManager.ClientCall)
    : DeviceManager.Manager :=
  snd (fst out).

Definition dm_calls {A}
    (out : Res A * DeviceManager.Manager * list DeviceManager.ClientCall)
    : list DeviceManager.ClientCall :=
  snd out.

(** A method of a client returned or threw. *)
Definition returns_or_throws {A} (r : Res A) : Prop :=
  match r with
  | Ok _ | Throw _ => True
  | _ => False
  end.

(** The devices a listing contributes: none when it threw. *)
Definition listed {A} (f : A -> DeviceManager.Device) (r : Res (list A))
    : list DeviceManager.Device :=
  match r with
  | Ok l => List.map f l
  | _ => []
  end.

Definition is_listing (call : DeviceManager.ClientCall) : bool :=
  match call with DeviceManager.GetDevices _ => true | _ => false end.

Definition is_tap (call : DeviceManager.ClientCall) : bool :=
  match call with DeviceManager.Tap _ _ _ => true | _ => false end.

(** [platform ?? this.activeDevice?.platform] *)
Definition target_platform (platform : option string)
    (m : DeviceManager.Manager) : option string :=
  match platform with
  | Some p => Some p
  | None => option_map DeviceManager.dev_platform
              (DeviceManager.activeDevice m)
  end.

(** The device [setDevice] settles on: the one with the id, else,
    with a platform given, the first that matches the fallback. *)
Definition chosen_device (deviceId : string) (platform : option string)
    (devices : list DeviceManager.Device) : option DeviceManager.Device :=
  match find (fun d => String.eqb (DeviceManager.dev_id d) deviceId)
          devices with
  | Some d => Some d
  | None =>
      if truthy_opt platform
      then find (DeviceManager.fallback_match
                   (or_else platform EmptyString)) devices
      else None
  end.

End ManagerVocabulary.

(** ** Runs that stay within the model *)

Section SettledRuns.

Context {E : Env}.

(** From a state of [Inv] the computation returns or throws, and the
    state it leaves is again one of [Inv]. *)
Definition settles_from (Inv : State -> Prop) {A} (m : M A) : Prop :=
  forall s,
    Inv s ->
    returns_or_throws (result_of (m s)) /\ Inv (final_state (m s)).

(** What a flow on the platform [cur] with the steps [steps] sends
    through [ctx.handleTool]: a step with its arguments, or the swipe of
    a scroll fallback. *)
Definition flow_call (cur : option string) (steps : list FlowStep)
    (name : string) (a : JsObject) : Prop :=
  (exists st, In st steps /\ name = step_action st /\ a = stepArgs cur st)
  \/ (name = "swipe"
      /\ (a = swipe_args cur "up" \/ a = swipe_args cur "down")).

(** All that a flow calls returns or throws: the pauses, the calls it
    sends through [ctx.handleTool], the capture and the search of a
    repeat condition. *)
Definition flow_settles (Inv : State -> Prop) (ctx : ToolContext)
    (depth : Z) (cur : option string) (steps : list FlowStep) : Prop :=
  (forall ms, settles_from Inv (sleep ms))
  /\ (forall name a,
        flow_call cur steps name a ->
        settles_from Inv (ctx_handleTool ctx name a (depth + 1)))
  /\ settles_from Inv (getElementsForPlatform cur)
  /\ (forall els c, returns_or_throws (findElements els c)).

End SettledRuns.

(** The scripts of the scripted backend hold no outcome but a return or
    a throw. *)
Definition scripts_settle (s : @State Sim.env) : Prop :=
  Forall returns_or_throws (Sim.taps (device s))
  /\ Forall returns_or_throws (Sim.hierarchies (device s))
  /\ Forall returns_or_throws (Sim.tools (device s)).

(* ------------------------------------------------------------------ *)
(** * Facts about strings *)
(* ------------------------------------------------------------------ *)

Module StringFacts.

Lemma prefix_refl (r : string) : String.prefix r r = true.
Proof.
  induction r as [|c r IH]; simpl; auto.
  destruct (ascii_dec c c); [assumption | congruence].
Qed.

Lemma includes_refl (r : string) : JsString.includes r r = true.
Proof.
  destruct r as [|c r]; [reflexivity|].
  cbn [JsString.includes]. now rewrite prefix_refl.
Qed.

(** What occurs in a string occurs in it after any prefix. *)
Lemma includes_skip (r p s : string) :
  JsString.includes r s = true -> JsString.includes r (p ++ s) = true.
Proof.
  intros H. induction p as [|c p IH]; [assumption|].
  cbn [append JsString.includes]. rewrite IH.
  now destruct (String.prefix r (String c (p ++ s))).
Qed.

End StringFacts.

(* ------------------------------------------------------------------ *)
(** * Facts about maps and objects *)
(* ------------------------------------------------------------------ *)

Module MapFacts.

Lemma get_set_same {V} (m : JsMap.t V) (k : string) (v : V) :
  JsMap.get (JsMap.set m k v) k = Some v.
Proof.
  induction m as [|[k' v'] m IH]; simpl.
  - now rewrite String.eqb_refl.
  - destruct (String.eqb k' k) eqn:Hk; simpl; rewrite Hk; auto.
Qed.

Lemma get_set_other {V} (m : JsMap.t V) (k k0 : string) (v : V) :
  k <> k0 -> JsMap.get (JsMap.set m k v) k0 = JsMap.get m k0.
Proof.
  intros Hne. induction m as [|[k' v'] m IH]; simpl.
  - destruct (String.eqb_spec k k0); congruence.
  - destruct (String.eqb_spec k' k) as [->|Hk]; simpl.
    + destruct (String.eqb_spec k k0); congruence.
    + destruct (String.eqb_spec k' k0); auto.
Qed.

Lemma keys_set_in {V} (m : JsMap.t V) (k k0 : string) (v : V) :
  In k0 (JsMap.keys (JsMap.set m k v)) <-> k0 = k \/ In k0 (JsMap.keys m).
Proof.
  unfold JsMap.keys. induction m as [|[k' v'] m IH]; simpl.
  - intuition.
  - destruct (String.eqb_spec k' k) as [->|Hk]; simpl; intuition.
Qed.

Lemma get_none_not_key {V} (m : JsMap.t V) (k : string) :
  JsMap.get m k = None <-> ~ In k (JsMap.keys m).
Proof.
  unfold JsMap.keys. induction m as [|[k' v'] m IH]; simpl.
  - intuition.
  - destruct (String.eqb_spec k' k) as [->|Hk].
    + split; [discriminate | intros H; exfalso; apply H; now left].
    + rewrite IH. intuition.
Qed.

Lemma get_some_key {V} (m : JsMap.t V) (k : string) (v : V) :
  JsMap.get m k = Some v -> In k (JsMap.keys m).
Proof.
  intros H. destruct (in_dec string_dec k (JsMap.keys m)) as [|Hn]; auto.
  apply get_none_not_key in Hn. congruence.
Qed.

(** Reading back a property that was just written. *)
Lemma obj_get_set_same (o : JsObject) (k : string) (v : JValue) :
  Obj.get (Obj.set o k v) k = v.
Proof.
  induction o as [|[k' v'] o IH]; simpl.
  - now rewrite String.eqb_refl.
  - destruct (String.eqb k' k) eqn:Hk; simpl; rewrite Hk; auto.
Qed.

Lemma obj_get_set_other (o : JsObject) (k k0 : string) (v : JValue) :
  k <> k0 -> Obj.get (Obj.set o k v) k0 = Obj.get o k0.
Proof.
  intros Hne. induction o as [|[k' v'] o IH]; simpl.
  - destruct (String.eqb_spec k k0); congruence.
  - destruct (String.eqb_spec k' k) as [->|Hk]; simpl.
    + destruct (String.eqb_spec k k0); congruence.
    + destruct (String.eqb_spec k' k0); auto.
Qed.

End MapFacts.

(* ------------------------------------------------------------------ *)
(** * The registry and its aliases *)
(* ------------------------------------------------------------------ *)

Section RegistryFacts.

Context {E : Env}.

Lemma set_keyed (m : JsMap.t ToolDefinition) (def : ToolDefinition) :
  Forall (fun entry => fst entry = tool_name (tool (snd entry))) m ->
  Forall (fun entry => fst entry = tool_name (tool (snd entry)))
    (JsMap.set m (tool_name (tool def)) def).
Proof.
  induction 1 as [|[k d] m Hk Hm IH]; simpl.
  - constructor; auto.
  - destruct (String.eqb_spec k (tool_name (tool def))) as [->|Hne];
      constructor; auto.
Qed.

Lemma registerTools_keyed (defs : list ToolDefinition) (reg : Registry) :
  keyed_by_name reg -> keyed_by_name (registerTools defs reg).
Proof.
  revert reg. unfold registerTools.
  induction defs as [|d defs IH]; intros reg Hreg; simpl; auto.
  apply IH. unfold keyed_by_name; simpl. now apply set_keyed.
Qed.

Lemma registerAliases_toolMap (aliases : list (string * string))
    (reg : Registry) :
  toolMap (registerAliases aliases reg) = toolMap reg.
Proof.
  revert reg. unfold registerAliases.
  induction aliases as [|a aliases IH]; intros reg; simpl; auto.
  now rewrite IH.
Qed.

Lemma registerAliases_keyed (aliases : list (string * string))
    (reg : Registry) :
  keyed_by_name reg -> keyed_by_name (registerAliases aliases reg).
Proof.
  unfold keyed_by_name. now rewrite registerAliases_toolMap.
Qed.

Lemma empty_registry_keyed : keyed_by_name empty_registry.
Proof. constructor. Qed.

Lemma tool_names_keys (reg : Registry) :
  keyed_by_name reg -> tool_names reg = JsMap.keys (toolMap reg).
Proof.
  unfold keyed_by_name, tool_names, getTools, JsMap.values, JsMap.keys.
  induction 1 as [|[k d] m Hk Hm IH]; simpl in *; auto.
  now rewrite IH, Hk.
Qed.

(** A name with a canonical definition never reaches the alias table. *)
Lemma getHandler_canonical_first (reg : Registry) (name : string)
    (def : ToolDefinition) :
  JsMap.get (toolMap reg) name = Some def ->
  getHandler reg name = Some (handler def).
Proof. unfold getHandler. now intros ->. Qed.

(** C7. After [registerAliases({"click": "tap"})] on a registry that
    defines "tap" and has no tool called "click": the alias resolves to
    the handler of "tap" (a name is looked up in the canonical
    definitions first, whatever the alias table holds, and only then in
    the alias table); [getTools] lists "tap" and does not list "click";
    and no call of [registerAliases] changes what [getTools] returns. *)
Theorem alias_resolves_and_stays_hidden (reg : Registry)
    (tap_def : ToolDefinition) :
  keyed_by_name reg ->
  JsMap.get (toolMap reg) "tap" = Some tap_def ->
  JsMap.get (toolMap reg) "click" = None ->
  let reg' := registerAliases [("click", "tap")] reg in
  getHandler reg' "click" = getHandler reg' "tap"
  /\ getHandler reg' "tap" = Some (handler tap_def)
  /\ In "tap" (tool_names reg')
  /\ ~ In "click" (tool_names reg')
  /\ (forall aliases name def,
        JsMap.get (toolMap reg) name = Some def ->
        getHandler (registerAliases aliases reg) name = Some (handler def))
  /\ (forall aliases,
        getTools (registerAliases aliases reg) = getTools reg).
Proof.
  intros Hkeyed Htap Hclick reg'.
  assert (Htm : toolMap reg' = toolMap reg)
    by apply registerAliases_toolMap.
  assert (Hnames : tool_names reg' = JsMap.keys (toolMap reg)).
  { rewrite <- Htm. apply tool_names_keys.
    now apply registerAliases_keyed. }
  assert (Htap' : getHandler reg' "tap" = Some (handler tap_def)).
  { apply getHandler_canonical_first. now rewrite Htm. }
  repeat split.
  - rewrite Htap'. unfold getHandler. rewrite Htm, Hclick.
    unfold reg', registerAliases; simpl.
    rewrite MapFacts.get_set_same. simpl. now rewrite Htap.
  - exact Htap'.
  - rewrite Hnames. eapply MapFacts.get_some_key; eauto.
  - rewrite Hnames. now apply MapFacts.get_none_not_key.
  - intros aliases name def Hdef. apply getHandler_canonical_first.
    now rewrite registerAliases_toolMap.
  - intros aliases. unfold getTools.
    now rewrite registerAliases_toolMap.
Qed.

End RegistryFacts.

(* ------------------------------------------------------------------ *)
(** * The depth guard of the dispatcher *)
(* ------------------------------------------------------------------ *)

Section Dispatcher.

Context {E : Env}.

(** Below the guard a registered tool is dispatched: its handler runs
    on the arguments and the depth of the call. *)
Lemma handleTool_invokes (reg : Registry) (name : string)
    (args : JsObject) (depth : Z) (h : Handler) (s : State) :
  depth <= MAX_RECURSION_DEPTH ->
  getHandler reg name = Some h ->
  exists ctx,
    handleTool reg name args depth s
    = (let '(r, s', t) := h args ctx depth s in
       (r, s', EvInvoke name args depth :: t)).
Proof.
  intros Hd Hh. unfold handleTool, fuel_for. simpl.
  destruct (Z.gtb_spec depth MAX_RECURSION_DEPTH); [lia|].
  rewrite Hh.
  exists (mkToolContext
            (handleTool_fuel
               (Z.to_nat (MAX_RECURSION_DEPTH + 1 - depth)) reg)).
  unfold bind, emit. simpl.
  destruct (h args _ depth s) as [[r s'] t]. reflexivity.
Qed.

(** C1, as the code has it. A call of [handleTool] with a depth
    strictly above [MAX_RECURSION_DEPTH] fails with the recursion-limit
    error, whatever the tool name and the arguments: no handler is
    invoked (the trace is empty) and the state is untouched. At any depth
    up to [MAX_RECURSION_DEPTH], that depth included, the handler of a
    registered tool is invoked. *)
Theorem handleTool_depth_guard (reg : Registry) (name : string)
    (args : JsObject) (depth : Z) (s : State) :
  (depth > MAX_RECURSION_DEPTH ->
   handleTool reg name args depth s = (Throw RecursionLimitExceeded, s, []))
  /\ (depth <= MAX_RECURSION_DEPTH ->
      forall h,
        getHandler reg name = Some h ->
        exists ctx,
          handleTool reg name args depth s
          = (let '(r, s', t) := h args ctx depth s in
             (r, s', EvInvoke name args depth :: t))).
Proof.
  split.
  - intros Hd. unfold handleTool, fuel_for. simpl.
    destruct (Z.gtb_spec depth MAX_RECURSION_DEPTH); [reflexivity | lia].
  - intros Hd h Hh. now apply handleTool_invokes.
Qed.

End Dispatcher.

(** C1 as stated does not hold. At depth 3, the maximum, the dispatcher
    looks "tap" up and runs its handler, which taps the screen and
    returns its text: a call at the maximum depth does not always fail. *)
Lemma handleTool_at_max_depth_runs_handler :
  (MAX_RECURSION_DEPTH = 3
   /\ exists s',
        handleTool Sim.registry "tap" [("x", JNum 1); ("y", JNum 1)]
          MAX_RECURSION_DEPTH Sim.state0
        = (Ok (text_response "Tapped at (1, 1)"), s',
           [EvInvoke "tap" [("x", JNum 1); ("y", JNum 1)] 3;
            EvAdapter (OpTap 1 1)]))
  /\ ~ (forall (E : Env) (reg : Registry) (name : string) (args : JsObject)
           (s : State),
          result_of (handleTool reg name args MAX_RECURSION_DEPTH s)
          = Throw RecursionLimitExceeded).
Proof.
  split; [split; [reflexivity | eexists; vm_compute; reflexivity]|].
  intros H.
  specialize (H Sim.env Sim.registry "tap" [("x", JNum 1); ("y", JNum 1)]
                Sim.state0).
  vm_compute in H. discriminate.
Qed.

Lemma handleTool_depth_guard_witness :
  4 > MAX_RECURSION_DEPTH
  /\ handleTool Sim.registry "tap" [("x", JNum 1); ("y", JNum 1)] 4
       Sim.state0
     = (Throw RecursionLimitExceeded, Sim.state0, []).
Proof.
  split; [reflexivity|].
  apply (proj1 (handleTool_depth_guard Sim.registry "tap"
                  [("x", JNum 1); ("y", JNum 1)] 4 Sim.state0)).
  reflexivity.
Defined.

Lemma alias_resolves_and_stays_hidden_witness :
  let reg := Sim.registry in
  let reg' := registerAliases [("click", "tap")] reg in
  getHandler reg' "click" = getHandler reg' "tap"
  /\ In "tap" (tool_names reg')
  /\ ~ In "click" (tool_names reg').
Proof.
  destruct (alias_resolves_and_stays_hidden Sim.registry
              (Sim.def "tap" tap_handler)) as (H1 & _ & H3 & H4 & _).
  - apply registerTools_keyed, empty_registry_keyed.
  - reflexivity.
  - reflexivity.
  - simpl. auto.
Defined.

(* ------------------------------------------------------------------ *)
(** * Reasoning about traces *)
(* ------------------------------------------------------------------ *)

Section TraceLogic.

Context {E : Env}.

Variable Q : Event -> Prop.

Lemma emits_only_ret {A} (a : A) : emits_only Q (ret a).
Proof. intros s. constructor. Qed.

Lemma emits_only_fail {A} (f : Failure) : emits_only Q (@fail E A f).
Proof. intros s. constructor. Qed.

Lemma emits_only_lift {A} (r : Res A) : emits_only Q (lift r).
Proof. intros s. constructor. Qed.

Lemma emits_only_typed {A} (o : option A) : emits_only Q (typed o).
Proof. destruct o; intros s; constructor. Qed.

Lemma emits_only_date_now : emits_only Q date_now.
Proof. intros s. constructor. Qed.

Lemma emits_only_current_platform : emits_only Q current_platform.
Proof. intros s. constructor. Qed.

Lemma emits_only_getCachedElements p : emits_only Q (getCachedElements p).
Proof. intros s. constructor. Qed.

Lemma emits_only_setCachedElements p els :
  emits_only Q (setCachedElements p els).
Proof. intros s. constructor. Qed.

Lemma emits_only_bind {A B} (m : M A) (k : A -> M B) :
  emits_only Q m -> (forall a, emits_only Q (k a)) ->
  emits_only Q (bind m k).
Proof.
  intros Hm Hk s. unfold bind, trace_of. specialize (Hm s).
  destruct (m s) as [[[a|f] s1] t1]; simpl in *; auto.
  specialize (Hk a s1). destruct (k a s1) as [[r s2] t2]; simpl in *.
  apply Forall_app; auto.
Qed.

Lemma emits_only_attempt {A} (m : M A) :
  emits_only Q m -> emits_only Q (attempt m).
Proof.
  intros Hm s. unfold attempt, trace_of. specialize (Hm s).
  destruct (m s) as [[[a|[e| |]] s1] t1]; simpl in *; auto.
Qed.

Lemma emits_only_try_catch {A} (m : M A) (h : JsError -> M A) :
  emits_only Q m -> (forall e, emits_only Q (h e)) ->
  emits_only Q (try_catch m h).
Proof.
  intros Hm Hh s. unfold try_catch, trace_of. specialize (Hm s).
  destruct (m s) as [[[a|[e| |]] s1] t1]; simpl in *; auto.
  specialize (Hh e s1). destruct (h e s1) as [[r s2] t2]; simpl in *.
  apply Forall_app; auto.
Qed.

Lemma emits_only_sleep ms : Q (EvSleep ms) -> emits_only Q (sleep ms).
Proof. intros H s. repeat constructor; auto. Qed.

Lemma emits_only_adapter {A} op (f : Device -> Res A * Device) :
  Q (EvAdapter op) -> emits_only Q (adapter op f).
Proof.
  intros H s. unfold adapter, trace_of.
  destruct (f (device s)); simpl. repeat constructor; auto.
Qed.

Lemma emits_only_call site ctx name args depth :
  (forall inner, Q (EvCall site name args depth inner)) ->
  emits_only Q (call site ctx name args depth).
Proof.
  intros H s. unfold call, trace_of.
  destruct (ctx_handleTool ctx name args depth s) as [[r s1] inner].
  simpl. repeat constructor; auto.
Qed.

Lemma emits_only_getElementsForPlatform plat :
  (forall p, Q (EvAdapter (OpGetUiHierarchyAsync p))) ->
  (forall p, Q (EvAdapter (OpGetUiHierarchy p))) ->
  emits_only Q (getElementsForPlatform plat).
Proof.
  intros H H'. unfold getElementsForPlatform.
  repeat match goal with
         | |- emits_only _ (if ?b then _ else _) => destruct b
         | |- emits_only _ (bind _ _) => apply emits_only_bind; [|intros]
         | |- _ => first [ apply emits_only_ret | apply emits_only_lift
                         | apply emits_only_adapter
                         | apply emits_only_setCachedElements ]
         end; auto.
Qed.

End TraceLogic.

(* ------------------------------------------------------------------ *)
(** * What run_flow sends to the dispatcher *)
(* ------------------------------------------------------------------ *)

Ltac emits_step :=
  match goal with
  | |- emits_only _ (bind _ _) => apply emits_only_bind; [|intros]
  | |- emits_only _ (ret _) => apply emits_only_ret
  | |- emits_only _ (lift _) => apply emits_only_lift
  | |- emits_only _ (typed _) => apply emits_only_typed
  | |- emits_only _ (fail _) => apply emits_only_fail
  | |- emits_only _ (throw_error _) => apply emits_only_fail
  | |- emits_only _ date_now => apply emits_only_date_now
  | |- emits_only _ current_platform => apply emits_only_current_platform
  | |- emits_only _ (attempt _) => apply emits_only_attempt
  | |- emits_only _ (try_catch _ _) => apply emits_only_try_catch; [|intros]
  | |- emits_only _ (sleep _) => apply emits_only_sleep
  | |- emits_only _ (call _ _ _ _ _) => apply emits_only_call; intros
  | |- emits_only _ (getElementsForPlatform _) =>
      apply emits_only_getElementsForPlatform; intros
  | |- emits_only _ (if ?b then _ else _) => destruct b eqn:?
  | |- emits_only _ (match ?x with _ => _ end) => destruct x eqn:?
  end.

Section FlowDispatch.

Context {E : Env}.

Variables (ctx : ToolContext) (depth flowStart maxDuration : Z).
Variable cur : option string.
Variable steps : list FlowStep.

Lemma step_dispatch_event (site : CallSite) (st : FlowStep) inner :
  In st steps -> site = FlowStepAttempt \/ site = FlowFallbackRetry ->
  flow_event depth cur steps
    (EvCall site (step_action st) (stepArgs cur st) (depth + 1) inner).
Proof.
  intros Hin [-> | ->]; simpl; (split; [reflexivity|]);
    (split; [exists st; auto | apply MapFacts.obj_get_set_same]).
Qed.

Lemma scroll_and_retry_emits (st : FlowStep) (i stepStart : Z) inf :
  In st steps ->
  emits_only (flow_event depth cur steps)
    (scroll_and_retry ctx depth cur st i stepStart inf).
Proof.
  intros Hin. unfold scroll_and_retry.
  repeat emits_step; try reflexivity.
  all: try (apply step_dispatch_event; auto).
  all: simpl; repeat split; auto.
  destruct (String.eqb inf "scroll_down"); [left | right]; reflexivity.
Qed.

Lemma step_catch_emits (st : FlowStep) (i stepStart iter : Z) last error
    next :
  In st steps ->
  (forall l, emits_only (flow_event depth cur steps) (next l)) ->
  emits_only (flow_event depth cur steps)
    (step_catch ctx depth cur st i stepStart iter last error next).
Proof.
  intros Hin Hnext. unfold step_catch. cbv zeta.
  repeat first [ apply scroll_and_retry_emits; assumption
               | apply Hnext | emits_step ]; reflexivity.
Qed.

Lemma repeat_condition_emits (st : FlowStep) :
  emits_only (flow_event depth cur steps) (repeat_condition cur st).
Proof.
  unfold repeat_condition. repeat emits_step; exact I.
Qed.

Lemma step_iters_emits (st : FlowStep) (i : Z) :
  In st steps ->
  forall fuel iter last,
    emits_only (flow_event depth cur steps)
      (step_iters ctx depth flowStart maxDuration cur st i fuel iter last).
Proof.
  intros Hin. induction fuel as [|fuel IH]; intros iter last; simpl.
  - apply emits_only_ret.
  - unfold step_body. cbv zeta.
    repeat first [ apply step_catch_emits; [assumption | intros; apply IH]
                 | apply repeat_condition_emits
                 | apply IH | emits_step ];
      try reflexivity.
    apply step_dispatch_event; auto.
Qed.

Lemma flow_steps_emits (rest : list FlowStep) :
  incl rest steps ->
  forall i results,
    emits_only (flow_event depth cur steps)
      (flow_steps ctx depth flowStart maxDuration cur i rest results).
Proof.
  induction rest as [|st rest IH]; intros Hincl i results; simpl.
  - apply emits_only_ret.
  - assert (Hin : In st steps) by (apply Hincl; now left).
    assert (Hrest : incl rest steps)
      by (intros x Hx; apply Hincl; now right).
    repeat first [ apply step_iters_emits; assumption
                 | apply IH; assumption | emits_step ].
Qed.

End FlowDispatch.

(* ------------------------------------------------------------------ *)
(** * Reads that neither change the state nor leave a trace *)
(* ------------------------------------------------------------------ *)

Section PureReads.

Context {E : Env}.

Lemma bind_pure {A B} (m : M A) (k : A -> M B) (a : A) (s : State) :
  m s = (Ok a, s, []) -> bind m k s = k a s.
Proof.
  intros H. unfold bind. rewrite H.
  destruct (k a s) as [[r s2] t2]. reflexivity.
Qed.

Lemma bind_ret {A B} (a : A) (k : A -> M B) (s : State) :
  bind (ret a) k s = k a s.
Proof. now apply bind_pure. Qed.

Lemma bind_date_now {B} (k : Z -> M B) (s : State) :
  bind date_now k s = k (now (device s)) s.
Proof. now apply bind_pure. Qed.

Lemma bind_current_platform {B} (k : option string -> M B) (s : State) :
  bind current_platform k s = k (getCurrentPlatform (device s)) s.
Proof. now apply bind_pure. Qed.

Lemma bind_typed {A B} (o : option A) (a : A) (k : A -> M B) (s : State) :
  o = Some a -> bind (typed o) k s = k a s.
Proof. intros ->. now apply bind_pure. Qed.

Lemma bind_getCachedElements {B} p (k : list UiElement -> M B) (s : State) :
  bind (getCachedElements p) k s
  = k (match JsMap.get (cachedElementsMap s) p with
       | Some els => els
       | None => []
       end) s.
Proof. now apply bind_pure. Qed.

(** What a [bind] does once its first part is known. *)
Lemma bind_ok {A B} (m : M A) (k : A -> M B) (a : A) (s s1 : State)
    (t1 : Trace) :
  m s = (Ok a, s1, t1) ->
  bind m k s = (let '(r, s2, t2) := k a s1 in (r, s2, (t1 ++ t2)%list)).
Proof. intros H. unfold bind. now rewrite H. Qed.

Lemma bind_fail {A B} (m : M A) (k : A -> M B) (f : Failure)
    (s s1 : State) (t1 : Trace) :
  m s = (Fail f, s1, t1) -> bind m k s = (Fail f, s1, t1).
Proof. intros H. unfold bind. now rewrite H. Qed.

End PureReads.

(* ------------------------------------------------------------------ *)
(** * run_flow: validation and the platform of the dispatches *)
(* ------------------------------------------------------------------ *)

Section FlowHandler.

Context {E : Env}.

(** C10. Every call run_flow makes through the dispatcher carries the
    platform the flow resolved once, at its start: a step is dispatched
    with its declared [args] in which [platform] is set to that
    platform, overwriting whatever the step said, and the swipe of a
    scroll fallback names the same platform. No two dispatches of one
    flow can differ in their [platform]. *)
Theorem run_flow_dispatches_on_flow_platform (args : JsObject)
    (ctx : ToolContext) (depth : Z) (s : State) (fa : FlowArgs) :
  decode_flow_args args = Some fa ->
  Forall (flow_event depth (resolved_platform fa s) (declared_steps fa))
    (trace_of (run_flow_handler args ctx depth s)).
Proof.
  intros Hdec. unfold run_flow_handler.
  destruct (depth >? MAX_RECURSION_DEPTH); [constructor|].
  rewrite (bind_typed _ fa) by assumption.
  rewrite bind_current_platform.
  fold (resolved_platform fa s). unfold declared_steps.
  generalize (resolved_platform fa s) as cur. intros cur.
  destruct (flow_steps_arg fa) as [steps|]; [|constructor].
  simpl or_else.
  match goal with
  | |- Forall ?Q (trace_of (?m s)) => enough (H : emits_only Q m) by apply H
  end.
  repeat first [ apply flow_steps_emits; apply incl_refl | emits_step ].
Qed.

(** The first step that is not allowed, when there is one. *)
Lemma find_disallowed (steps : list FlowStep) (bad : FlowStep) :
  In bad steps -> flow_allowed (step_action bad) = false ->
  exists first,
    find (fun st => negb (flow_allowed (step_action st))) steps
    = Some first
    /\ In first steps /\ flow_allowed (step_action first) = false.
Proof.
  intros Hin Hbad.
  destruct (find (fun st => negb (flow_allowed (step_action st))) steps)
    as [first|] eqn:Hfind.
  - apply find_some in Hfind as [Hfin Hf]. exists first.
    repeat split; auto. now apply negb_true_iff in Hf.
  - eapply find_none in Hfind; eauto. simpl in Hfind.
    rewrite Hbad in Hfind. discriminate.
Qed.

(** C2. A flow with a step whose action is not on the allow-list is
    turned down before anything runs: the handler returns with the state
    as it found it and an empty trace (no step dispatched, no call to a
    backend). What it returns is the recursion-limit error, the
    too-many-steps text, or the text that names the first step that is
    not allowed. *)
Theorem run_flow_rejects_disallowed_action (args : JsObject)
    (ctx : ToolContext) (depth : Z) (s : State) (fa : FlowArgs)
    (steps : list FlowStep) (bad : FlowStep) :
  decode_flow_args args = Some fa ->
  flow_steps_arg fa = Some steps ->
  In bad steps ->
  flow_allowed (step_action bad) = false ->
  exists r,
    run_flow_handler args ctx depth s = (r, s, [])
    /\ (r = Throw RecursionLimitExceeded
        \/ r = Ok (text_response (too_many_steps_text (List.length steps)))
        \/ exists first,
             In first steps
             /\ flow_allowed (step_action first) = false
             /\ r = Ok (text_response
                        (not_allowed_text (step_action first)))).
Proof.
  intros Hdec Hsteps Hin Hbad. unfold run_flow_handler.
  destruct (depth >? MAX_RECURSION_DEPTH).
  { eexists; split; [reflexivity | now left]. }
  rewrite (bind_typed _ fa) by assumption.
  rewrite bind_current_platform, Hsteps.
  destruct steps as [|st0 steps0]; [contradiction|].
  destruct (Z.of_nat (List.length (st0 :: steps0)) >? FLOW_MAX_STEPS).
  { eexists; split; [reflexivity | right; now left]. }
  destruct (find_disallowed _ _ Hin Hbad) as (first & Hfind & Hfin & Hf).
  rewrite Hfind.
  eexists; split; [reflexivity | right; right; eauto].
Qed.

End FlowHandler.

(* ------------------------------------------------------------------ *)
(** * batch_commands *)
(* ------------------------------------------------------------------ *)

Section BatchFacts.

Context {E : Env}.

Lemma call_result site ctx name args depth s r s1 t1 :
  ctx_handleTool ctx name args depth s = (r, s1, t1) ->
  call site ctx name args depth s
  = (r, s1, [EvCall site name args depth t1]).
Proof. intros H. unfold call. now rewrite H. Qed.

Variables (ctx : ToolContext) (depth : Z) (stopOnError : bool).

(** One turn of the loop. *)
Lemma batch_loop_cons (cmd : Command) (rest : list Command)
    (results : list BatchResult) (s : State) :
  batch_loop ctx depth stopOnError (cmd :: rest) results s
  = match ctx_handleTool ctx (cmd_name cmd)
            (or_else (cmd_arguments cmd) []) (depth + 1) s with
    | (Ok result, s1, t1) =>
        let '(r, s2, t2) :=
          batch_loop ctx depth stopOnError rest
            (results ++ [batch_ok cmd result])%list s1 in
        (r, s2, batch_call depth cmd t1 :: t2)
    | (Throw error, s1, t1) =>
        if stopOnError
        then (Ok (results ++ [batch_error cmd error])%list, s1,
              [batch_call depth cmd t1])
        else
          let '(r, s2, t2) :=
            batch_loop ctx depth stopOnError rest
              (results ++ [batch_error cmd error])%list s1 in
          (r, s2, batch_call depth cmd t1 :: t2)
    | (Fail f, s1, t1) => (Fail f, s1, [batch_call depth cmd t1])
    end.
Proof.
  simpl. unfold bind, attempt, call.
  destruct (ctx_handleTool ctx (cmd_name cmd)
              (or_else (cmd_arguments cmd) []) (depth + 1) s)
    as [[[result|[error| |]] s1] t1]; try reflexivity.
  destruct stopOnError; reflexivity.
Qed.

Lemma batch_loop_entries (commands : list Command) :
  forall results s out s' tr,
    batch_loop ctx depth stopOnError commands results s
    = (Ok out, s', tr) ->
    exists entries,
      out = (results ++ entries)%list
      /\ executed_prefix depth commands entries tr
      /\ halted_at_first_error stopOnError commands entries.
Proof.
  unfold executed_prefix, halted_at_first_error.
  induction commands as [|cmd rest IH]; intros results s out s' tr Hrun.
  - simpl in Hrun. inversion Hrun; subst. exists []. rewrite app_nil_r.
    repeat split; auto. destruct stopOnError; auto.
  - rewrite batch_loop_cons in Hrun.
    destruct (ctx_handleTool ctx (cmd_name cmd)
                (or_else (cmd_arguments cmd) []) (depth + 1) s)
      as [[[result|[error| |]] s1] t1]; try discriminate.
    + destruct (batch_loop ctx depth stopOnError rest
                  (results ++ [batch_ok cmd result])%list s1)
        as [[r s2] t2] eqn:Hrest.
      inversion Hrun; subst.
      destruct (IH _ _ _ _ _ Hrest) as (entries & -> & (H1 & H2 & H3 & H4) & H5).
      exists (batch_ok cmd result :: entries).
      rewrite <- app_assoc. simpl.
      repeat split; try (unfold signature_of in *; congruence); try lia.
      destruct stopOnError.
      * destruct H5 as [[Hall Hlen] | (before & failed & -> & Hb & Hf)].
        -- left. split; [constructor; auto | congruence].
        -- right. exists (batch_ok cmd result :: before), failed.
           repeat split; auto.
      * congruence.
    + destruct stopOnError eqn:Hstop.
      * inversion Hrun; subst. exists [batch_error cmd error].
        simpl. repeat split; auto; try lia.
        right. exists [], (batch_error cmd error). repeat split; auto.
      * destruct (batch_loop ctx depth false rest
                    (results ++ [batch_error cmd error])%list s1)
          as [[r s2] t2] eqn:Hrest.
        inversion Hrun; subst.
        destruct (IH _ _ _ _ _ Hrest)
          as (entries & -> & (H1 & H2 & H3 & H4) & H5).
        exists (batch_error cmd error :: entries).
        rewrite <- app_assoc. simpl.
        repeat split; try (unfold signature_of in *; congruence); lia.
Qed.

(** The loop never throws: what a command throws becomes an entry. *)
Lemma batch_loop_never_throws (commands : list Command) :
  forall results s e s' tr,
    batch_loop ctx depth stopOnError commands results s
    <> (Throw e, s', tr).
Proof.
  induction commands as [|cmd rest IH]; intros results s e s' tr Hrun.
  - discriminate.
  - rewrite batch_loop_cons in Hrun.
    destruct (ctx_handleTool ctx (cmd_name cmd)
                (or_else (cmd_arguments cmd) []) (depth + 1) s)
      as [[[result|[error| |]] s1] t1]; try discriminate.
    + destruct (batch_loop ctx depth stopOnError rest
                  (results ++ [batch_ok cmd result])%list s1)
        as [[r s2] t2] eqn:Hrest.
      inversion Hrun; subst. eapply IH; eauto.
    + destruct stopOnError; [discriminate|].
      destruct (batch_loop ctx depth false rest
                  (results ++ [batch_error cmd error])%list s1)
        as [[r s2] t2] eqn:Hrest.
      inversion Hrun; subst. eapply IH; eauto.
Qed.

(** When every command returns or throws, the loop returns. *)
Lemma batch_loop_returns (commands : list Command) :
  settles ctx ->
  forall results s,
    is_ok (result_of (batch_loop ctx depth stopOnError commands results s))
    = true.
Proof.
  intros Hctx. induction commands as [|cmd rest IH]; intros results s.
  - reflexivity.
  - rewrite batch_loop_cons.
    specialize (Hctx (cmd_name cmd) (or_else (cmd_arguments cmd) [])
                  (depth + 1) s).
    destruct (ctx_handleTool ctx (cmd_name cmd)
                (or_else (cmd_arguments cmd) []) (depth + 1) s)
      as [[[result|[error| |]] s1] t1]; simpl in Hctx; try contradiction.
    + specialize (IH (results ++ [batch_ok cmd result])%list s1).
      destruct (batch_loop ctx depth stopOnError rest _ s1) as [[r s2] t2].
      exact IH.
    + destruct stopOnError eqn:Hstop; [reflexivity|].
      specialize (IH (results ++ [batch_error cmd error])%list s1).
      destruct (batch_loop ctx depth false rest _ s1) as [[r s2] t2].
      exact IH.
Qed.

End BatchFacts.

Section BatchHandler.

Context {E : Env}.

Lemma batch_handler_run (args : JsObject) (ctx : ToolContext) (depth : Z)
    (cmd : Command) (rest : list Command) (s : State) :
  depth <= MAX_RECURSION_DEPTH ->
  as_opt_array decode_command (Obj.get args "commands")
  = Some (Some (cmd :: rest)) ->
  batch_commands_handler args ctx depth s
  = match batch_loop ctx depth (stopOnError_of args) (cmd :: rest) [] s
    with
    | (Ok entries, s', tr) =>
        (Ok (text_response
               (batch_text entries (List.length (cmd :: rest)))), s', tr)
    | (Fail f, s', tr) => (Fail f, s', tr)
    end.
Proof.
  intros Hd Hdec. unfold batch_commands_handler.
  destruct (Z.gtb_spec depth MAX_RECURSION_DEPTH); [lia|].
  rewrite (bind_typed _ (Some (cmd :: rest))) by assumption.
  unfold bind.
  destruct (batch_loop ctx depth (stopOnError_of args) (cmd :: rest) [] s)
    as [[[entries|f] s'] tr]; simpl; auto.
  now rewrite app_nil_r.
Qed.

(** C6. batch_commands runs its commands one after the other, in the
    order of the list, one dispatcher call each. It returns whenever its
    commands return or throw, and its text is then the summary and the
    lines of the entries; with
    [stopOnError] (any value but [false], so also when it is not given)
    the entries end with the first failure, otherwise there is one per
    command; and the handler itself never throws. For three commands of
    which the second fails: two entries and "2/3 executed, 1 failed"
    with [stopOnError], three entries and "3/3 executed, 1 failed"
    without. *)
Theorem batch_commands_stops_after_first_error (ctx : ToolContext)
    (depth : Z) :
  depth <= MAX_RECURSION_DEPTH ->
  (forall args commands s r s' tr,
      as_opt_array decode_command (Obj.get args "commands")
      = Some (Some commands) ->
      commands <> [] ->
      batch_commands_handler args ctx depth s = (r, s', tr) ->
      (settles ctx -> is_ok r = true)
      /\ match r with
         | Ok response =>
             exists entries,
               response
               = text_response (batch_text entries (List.length commands))
               /\ executed_prefix depth commands entries tr
               /\ halted_at_first_error (stopOnError_of args) commands
                    entries
         | Throw _ => False
         | Fail _ => True
         end)
  /\ (forall args,
        Obj.get args "stopOnError" = JUndefined ->
        stopOnError_of args = true)
  /\ (forall args j1 j2 j3 c1 c2 c3 s r1 e r3 s1 s2 s3 t1 t2 t3,
        Obj.get args "commands" = JArr [j1; j2; j3] ->
        decode_command j1 = Some c1 ->
        decode_command j2 = Some c2 ->
        decode_command j3 = Some c3 ->
        ctx_handleTool ctx (cmd_name c1) (or_else (cmd_arguments c1) [])
          (depth + 1) s = (Ok r1, s1, t1) ->
        ctx_handleTool ctx (cmd_name c2) (or_else (cmd_arguments c2) [])
          (depth + 1) s1 = (Throw e, s2, t2) ->
        ctx_handleTool ctx (cmd_name c3) (or_else (cmd_arguments c3) [])
          (depth + 1) s2 = (Ok r3, s3, t3) ->
        let two := [batch_ok c1 r1; batch_error c2 e] in
        let three := [batch_ok c1 r1; batch_error c2 e; batch_ok c3 r3] in
        batch_commands_handler args ctx depth s
        = (if stopOnError_of args
           then (Ok (text_response (batch_text two 3)), s2,
                 [batch_call depth c1 t1; batch_call depth c2 t2])
           else (Ok (text_response (batch_text three 3)), s3,
                 [batch_call depth c1 t1; batch_call depth c2 t2;
                  batch_call depth c3 t3]))
        /\ batch_summary two 3 = "Batch: 2/3 executed, 1 failed"
        /\ batch_summary three 3 = "Batch: 3/3 executed, 1 failed").
Proof.
  intros Hd. split; [|split].
  - intros args commands s r s' tr Hdec Hne Hrun.
    destruct commands as [|cmd rest]; [congruence|].
    rewrite (batch_handler_run args ctx depth cmd rest s Hd Hdec) in Hrun.
    pose proof (batch_loop_returns ctx depth (stopOnError_of args)
                  (cmd :: rest)) as Hreturns.
    destruct (batch_loop ctx depth (stopOnError_of args) (cmd :: rest) [] s)
      as [[[entries|f] s1] t1] eqn:Hloop; inversion Hrun; subst.
    + split; [reflexivity|].
      destruct (batch_loop_entries _ _ _ _ _ _ _ _ _ Hloop)
        as (entries' & Heq & Hprefix & Hhalt).
      simpl in Heq. subst. eauto.
    + split.
      * intros Hctx. specialize (Hreturns Hctx [] s).
        now rewrite Hloop in Hreturns.
      * destruct f; auto.
        eapply batch_loop_never_throws; eauto.
  - intros args Hundef. unfold stopOnError_of. now rewrite Hundef.
  - intros args j1 j2 j3 c1 c2 c3 s r1 e r3 s1 s2 s3 t1 t2 t3
      Hcmds Hj1 Hj2 Hj3 H1 H2 H3 two three.
    split; [|split; reflexivity].
    rewrite (batch_handler_run args ctx depth c1 [c2; c3] s Hd).
    2:{ rewrite Hcmds. simpl. unfold obind. now rewrite Hj1, Hj2, Hj3. }
    rewrite batch_loop_cons, H1, batch_loop_cons, H2.
    destruct (stopOnError_of args); [reflexivity|].
    rewrite batch_loop_cons, H3. reflexivity.
Qed.

End BatchHandler.

(* ------------------------------------------------------------------ *)
(** * Action hints *)
(* ------------------------------------------------------------------ *)

Section Hints.

Context {E : Env} {G : Gestures}.

Lemma attempt_throw {A} (m : M A) (s s1 : State) (e : JsError)
    (t1 : Trace) :
  m s = (Throw e, s1, t1) -> attempt m s = (Ok (inr e), s1, t1).
Proof. intros H. unfold attempt. now rewrite H. Qed.

Lemma attempt_ok {A} (m : M A) (s s1 : State) (a : A) (t1 : Trace) :
  m s = (Ok a, s1, t1) -> attempt m s = (Ok (inl a), s1, t1).
Proof. intros H. unfold attempt. now rewrite H. Qed.

Lemma as_opt_string_platform_value (p : option string) :
  as_opt_string (platform_value p) = Some p.
Proof. destruct p; reflexivity. Qed.

Lemma as_opt_number_number_value (n : option Z) :
  as_opt_number (number_value n) = Some n.
Proof. destruct n; reflexivity. Qed.

Lemma generateActionHints_capture_fails (platform : option string)
    (s s1 : State) (e : JsError) (t1 : Trace) :
  capture_after
    (platform_or_android platform (getCurrentPlatform (device s)))
    (after_delay 150 s)
  = (Throw e, s1, t1) ->
  generateActionHints platform s
  = (Ok (hints_unavailable (err_message e)), s1, EvSleep 150 :: t1).
Proof.
  intros Hcap. unfold generateActionHints.
  rewrite bind_current_platform, bind_getCachedElements.
  rewrite (bind_ok (sleep 150) _ tt s (after_delay 150 s) [EvSleep 150])
    by reflexivity.
  rewrite (bind_ok _ _ _ _ _ _ (attempt_throw _ _ _ _ _ Hcap)).
  simpl. now rewrite app_nil_r.
Qed.

(** The end of the tap handler, whichever way it found its coordinates:
    the tap went through, the capture for the hints did not. *)
Lemma tap_and_report_capture_fails (platform : option string)
    (s0 s s1 : State) (e : JsError) (t1 : Trace) (x y : Z)
    (targetPid : option Z) :
  dm_tap x y platform targetPid (device s0) = (Ok tt, device s) ->
  with_device (device s) s0 = s ->
  capture_after
    (platform_or_android platform (getCurrentPlatform (device s)))
    (after_delay 150 s)
  = (Throw e, s1, t1) ->
  tap_and_report x y platform targetPid true s0
  = (Ok (text_response
           (tapped_at x y ++ hints_unavailable (err_message e))),
     s1, EvAdapter (OpTap x y) :: EvSleep 150 :: t1).
Proof.
  intros Htap Hs Hcap. unfold tap_and_report.
  assert (Hadapter :
            adapter (OpTap x y) (dm_tap x y platform targetPid) s0
            = (Ok tt, s, [EvAdapter (OpTap x y)])).
  { unfold adapter. rewrite Htap. now rewrite <- Hs at 2. }
  rewrite (bind_ok _ _ _ _ _ _ Hadapter).
  rewrite (bind_ok _ _ _ _ _ _
             (generateActionHints_capture_fails _ _ _ _ _ Hcap)).
  simpl. now rewrite app_nil_r.
Qed.

(** The end the other three tools share: the gesture went through, the
    capture for the hints did not. *)
Lemma report_with_hints_capture_fails (platform : option string)
    (s s1 : State) (e : JsError) (t1 : Trace) (result : string) :
  capture_after
    (platform_or_android platform (getCurrentPlatform (device s)))
    (after_delay 150 s)
  = (Throw e, s1, t1) ->
  report_with_hints result platform true s
  = (Ok (text_response (result ++ hints_unavailable (err_message e))), s1,
     EvSleep 150 :: t1).
Proof.
  intros Hcap. unfold report_with_hints.
  rewrite (bind_ok _ _ _ _ _ _
             (generateActionHints_capture_fails _ _ _ _ _ Hcap)).
  simpl. now rewrite app_nil_r.
Qed.

(** A gesture that went through, then the report. *)
Lemma gesture_then_report (op : AdapterOp)
    (f : Device -> Res unit * Device) (k : M Response)
    (s0 s s1 : State) (r : Response) (t : Trace) :
  f (device s0) = (Ok tt, device s) ->
  with_device (device s) s0 = s ->
  k s = (Ok r, s1, t) ->
  bind (adapter op f) (fun _ => k) s0 = (Ok r, s1, EvAdapter op :: t).
Proof.
  intros Hf Hs Hk.
  assert (Hadapter : adapter op f s0 = (Ok tt, s, [EvAdapter op])).
  { unfold adapter. rewrite Hf. now rewrite <- Hs at 2. }
  rewrite (bind_ok _ _ _ _ _ _ Hadapter). now rewrite Hk.
Qed.

(** The text of the [catch] of [generateActionHints], letter by
    letter. *)
Lemma hints_unavailable_text (reason : string) :
  hints_unavailable reason
  = String "010" ("--- Hints ---"
      ++ String "010" ("Unable to fetch UI state for hints: " ++ reason)).
Proof. reflexivity. Qed.

(** C8. When the capture after the action throws, [generateActionHints]
    does not: it returns a line break, "--- Hints ---", a line break and
    "Unable to fetch UI state for hints: " followed by the message of
    the error. Each of the four tools that append hints, called with
    [hints: true], still returns its own success text, with that text
    after it: tap ("Tapped at (x, y)"; for the end of the handler, from
    [deviceManager.tap] on, and for the handler called with
    coordinates), swipe by direction ("Swiped up") and by coordinates
    ("Swiped from (x1, y1) to (x2, y2)"), input_text ("Entered text:
    ...") and press_key ("Pressed key: ..."). *)
Theorem hints_failure_keeps_action_result (platform : option string)
    (s s1 : State) (e : JsError) (t1 : Trace) :
  capture_after
    (platform_or_android platform (getCurrentPlatform (device s)))
    (after_delay 150 s)
  = (Throw e, s1, t1) ->
  let unavailable :=
    String "010" ("--- Hints ---"
      ++ String "010" ("Unable to fetch UI state for hints: "
                         ++ err_message e)) in
  let answer (result : string) (op : AdapterOp)
      : Res Response * State * Trace :=
    (Ok (text_response (result ++ unavailable)), s1,
     EvAdapter op :: EvSleep 150 :: t1) in
  let done (outcome : Res unit * Device) (s0 : State) :=
    outcome = (Ok tt, device s) /\ with_device (device s) s0 = s in
  let with_hints (args : JsObject) :=
    Obj.get args "platform" = platform_value platform
    /\ Obj.get args "hints" = JBool true in
  generateActionHints platform s = (Ok unavailable, s1, EvSleep 150 :: t1)
  /\ JsString.includes (err_message e) unavailable = true
  /\ (forall s0 x y targetPid,
        done (dm_tap x y platform targetPid (device s0)) s0 ->
        tap_and_report x y platform targetPid true s0
        = answer ("Tapped at (" ++ JsString.of_Z x ++ ", "
                  ++ JsString.of_Z y ++ ")")
            (OpTap x y))
  /\ (forall args ctx depth s0 x y targetPid,
        with_hints args ->
        Obj.get args "x" = JNum x ->
        Obj.get args "y" = JNum y ->
        Obj.get args "text" = JUndefined ->
        Obj.get args "label" = JUndefined ->
        Obj.get args "resourceId" = JUndefined ->
        Obj.get args "index" = JUndefined ->
        Obj.get args "targetPid" = number_value targetPid ->
        done (dm_tap x y platform targetPid (device s0)) s0 ->
        tap_handler args ctx depth s0
        = answer ("Tapped at (" ++ JsString.of_Z x ++ ", "
                  ++ JsString.of_Z y ++ ")")
            (OpTap x y))
  /\ (forall args ctx depth s0 direction,
        with_hints args ->
        Obj.get args "direction" = JStr direction ->
        JsString.truthy direction = true ->
        done (dm_swipeDirection direction platform (device s0)) s0 ->
        swipe_handler args ctx depth s0
        = answer ("Swiped " ++ direction) (OpSwipeDirection direction))
  /\ (forall args ctx depth s0 x1 y1 x2 y2 duration,
        with_hints args ->
        Obj.get args "direction" = JUndefined ->
        Obj.get args "x1" = JNum x1 ->
        Obj.get args "y1" = JNum y1 ->
        Obj.get args "x2" = JNum x2 ->
        Obj.get args "y2" = JNum y2 ->
        Obj.get args "duration" = number_value duration ->
        done (dm_swipe x1 y1 x2 y2 (or_else duration 300) platform
                (device s0)) s0 ->
        swipe_handler args ctx depth s0
        = answer ("Swiped from (" ++ JsString.of_Z x1 ++ ", "
                  ++ JsString.of_Z y1 ++ ") to (" ++ JsString.of_Z x2
                  ++ ", " ++ JsString.of_Z y2 ++ ")")
            (OpSwipe x1 y1 x2 y2 (or_else duration 300)))
  /\ (forall args ctx depth s0 text targetPid,
        with_hints args ->
        Obj.get args "text" = JStr text ->
        Obj.get args "targetPid" = number_value targetPid ->
        done (dm_inputText text platform targetPid (device s0)) s0 ->
        input_text_handler args ctx depth s0
        = answer ("Entered text: " ++ String "034" (text ++ String "034" ""))
            (OpInputText text))
  /\ (forall args ctx depth s0 key targetPid,
        with_hints args ->
        Obj.get args "key" = JStr key ->
        Obj.get args "targetPid" = number_value targetPid ->
        done (dm_pressKey key platform targetPid (device s0)) s0 ->
        press_key_handler args ctx depth s0
        = answer ("Pressed key: " ++ key) (OpPressKey key)).
Proof.
  intros Hcap unavailable answer done with_hints.
  pose proof (generateActionHints_capture_fails _ _ _ _ _ Hcap) as Hhints.
  assert (Hreport : forall result,
             report_with_hints result platform true s
             = (Ok (text_response (result ++ unavailable)), s1,
                EvSleep 150 :: t1)).
  { intros result.
    rewrite (report_with_hints_capture_fails _ _ _ _ _ result Hcap).
    now rewrite hints_unavailable_text. }
  rewrite hints_unavailable_text in Hhints. fold unavailable in Hhints.
  assert (Htap : forall s0 x y targetPid,
             done (dm_tap x y platform targetPid (device s0)) s0 ->
             tap_and_report x y platform targetPid true s0
             = answer ("Tapped at (" ++ JsString.of_Z x ++ ", "
                       ++ JsString.of_Z y ++ ")")
                 (OpTap x y)).
  { intros s0 x y targetPid [Hdone Hs].
    rewrite (tap_and_report_capture_fails _ _ _ _ _ _ _ _ _ Hdone Hs Hcap).
    now rewrite hints_unavailable_text. }
  split; [exact Hhints|]. split; [|split; [exact Htap|]].
  { unfold unavailable.
    apply (StringFacts.includes_skip _ (String "010" EmptyString)).
    apply StringFacts.includes_skip.
    apply (StringFacts.includes_skip _ (String "010" EmptyString)).
    apply StringFacts.includes_skip, StringFacts.includes_refl. }
  split; [|split; [|split; [|split]]].
  - intros args ctx depth s0 x y targetPid [Hp Hh] Hx Hy Ht Hl Hr Hi Hpid
      Hdone.
    unfold tap_handler.
    rewrite Hp, Hx, Hy, Ht, Hl, Hr, Hi, Hpid, Hh.
    rewrite (bind_typed _ platform)
      by apply as_opt_string_platform_value.
    rewrite (bind_typed _ (Some x)) by reflexivity.
    rewrite (bind_typed _ (Some y)) by reflexivity.
    rewrite (bind_typed _ None) by reflexivity.
    rewrite (bind_typed _ None) by reflexivity.
    rewrite (bind_typed _ None) by reflexivity.
    rewrite (bind_typed _ None) by reflexivity.
    rewrite (bind_typed _ targetPid)
      by apply as_opt_number_number_value.
    rewrite bind_current_platform.
    simpl truthy_opt. simpl orb. rewrite andb_false_r.
    rewrite bind_ret. cbn [truthy_opt orb andb]. rewrite bind_ret.
    simpl is_true.
    now apply Htap.
  - intros args ctx depth s0 direction [Hp Hh] Hd Htruthy [Hdone Hs].
    unfold swipe_handler. rewrite Hp, Hd, Hh.
    rewrite (bind_typed _ platform)
      by apply as_opt_string_platform_value.
    rewrite (bind_typed _ (Some direction)) by reflexivity.
    cbn [truthy_opt or_else is_true]. rewrite Htruthy.
    now apply gesture_then_report with (s := s).
  - intros args ctx depth s0 x1 y1 x2 y2 duration [Hp Hh] Hd Hx1 Hy1 Hx2
      Hy2 Hdur [Hdone Hs].
    unfold swipe_handler. rewrite Hp, Hd, Hx1, Hy1, Hx2, Hy2, Hdur, Hh.
    rewrite (bind_typed _ platform)
      by apply as_opt_string_platform_value.
    rewrite (bind_typed _ None) by reflexivity.
    cbn [truthy_opt].
    rewrite (bind_typed _ (Some x1)) by reflexivity.
    rewrite (bind_typed _ (Some y1)) by reflexivity.
    rewrite (bind_typed _ (Some x2)) by reflexivity.
    rewrite (bind_typed _ (Some y2)) by reflexivity.
    rewrite (bind_typed _ duration)
      by apply as_opt_number_number_value.
    cbn [is_true].
    now apply gesture_then_report with (s := s).
  - intros args ctx depth s0 text targetPid [Hp Hh] Ht Hpid [Hdone Hs].
    unfold input_text_handler. rewrite Hp, Ht, Hpid, Hh.
    rewrite (bind_typed _ platform)
      by apply as_opt_string_platform_value.
    rewrite (bind_typed _ targetPid)
      by apply as_opt_number_number_value.
    rewrite (bind_typed _ text) by reflexivity.
    cbn [is_true].
    now apply gesture_then_report with (s := s).
  - intros args ctx depth s0 key targetPid [Hp Hh] Hk Hpid [Hdone Hs].
    unfold press_key_handler. rewrite Hp, Hk, Hpid, Hh.
    rewrite (bind_typed _ platform)
      by apply as_opt_string_platform_value.
    rewrite (bind_typed _ targetPid)
      by apply as_opt_number_number_value.
    rewrite (bind_typed _ key) by reflexivity.
    cbn [is_true].
    now apply gesture_then_report with (s := s).
Qed.

End Hints.

(* ------------------------------------------------------------------ *)
(** * Diff-mode screenshots *)
(* ------------------------------------------------------------------ *)

Section ScreenshotDiff.

Context {E : Env}.

Lemma Qltb_lt (a b : Q) : Qltb a b = true <-> (a < b)%Q.
Proof.
  unfold Qltb. rewrite negb_true_iff.
  split.
  - intros H. apply Qnot_le_lt. intros Hle.
    apply Qle_bool_iff in Hle. congruence.
  - intros H. destruct (Qle_bool b a) eqn:Hb; auto.
    apply Qle_bool_iff in Hb. exfalso. now apply (Qlt_not_le a b).
Qed.

Lemma Qltb_ge (a b : Q) : Qltb a b = false <-> (b <= a)%Q.
Proof.
  unfold Qltb. rewrite negb_false_iff. apply Qle_bool_iff.
Qed.

Variables (compress : bool) (options : CompressOptions).
Variables (pngBuffer : Buffer) (diff : ScreenDiff).

Abbreviation percent := (number_to_string (changePercent diff)).

Lemma full_frame_run (s : State) :
  bind (encode_image compress options pngBuffer)
    (fun result =>
       ret (mkResponse (Some (full_frame_text percent)) (Some result))) s
  = (image_response (full_frame_text percent)
       (encoded compress options pngBuffer), s, []).
Proof.
  unfold bind, encode_image, encoded, lift, ret, image_response.
  destruct compress; [|reflexivity].
  destruct (compressScreenshot pngBuffer options); reflexivity.
Qed.

Lemma diff_tiers_unchanged (s : State) :
  (changePercent diff < 5 # 1)%Q ->
  diff_tiers compress options pngBuffer diff s
  = (Ok (text_response (unchanged_text percent)), s, []).
Proof.
  intros H. apply Qltb_lt in H. unfold diff_tiers. now rewrite H.
Qed.

Lemma diff_tiers_cropped (s : State) (region : Region) :
  (5 # 1 <= changePercent diff)%Q ->
  (changePercent diff < 80 # 1)%Q ->
  changedRegion diff = Some region ->
  diff_tiers compress options pngBuffer diff s
  = (cropped_response compress options pngBuffer percent region, s, []).
Proof.
  intros H5 H80 Hregion. apply Qltb_ge in H5. apply Qltb_lt in H80.
  unfold Qltb in H80. apply negb_true_iff in H80.
  unfold diff_tiers. rewrite H5, H80, Hregion. simpl.
  unfold cropped_response, bind, encode_image, encoded, lift, ret,
    image_response.
  destruct (cropRegion pngBuffer region 20) as [cropped|f]; [|reflexivity].
  destruct compress; [|reflexivity].
  destruct (compressScreenshot cropped options); reflexivity.
Qed.

Lemma diff_tiers_full_frame (s : State) :
  (5 # 1 <= changePercent diff)%Q ->
  (80 # 1 <= changePercent diff)%Q \/ changedRegion diff = None ->
  diff_tiers compress options pngBuffer diff s
  = (image_response (full_frame_text percent)
       (encoded compress options pngBuffer), s, []).
Proof.
  intros H5 Hfull. apply Qltb_ge in H5.
  unfold diff_tiers. rewrite H5.
  destruct (Qle_bool (80 # 1) (changePercent diff)
            || is_none (changedRegion diff)) eqn:Htest.
  - apply full_frame_run.
  - apply orb_false_iff in Htest as [H80 Hnone].
    destruct Hfull as [Hge | Hno].
    + apply Qle_bool_iff in Hge. congruence.
    + rewrite Hno in Hnone. discriminate.
Qed.

End ScreenshotDiff.

Section ScreenshotHandler.

Context {E : Env}.

(** Diff mode with a previous capture in the cache: the handler is the
    capture, the write to the cache and the tiers. *)
Lemma screenshot_diff_run (args : JsObject) (ctx : ToolContext)
    (depth : Z) (s s1 : State) (t1 : Trace)
    (platform : option string) (threshold mw mh q mi : option Z)
    (pngBuffer prev : Buffer) (diff : ScreenDiff) :
  Obj.get args "platform" = platform_value platform ->
  Obj.get args "diffThreshold" = number_value threshold ->
  Obj.get args "maxWidth" = number_value mw ->
  Obj.get args "maxHeight" = number_value mh ->
  Obj.get args "quality" = number_value q ->
  Obj.get args "monitorIndex" = number_value mi ->
  Obj.get args "diff" = JBool true ->
  let cur := platform_or_android platform (getCurrentPlatform (device s)) in
  capture_phase (is_true (Obj.get args "waitForStable")) cur s
  = (Ok pngBuffer, s1, t1) ->
  JsMap.get (lastScreenshotMap s1) cur = Some prev ->
  compareScreenshots prev pngBuffer (or_else threshold 30) = Ok diff ->
  screenshot_handler args ctx depth s
  = (let '(r, s3, t3) :=
       diff_tiers (is_not_false (Obj.get args "compress"))
         (mkCompressOptions mw mh q mi) pngBuffer diff
         (with_last_screenshot cur pngBuffer s1) in
     (r, s3, (t1 ++ t3)%list)).
Proof.
  intros Hp Ht Hmw Hmh Hq Hmi Hdiff cur Hcap Hprev Hcmp.
  unfold screenshot_handler.
  rewrite Hp, Ht, Hmw, Hmh, Hq, Hmi, Hdiff.
  rewrite (bind_typed _ platform) by apply as_opt_string_platform_value.
  rewrite (bind_typed _ threshold) by apply as_opt_number_number_value.
  rewrite (bind_typed _ mw) by apply as_opt_number_number_value.
  rewrite (bind_typed _ mh) by apply as_opt_number_number_value.
  rewrite (bind_typed _ q) by apply as_opt_number_number_value.
  rewrite (bind_typed _ mi) by apply as_opt_number_number_value.
  rewrite bind_current_platform. fold cur. cbn [is_true].
  unfold capture_phase in Hcap.
  rewrite (bind_ok _ _ _ _ _ _ Hcap).
  rewrite (bind_pure (get_last_screenshot cur) _ (Some prev) s1).
  2:{ unfold get_last_screenshot. now rewrite Hprev. }
  rewrite (bind_ok (set_last_screenshot cur pngBuffer) _ tt s1
             (with_last_screenshot cur pngBuffer s1) []) by reflexivity.
  rewrite (bind_pure (lift (compareScreenshots prev pngBuffer
                              (or_else threshold 30))) _ diff).
  2:{ unfold lift. now rewrite Hcmp. }
  destruct (diff_tiers _ _ _ _ _) as [[r s3] t3]. reflexivity.
Qed.

(** C9. In diff mode with a previous capture in the cache, what the
    screenshot tool returns follows the change percentage of the
    comparison, read as tiers in this order: below 5, a text and no
    image; from 5 and below 80 with a changed region, the image of that
    region cropped from the new capture (20 pixels of padding), and no
    other; from 5 on, with 80 or more or without a region, the image of
    the whole capture. When the image cannot be made, the failure of
    the codec is what comes back. *)
Theorem screenshot_diff_tiers (args : JsObject) (ctx : ToolContext)
    (depth : Z) (s s1 : State) (t1 : Trace)
    (platform : option string) (threshold mw mh q mi : option Z)
    (pngBuffer prev : Buffer) (diff : ScreenDiff) :
  Obj.get args "platform" = platform_value platform ->
  Obj.get args "diffThreshold" = number_value threshold ->
  Obj.get args "maxWidth" = number_value mw ->
  Obj.get args "maxHeight" = number_value mh ->
  Obj.get args "quality" = number_value q ->
  Obj.get args "monitorIndex" = number_value mi ->
  Obj.get args "diff" = JBool true ->
  let cur := platform_or_android platform (getCurrentPlatform (device s)) in
  capture_phase (is_true (Obj.get args "waitForStable")) cur s
  = (Ok pngBuffer, s1, t1) ->
  JsMap.get (lastScreenshotMap s1) cur = Some prev ->
  compareScreenshots prev pngBuffer (or_else threshold 30) = Ok diff ->
  let compress := is_not_false (Obj.get args "compress") in
  let options := mkCompressOptions mw mh q mi in
  let percent := number_to_string (changePercent diff) in
  let s2 := with_last_screenshot cur pngBuffer s1 in
  ((changePercent diff < 5 # 1)%Q ->
     screenshot_handler args ctx depth s
     = (Ok (mkResponse (Some (unchanged_text percent)) None), s2, t1))
  /\ ((5 # 1 <= changePercent diff)%Q ->
      (changePercent diff < 80 # 1)%Q ->
      forall region,
        changedRegion diff = Some region ->
        screenshot_handler args ctx depth s
        = (cropped_response compress options pngBuffer percent region,
           s2, t1))
  /\ ((5 # 1 <= changePercent diff)%Q ->
      (80 # 1 <= changePercent diff)%Q \/ changedRegion diff = None ->
      screenshot_handler args ctx depth s
      = (image_response (full_frame_text percent)
           (encoded compress options pngBuffer), s2, t1)).
Proof.
  intros Hp Ht Hmw Hmh Hq Hmi Hdiff cur Hcap Hprev Hcmp
    compress options percent s2.
  pose proof (screenshot_diff_run args ctx depth s s1 t1 platform
                threshold mw mh q mi pngBuffer prev diff
                Hp Ht Hmw Hmh Hq Hmi Hdiff Hcap Hprev Hcmp) as Hrun.
  fold cur compress options s2 in Hrun.
  repeat split.
  - intros Hlt. rewrite Hrun, diff_tiers_unchanged by assumption.
    now rewrite app_nil_r.
  - intros H5 H80 region Hregion.
    rewrite Hrun, (diff_tiers_cropped _ _ _ _ _ region) by assumption.
    now rewrite app_nil_r.
  - intros H5 Hfull. rewrite Hrun, diff_tiers_full_frame by assumption.
    now rewrite app_nil_r.
Qed.

End ScreenshotHandler.

(* ------------------------------------------------------------------ *)
(** * The iterations of a flow step, case by case *)
(* ------------------------------------------------------------------ *)

Section StepCases.

Context {E : Env}.

Lemma bind_ok_prepend {A B} (m : M A) (k : A -> M B) (a : A)
    (s s1 : State) (t1 : Trace) :
  m s = (Ok a, s1, t1) -> bind m k s = prepend t1 (k a s1).
Proof. intros H. unfold bind, prepend. now rewrite H. Qed.

Lemma prepend_nil {A} (o : Res A * State * Trace) : prepend [] o = o.
Proof. now destruct o as [[r s] t]. Qed.

Lemma prepend_prepend {A} (t t' : Trace) (o : Res A * State * Trace) :
  prepend t (prepend t' o) = prepend (t ++ t')%list o.
Proof. destruct o as [[r s] t'']. simpl. now rewrite app_assoc. Qed.

Lemma sleep_run (ms : Z) (s : State) :
  sleep ms s = (Ok tt, after_delay ms s, [EvSleep ms]).
Proof. reflexivity. Qed.

Variables (ctx : ToolContext) (depth flowStart maxDuration : Z).
Variable cur : option string.
Variables (step : FlowStep) (i : Z).

Abbreviation body := (step_body ctx depth flowStart maxDuration cur step i).
Abbreviation catch := (step_catch ctx depth cur step i).
Abbreviation result := (step_result step i).

Lemma in_budget_test (s : State) :
  in_budget flowStart maxDuration s -> (now (device s) - flowStart >? maxDuration) = false.
Proof.
  unfold in_budget. intros H.
  destruct (Z.gtb_spec (now (device s) - flowStart) maxDuration); auto.
  lia.
Qed.

Lemma step_body_timeout iter last next (s : State) :
  ~ in_budget flowStart maxDuration s -> body iter last next s = (Ok (LoopEnd last), s, []).
Proof.
  unfold in_budget. intros H. unfold step_body. rewrite bind_date_now.
  destruct (Z.gtb_spec (now (device s) - flowStart) maxDuration);
    [reflexivity | lia].
Qed.

Lemma step_body_dispatch_throws iter last next (s s1 : State) e t1 :
  in_budget flowStart maxDuration s ->
  ctx_handleTool ctx (step_action step) (stepArgs cur step) (depth + 1) s
  = (Throw e, s1, t1) ->
  body iter last next s
  = prepend [attempt_event depth cur step t1]
      (catch (now (device s)) iter last e next s1).
Proof.
  intros Hb Hcall. unfold step_body.
  rewrite bind_date_now, in_budget_test, bind_date_now by assumption.
  rewrite (bind_ok_prepend _ _ (inr e) s s1 [attempt_event depth cur step t1]).
  - reflexivity.
  - apply attempt_throw. now apply call_result.
Qed.

Lemma step_body_dispatch_fails iter last next (s s1 : State) f t1 :
  in_budget flowStart maxDuration s ->
  (forall e, f <> Thrown e) ->
  ctx_handleTool ctx (step_action step) (stepArgs cur step) (depth + 1) s
  = (Fail f, s1, t1) ->
  body iter last next s = (Fail f, s1, [attempt_event depth cur step t1]).
Proof.
  intros Hb Hf Hcall. unfold step_body.
  rewrite bind_date_now, in_budget_test, bind_date_now by assumption.
  apply bind_fail. unfold attempt.
  rewrite (call_result _ _ _ _ _ _ _ _ _ Hcall).
  destruct f; try reflexivity. now destruct (Hf e).
Qed.

Lemma step_body_dispatch_returns iter last next (s s1 : State) res t1 :
  in_budget flowStart maxDuration s ->
  ctx_handleTool ctx (step_action step) (stepArgs cur step) (depth + 1) s
  = (Ok res, s1, t1) ->
  body iter last next s
  = prepend [attempt_event depth cur step t1]
      (if hasRepeatCondition step then
         match repeat_condition cur step s1 with
         | (Ok true, s2, t2) =>
             (Ok (LoopEnd (Some (succeeded step i res s s1))), s2, t2)
         | (Ok false, s2, t2) =>
             prepend (t2 ++ [EvSleep 300])%list
               (next (Some (succeeded step i res s s1)) (after_delay 300 s2))
         | (Throw condErr, s2, t2) =>
             if is_backend_unavailable condErr
             then prepend t2
                    (catch (now (device s)) iter
                       (Some (succeeded step i res s s1)) condErr next s2)
             else prepend (t2 ++ [EvSleep 300])%list
                    (next (Some (succeeded step i res s s1))
                       (after_delay 300 s2))
         | (Fail f, s2, t2) => (Fail f, s2, t2)
         end
       else next (Some (succeeded step i res s s1)) s1).
Proof.
  intros Hb Hcall. unfold step_body.
  rewrite bind_date_now, in_budget_test, bind_date_now by assumption.
  rewrite (bind_ok_prepend _ _ (inl res) s s1 [attempt_event depth cur step t1]).
  2:{ apply attempt_ok. now apply call_result. }
  f_equal. rewrite bind_date_now. fold (succeeded step i res s s1).
  destruct (hasRepeatCondition step); [|reflexivity].
  unfold bind at 1. unfold attempt.
  destruct (repeat_condition cur step s1) as [[[[|]|[condErr| |]] s2] t2];
    simpl; try reflexivity.
  - rewrite app_nil_r. reflexivity.
  - rewrite (bind_ok_prepend (sleep 300) _ tt s2 (after_delay 300 s2)
               [EvSleep 300]) by reflexivity.
    destruct (next _ _) as [[r s3] t3]. simpl.
    now rewrite <- app_assoc.
  - destruct (is_backend_unavailable condErr).
    + reflexivity.
    + rewrite (bind_ok_prepend (sleep 300) _ tt s2 (after_delay 300 s2)
                 [EvSleep 300]) by reflexivity.
      destruct (next _ _) as [[r s3] t3]. simpl.
      now rewrite <- app_assoc.
Qed.

(** The [catch]: the fallbacks of [if_not_found]. *)

Lemma step_catch_skip stepStart iter last e next (s : State) :
  is_not_found e = true ->
  step_if_not_found step = Some "skip" ->
  catch stepStart iter last e next s
  = (Ok (LoopEnd (Some (result true "Skipped (element not found)"
                          (now (device s) - stepStart)))), s, []).
Proof.
  intros Hnf Hinf. unfold step_catch.
  rewrite bind_date_now. cbv zeta. rewrite Hnf, Hinf. reflexivity.
Qed.

Lemma step_catch_scroll stepStart iter last e next (s : State) inf :
  is_not_found e = true ->
  step_if_not_found step = Some inf ->
  is_scroll inf ->
  catch stepStart iter last e next s
  = match ctx_handleTool ctx "swipe"
            (swipe_args cur
               (if String.eqb inf "scroll_down" then "up" else "down"))
            (depth + 1) s with
    | (Ok _, s2, t2) =>
        match ctx_handleTool ctx (step_action step) (stepArgs cur step)
                (depth + 1) (after_delay 300 s2) with
        | (Ok retryResult, s4, t4) =>
            (Ok (LoopEnd
                   (Some (result true
                            (JsString.slice0 150 (result_text retryResult)
                             ++ " (after " ++ inf ++ ")")
                            (now (device s4) - stepStart)))),
             s4, [swipe_event depth cur inf t2; EvSleep 300; retry_event depth cur step t4])
        | (Throw retryErr, s4, t4) =>
            (Ok (LoopEnd
                   (Some (result false
                            (err_message retryErr ++ " (after " ++ inf
                             ++ ")")
                            (now (device s4) - stepStart)))),
             s4, [swipe_event depth cur inf t2; EvSleep 300; retry_event depth cur step t4])
        | (Fail f, s4, t4) =>
            (Fail f, s4, [swipe_event depth cur inf t2; EvSleep 300; retry_event depth cur step t4])
        end
    | (Throw swipeErr, s2, t2) =>
        (Ok (LoopEnd
               (Some (result false
                        (err_message swipeErr ++ " (after " ++ inf ++ ")")
                        (now (device s2) - stepStart)))),
         s2, [swipe_event depth cur inf t2])
    | (Fail f, s2, t2) => (Fail f, s2, [swipe_event depth cur inf t2])
    end.
Proof.
  intros Hnf Hinf Hscroll. unfold step_catch.
  rewrite bind_date_now. cbv zeta. rewrite Hnf, Hinf.
  cbn [andb truthy_opt or_else].
  assert (Htruthy : JsString.truthy inf = true)
    by (destruct Hscroll as [-> | ->]; reflexivity).
  assert (Hskip : String.eqb inf "skip" = false)
    by (destruct Hscroll as [-> | ->]; reflexivity).
  assert (Hsc : String.eqb inf "scroll_down" || String.eqb inf "scroll_up"
                = true)
    by (destruct Hscroll as [-> | ->]; reflexivity).
  rewrite Htruthy, Hskip, Hsc.
  unfold bind at 1. unfold attempt, scroll_and_retry.
  unfold bind at 1. unfold call at 1. fold (swipe_args cur
    (if String.eqb inf "scroll_down" then "up" else "down")).
  destruct (ctx_handleTool ctx "swipe" _ (depth + 1) s)
    as [[[sw|[swipeErr| |]] s2] t2]; try reflexivity.
  unfold bind at 1. rewrite sleep_run.
  unfold bind at 1. unfold call at 1.
  destruct (ctx_handleTool ctx (step_action step) (stepArgs cur step)
              (depth + 1) (after_delay 300 s2))
    as [[[retryResult|[retryErr| |]] s4] t4]; reflexivity.
Qed.

(** The [catch]: no fallback applies, [on_error] decides. *)
Lemma step_catch_on_error stepStart iter last e next (s : State) :
  is_not_found e && truthy_opt (step_if_not_found step) = false ->
  catch stepStart iter last e next s
  = (if String.eqb (onError step) "retry"
        && (iter <? maxIterations step - 1)
     then prepend [EvSleep 300] (next last (after_delay 300 s))
     else
       let failed :=
         result false (err_message e) (now (device s) - stepStart) in
       if String.eqb (onError step) "stop"
       then (Ok (FlowReturn failed), s, [])
       else (Ok (LoopEnd (Some failed)), s, [])).
Proof.
  intros Hno. unfold step_catch.
  rewrite bind_date_now. cbv zeta. rewrite Hno.
  destruct (String.eqb (onError step) "retry"
            && (iter <? maxIterations step - 1)).
  - now rewrite (bind_ok_prepend _ _ tt s (after_delay 300 s)
                   [EvSleep 300]).
  - destruct (String.eqb (onError step) "stop"); reflexivity.
Qed.

End StepCases.

(* ------------------------------------------------------------------ *)
(** * Counting the calls of a step *)
(* ------------------------------------------------------------------ *)

Section Counting.

Context {E : Env}.

Lemma calls_at_app site (t1 t2 : Trace) :
  calls_at site (t1 ++ t2)%list
  = (calls_at site t1 + calls_at site t2)%nat.
Proof. unfold calls_at. now rewrite map_app, list_sum_app. Qed.

Variable site : CallSite.

Lemma calls_none {A} (m : M A) :
  emits_only (fun ev => at_site site ev = 0%nat) m ->
  calls_at_most site 0 m.
Proof.
  intros H s. specialize (H s). unfold calls_at.
  induction H as [|ev tr Hev Htr IH]; simpl; auto.
  rewrite Hev. exact IH.
Qed.

Lemma calls_weaken {A} (m : M A) (n n' : nat) :
  calls_at_most site n m -> (n <= n')%nat -> calls_at_most site n' m.
Proof. intros H Hle s. specialize (H s). lia. Qed.

Lemma calls_ret {A} (a : A) (n : nat) : calls_at_most site n (ret a).
Proof. intros s. simpl. unfold calls_at. simpl. lia. Qed.

Lemma calls_bind {A B} (m : M A) (k : A -> M B) (n1 n2 : nat) :
  calls_at_most site n1 m -> (forall a, calls_at_most site n2 (k a)) ->
  calls_at_most site (n1 + n2) (bind m k).
Proof.
  intros Hm Hk s. unfold bind, trace_of. specialize (Hm s).
  destruct (m s) as [[[a|f] s1] t1]; simpl in *; [|lia].
  specialize (Hk a s1). destruct (k a s1) as [[r s2] t2]; simpl in *.
  rewrite calls_at_app. lia.
Qed.

(** A first part that makes no call at [site] costs nothing. *)
Lemma calls_bind_free {A B} (m : M A) (k : A -> M B) (n : nat) :
  emits_only (fun ev => at_site site ev = 0%nat) m ->
  (forall a, calls_at_most site n (k a)) ->
  calls_at_most site n (bind m k).
Proof.
  intros Hm Hk. change n with (0 + n)%nat.
  apply calls_bind; auto. now apply calls_none.
Qed.

Lemma calls_attempt {A} (m : M A) (n : nat) :
  calls_at_most site n m -> calls_at_most site n (attempt m).
Proof.
  intros Hm s. unfold attempt, trace_of. specialize (Hm s).
  destruct (m s) as [[[a|[e| |]] s1] t1]; simpl in *; auto.
Qed.

Lemma calls_call site' ctx name args depth :
  calls_at_most site 1 (call site' ctx name args depth).
Proof.
  intros s. unfold call, trace_of.
  destruct (ctx_handleTool ctx name args depth s) as [[r s1] inner].
  unfold calls_at. simpl. destruct (site_eqb site' site); lia.
Qed.

End Counting.

Ltac no_calls :=
  repeat emits_step; try reflexivity.

Section StepCounting.

Context {E : Env}.

Variables (ctx : ToolContext) (depth flowStart maxDuration : Z).
Variable cur : option string.
Variables (step : FlowStep) (i : Z).
Variable site : CallSite.

(** [once]: the calls of one attempt at [site]; [fallback]: those of
    the scroll fallback; [n]: those of the iterations that follow. *)
Variables (once fallback n : nat).
Hypothesis attempt_cost :
  forall inner,
    (at_site site
       (EvCall FlowStepAttempt (step_action step) (stepArgs cur step)
          (depth + 1) inner) <= once)%nat.
Hypothesis fallback_cost :
  forall stepStart inf,
    calls_at_most site fallback
      (scroll_and_retry ctx depth cur step i stepStart inf).
Hypothesis fallback_fits : (fallback <= n)%nat.

Lemma step_catch_calls stepStart iter last error next :
  (forall l, calls_at_most site n (next l)) ->
  calls_at_most site n
    (step_catch ctx depth cur step i stepStart iter last error next).
Proof.
  intros Hnext. unfold step_catch.
  apply calls_bind_free; [no_calls | intros t]. cbv zeta.
  destruct (is_not_found error && truthy_opt (step_if_not_found step)).
  - destruct (String.eqb _ "skip"); [apply calls_ret|].
    destruct (String.eqb _ "scroll_down" || String.eqb _ "scroll_up");
      [|apply calls_ret].
    apply calls_weaken with (n := (fallback + 0)%nat); [|lia].
    apply calls_bind.
    + apply calls_attempt, fallback_cost.
    + intros [r|retryErr]; [apply calls_ret|].
      apply calls_bind_free; [no_calls | intros; apply calls_ret].
  - destruct (String.eqb (onError step) "retry"
              && (iter <? maxIterations step - 1)).
    + apply calls_bind_free; [no_calls | intros; apply Hnext].
    + destruct (String.eqb (onError step) "stop"); apply calls_ret.
Qed.

Lemma repeat_condition_no_calls :
  emits_only (fun ev => at_site site ev = 0%nat)
    (repeat_condition cur step).
Proof. unfold repeat_condition. no_calls. Qed.

Lemma step_body_calls iter last next :
  (forall l, calls_at_most site n (next l)) ->
  calls_at_most site (once + n)
    (step_body ctx depth flowStart maxDuration cur step i iter last next).
Proof.
  intros Hnext. unfold step_body.
  apply calls_bind_free; [no_calls | intros t0].
  destruct (t0 - flowStart >? maxDuration); [apply calls_ret|].
  apply calls_bind_free; [no_calls | intros stepStart].
  apply calls_bind.
  - apply calls_attempt. intros s. unfold call, trace_of.
    destruct (ctx_handleTool ctx _ _ _ s) as [[r s1] inner].
    unfold calls_at. simpl. specialize (attempt_cost inner).
    simpl in attempt_cost. lia.
  - intros [res|error]; [|now apply step_catch_calls].
    apply calls_bind_free; [no_calls | intros t1]. cbv zeta.
    destruct (hasRepeatCondition step); [|apply Hnext].
    apply calls_bind_free.
    { apply emits_only_attempt, repeat_condition_no_calls. }
    intros [[|]|condErr].
    + apply calls_ret.
    + apply calls_bind_free; [no_calls | intros; apply Hnext].
    + destruct (is_backend_unavailable condErr).
      * now apply step_catch_calls.
      * apply calls_bind_free; [no_calls | intros; apply Hnext].
Qed.

End StepCounting.

(* ------------------------------------------------------------------ *)
(** * The repeat loop: its bound and its early exit *)
(* ------------------------------------------------------------------ *)

Section RepeatLoop.

Context {E : Env}.

Variables (ctx : ToolContext) (depth flowStart maxDuration : Z).
Variable cur : option string.
Variables (step : FlowStep) (i : Z).

Abbreviation iters :=
  (step_iters ctx depth flowStart maxDuration cur step i).

Lemma maxIterations_capped : maxIterations step <= FLOW_MAX_REPEAT.
Proof.
  unfold maxIterations, repeatTimes, FLOW_MAX_REPEAT.
  destruct (hasRepeatCondition step); [lia|].
  destruct (step_repeat step) as [r|]; [|lia].
  destruct (repeat_times r) as [n|]; [|lia].
  destruct (n =? 0); lia.
Qed.

Lemma scroll_and_retry_no_attempt stepStart inf :
  calls_at_most FlowStepAttempt 0
    (scroll_and_retry ctx depth cur step i stepStart inf).
Proof. apply calls_none. unfold scroll_and_retry. no_calls. Qed.

Lemma scroll_and_retry_one_swipe stepStart inf :
  calls_at_most FlowFallbackSwipe 1
    (scroll_and_retry ctx depth cur step i stepStart inf).
Proof.
  unfold scroll_and_retry. change 1%nat with (1 + 0)%nat.
  apply calls_bind; [apply calls_call | intros _].
  apply calls_none. no_calls.
Qed.

Lemma scroll_and_retry_one_retry stepStart inf :
  calls_at_most FlowFallbackRetry 1
    (scroll_and_retry ctx depth cur step i stepStart inf).
Proof.
  unfold scroll_and_retry.
  apply calls_bind_free; [no_calls | intros _].
  apply calls_bind_free; [no_calls | intros _].
  change 1%nat with (1 + 0)%nat.
  apply calls_bind; [apply calls_call | intros r].
  apply calls_none. no_calls.
Qed.

(** An iteration dispatches the step once at its top. *)
Lemma step_iters_attempts (fuel : nat) :
  forall iter last, calls_at_most FlowStepAttempt fuel (iters fuel iter last).
Proof.
  induction fuel as [|fuel IH]; intros iter last; simpl.
  - apply calls_ret.
  - change (S fuel) with (1 + fuel)%nat.
    apply step_body_calls with (fallback := 0%nat).
    + intros inner. simpl. lia.
    + apply scroll_and_retry_no_attempt.
    + lia.
    + intros l. apply IH.
Qed.

(** The scroll fallback runs at most once in the whole loop. *)
Lemma step_iters_fallbacks (site : CallSite) (fuel : nat) :
  site = FlowFallbackSwipe \/ site = FlowFallbackRetry ->
  forall iter last, calls_at_most site 1 (iters fuel iter last).
Proof.
  intros Hsite. induction fuel as [|fuel IH]; intros iter last; simpl.
  - apply calls_ret.
  - change 1%nat with (0 + 1)%nat.
    apply step_body_calls with (fallback := 1%nat).
    + intros inner. destruct Hsite as [-> | ->]; simpl; lia.
    + intros stepStart inf. destruct Hsite as [-> | ->].
      * apply scroll_and_retry_one_swipe.
      * apply scroll_and_retry_one_retry.
    + lia.
    + intros l. apply IH.
Qed.

(** What the repeat condition answers, from what the capture shows. *)

Lemma until_found_holds (s s' : State) (t : Trace)
    (elements found : list UiElement) :
  getElementsForPlatform cur s = (Ok elements, s', t) ->
  truthy_opt (untilFound step) = true ->
  findElements elements (mkFindCriteria (untilFound step) None None)
  = Ok found ->
  found <> [] ->
  repeat_condition cur step s = (Ok true, s', t).
Proof.
  intros Hcap Huf Hfind Hne. unfold repeat_condition.
  rewrite (bind_ok_prepend _ _ _ _ _ _ Hcap), Huf, Hfind.
  destruct found as [|el found]; [congruence|].
  unfold lift, bind, ret. simpl. now rewrite app_nil_r.
Qed.

Lemma until_found_pending (s s' : State) (t : Trace)
    (elements : list UiElement) :
  getElementsForPlatform cur s = (Ok elements, s', t) ->
  truthy_opt (untilFound step) = true ->
  findElements elements (mkFindCriteria (untilFound step) None None)
  = Ok [] ->
  truthy_opt (untilNotFound step) = false ->
  repeat_condition cur step s = (Ok false, s', t).
Proof.
  intros Hcap Huf Hfind Hunf. unfold repeat_condition.
  rewrite (bind_ok_prepend _ _ _ _ _ _ Hcap), Huf, Hfind, Hunf.
  unfold lift, bind, ret. simpl. now rewrite app_nil_r.
Qed.

Lemma until_not_found_decides (s s' : State) (t : Trace)
    (elements found : list UiElement) :
  getElementsForPlatform cur s = (Ok elements, s', t) ->
  truthy_opt (untilFound step) = false
  \/ findElements elements (mkFindCriteria (untilFound step) None None)
     = Ok [] ->
  truthy_opt (untilNotFound step) = true ->
  findElements elements (mkFindCriteria (untilNotFound step) None None)
  = Ok found ->
  repeat_condition cur step s = (Ok (is_nil found), s', t).
Proof.
  intros Hcap Huf Hunf Hfind. unfold repeat_condition.
  rewrite (bind_ok_prepend _ _ _ _ _ _ Hcap), Hunf, Hfind.
  destruct (truthy_opt (untilFound step)) eqn:Htruthy.
  - destruct Huf as [Huf | Huf]; [discriminate|]. rewrite Huf.
    unfold lift, bind, ret. simpl. now rewrite app_nil_r.
  - unfold lift, bind, ret. simpl. now rewrite app_nil_r.
Qed.

(** C4, as the code has it. The loop of a step runs at most
    [FLOW_MAX_REPEAT] = 10 iterations: a fixed count above 10 is cut to
    10, and a loop with [until_found] / [until_not_found] is given 10.
    Each iteration dispatches the step once; the scroll fallback
    dispatches it at most once more in the whole loop, after its one
    swipe. An iteration whose dispatch returned and whose repeat
    condition holds ends the loop, whatever the iterations left; the
    condition holds when the capture shows an element for [until_found],
    and otherwise when it shows none for [until_not_found]. *)
Theorem repeat_loop_is_capped :
  (maxIterations step <= FLOW_MAX_REPEAT /\ FLOW_MAX_REPEAT = 10)
  /\ (forall r n,
        step_repeat step = Some r -> repeat_times r = Some n ->
        n > FLOW_MAX_REPEAT -> hasRepeatCondition step = false ->
        maxIterations step = FLOW_MAX_REPEAT)
  /\ (hasRepeatCondition step = true ->
       maxIterations step = FLOW_MAX_REPEAT)
  /\ (forall s,
        let tr := trace_of
                    (run_step ctx depth flowStart maxDuration cur step i s)
        in
        (calls_at FlowStepAttempt tr <= Z.to_nat (maxIterations step))%nat
        /\ (calls_at FlowStepAttempt tr <= 10)%nat
        /\ (calls_at FlowFallbackSwipe tr <= 1)%nat
        /\ (calls_at FlowFallbackRetry tr <= 1)%nat)
  /\ (forall fuel iter last s res s1 t1 s2 t2,
        in_budget flowStart maxDuration s ->
        ctx_handleTool ctx (step_action step) (stepArgs cur step)
          (depth + 1) s = (Ok res, s1, t1) ->
        hasRepeatCondition step = true ->
        repeat_condition cur step s1 = (Ok true, s2, t2) ->
        iters (S fuel) iter last s
        = (Ok (LoopEnd (Some (succeeded step i res s s1))), s2,
           attempt_event depth cur step t1 :: t2))
  /\ (forall s s' t elements found,
        getElementsForPlatform cur s = (Ok elements, s', t) ->
        truthy_opt (untilFound step) = true ->
        findElements elements (mkFindCriteria (untilFound step) None None)
        = Ok found ->
        found <> [] ->
        repeat_condition cur step s = (Ok true, s', t))
  /\ (forall s s' t elements found,
        getElementsForPlatform cur s = (Ok elements, s', t) ->
        truthy_opt (untilFound step) = false
        \/ findElements elements
             (mkFindCriteria (untilFound step) None None)
           = Ok [] ->
        truthy_opt (untilNotFound step) = true ->
        findElements elements
          (mkFindCriteria (untilNotFound step) None None)
        = Ok found ->
        repeat_condition cur step s = (Ok (is_nil found), s', t)).
Proof.
  pose proof maxIterations_capped as Hcap.
  repeat split.
  - exact Hcap.
  - intros r n Hr Hn Hgt Hno.
    unfold maxIterations, repeatTimes. rewrite Hno, Hr, Hn.
    unfold FLOW_MAX_REPEAT in *.
    destruct (Z.eqb_spec n 0); lia.
  - intros Hcond. unfold maxIterations. now rewrite Hcond.
  - apply step_iters_attempts.
  - pose proof (step_iters_attempts (Z.to_nat (maxIterations step)) 0 None
                  s) as H.
    unfold run_step. unfold FLOW_MAX_REPEAT in Hcap. lia.
  - apply step_iters_fallbacks. now left.
  - apply step_iters_fallbacks. now right.
  - intros fuel iter last s res s1 t1 s2 t2 Hb Hcall Hcond Hrc. simpl.
    erewrite step_body_dispatch_returns by eassumption.
    rewrite Hcond, Hrc. reflexivity.
  - apply until_found_holds.
  - apply until_not_found_decides.
Qed.

End RepeatLoop.

(* ------------------------------------------------------------------ *)
(** * Failures of a step: fallbacks and error policy *)
(* ------------------------------------------------------------------ *)

Section StepFailures.

Context {E : Env}.

Variables (ctx : ToolContext) (depth flowStart maxDuration : Z).
Variable cur : option string.
Variables (step : FlowStep) (i : Z).

Abbreviation body' :=
  (step_body ctx depth flowStart maxDuration cur step i).
Abbreviation flow :=
  (flow_steps ctx depth flowStart maxDuration cur).
Abbreviation dispatch_step :=
  (ctx_handleTool ctx (step_action step) (stepArgs cur step) (depth + 1)).
Abbreviation event := (attempt_event depth cur step).

(** What the loop over the steps does with the way the loop of one step
    ended. *)
Lemma flow_steps_cons (rest : list FlowStep)
    (results : list FlowStepResult) (s s1 : State) (exit : LoopExit)
    (t1 : Trace) :
  in_budget flowStart maxDuration s ->
  run_step ctx depth flowStart maxDuration cur step i s = (Ok exit, s1, t1) ->
  flow i (step :: rest) results s
  = match exit with
    | FlowReturn last => (Ok (results ++ [last])%list, s1, t1)
    | LoopEnd (Some last) =>
        if negb (fsr_success last) && String.eqb (onError step) "stop"
        then (Ok (results ++ [last])%list, s1, t1)
        else prepend t1 (flow (i + 1) rest (results ++ [last])%list s1)
    | LoopEnd None => prepend t1 (flow (i + 1) rest results s1)
    end.
Proof.
  intros Hb Hrun. simpl.
  rewrite bind_date_now, (in_budget_test _ _ _ Hb).
  rewrite (bind_ok_prepend _ _ _ _ _ _ Hrun).
  destruct exit as [[last|]|last]; try reflexivity.
  - fold (onError step).
    destruct (negb (fsr_success last) && String.eqb (onError step) "stop");
      [|reflexivity].
    simpl. now rewrite app_nil_r.
  - simpl. now rewrite app_nil_r.
Qed.

(** X28. The fallbacks of [if_not_found] are for errors that are
    thrown. A step whose dispatch throws an error whose message has
    "not found" or "No element" in it, with [if_not_found] set:
    - "skip": the iteration ends the loop with a success whose message is
      "Skipped (element not found)", and nothing else is called;
    - "scroll_down" / "scroll_up": one swipe is dispatched, "up" for
      scroll_down and "down" for scroll_up. If the swipe throws, the step
      is not dispatched again and the failure of the swipe is the result
      of the step. If it returns, 300 ms pass, the step is dispatched
      once more, and its outcome is the result of the step: a success
      with its text, or a failure with its message, each marked "(after
      scroll_...)".
    In each case the loop of the step ends there, and its result is
    appended to the results of the flow, which goes on with the next
    step unless the result is a failure under [on_error] "stop". *)
Theorem not_found_fallbacks (iter : Z) (last : option FlowStepResult)
    (next : option FlowStepResult -> M LoopExit) (s s1 : State)
    (e : JsError) (t1 : Trace) :
  in_budget flowStart maxDuration s ->
  dispatch_step s = (Throw e, s1, t1) ->
  is_not_found e = true ->
  let stepStart := now (device s) in
  (step_if_not_found step = Some "skip" ->
     body' iter last next s
     = (Ok (LoopEnd (Some (step_result step i true
                             "Skipped (element not found)"
                             (now (device s1) - stepStart)))),
        s1, [event t1]))
  /\ (forall inf,
        step_if_not_found step = Some inf -> is_scroll inf ->
        let swipe :=
          ctx_handleTool ctx "swipe"
            (swipe_args cur
               (if String.eqb inf "scroll_down" then "up" else "down"))
            (depth + 1) in
        let marked (msg : string) := msg ++ " (after " ++ inf ++ ")" in
        (forall swipeErr s2 t2,
            swipe s1 = (Throw swipeErr, s2, t2) ->
            body' iter last next s
            = (Ok (LoopEnd (Some (step_result step i false
                                    (marked (err_message swipeErr))
                                    (now (device s2) - stepStart)))),
               s2, [event t1; swipe_event depth cur inf t2]))
        /\ (forall swiped s2 t2,
              swipe s1 = (Ok swiped, s2, t2) ->
              let trace t4 :=
                [event t1; swipe_event depth cur inf t2; EvSleep 300;
                 retry_event depth cur step t4] in
              (forall retryResult s4 t4,
                  dispatch_step (after_delay 300 s2)
                  = (Ok retryResult, s4, t4) ->
                  body' iter last next s
                  = (Ok (LoopEnd
                           (Some (step_result step i true
                                    (marked (JsString.slice0 150
                                               (result_text retryResult)))
                                    (now (device s4) - stepStart)))),
                     s4, trace t4))
              /\ (forall retryErr s4 t4,
                    dispatch_step (after_delay 300 s2)
                    = (Throw retryErr, s4, t4) ->
                    body' iter last next s
                    = (Ok (LoopEnd
                             (Some (step_result step i false
                                      (marked (err_message retryErr))
                                      (now (device s4) - stepStart)))),
                       s4, trace t4))))
  /\ (forall rest results s0 s' r t,
        in_budget flowStart maxDuration s0 ->
        run_step ctx depth flowStart maxDuration cur step i s0
        = (Ok (LoopEnd (Some r)), s', t) ->
        flow i (step :: rest) results s0
        = (if negb (fsr_success r) && String.eqb (onError step) "stop"
           then (Ok (results ++ [r])%list, s', t)
           else prepend t (flow (i + 1) rest (results ++ [r])%list s'))).
Proof.
  intros Hb Hcall Hnf stepStart.
  pose proof (step_body_dispatch_throws ctx depth flowStart maxDuration
                cur step i iter last next s s1 e t1 Hb Hcall) as Hbody.
  split; [|split].
  - intros Hskip. rewrite Hbody.
    now rewrite (step_catch_skip _ _ _ _ _ _ _ _ _ _ _ Hnf Hskip).
  - intros inf Hinf Hscroll swipe marked.
    pose proof (step_catch_scroll ctx depth cur step i stepStart iter last
                  e next s1 inf Hnf Hinf Hscroll) as Hcatch.
    fold swipe in Hcatch. split.
    + intros swipeErr s2 t2 Hsw. rewrite Hbody.
      fold stepStart. now rewrite Hcatch, Hsw.
    + intros swiped s2 t2 Hsw trace. split.
      * intros retryResult s4 t4 Hretry. rewrite Hbody.
        fold stepStart. now rewrite Hcatch, Hsw, Hretry.
      * intros retryErr s4 t4 Hretry. rewrite Hbody.
        fold stepStart. now rewrite Hcatch, Hsw, Hretry.
  - intros rest results s0 s' r t Hb0 Hrun.
    now rewrite (flow_steps_cons rest results s0 s' _ t Hb0 Hrun).
Qed.

(** The [catch] of an iteration reads the message of the error and
    nothing else. *)
Lemma step_catch_ignores_class stepStart iter last next (e e' : JsError)
    (s : State) :
  err_message e = err_message e' ->
  step_catch ctx depth cur step i stepStart iter last e next s
  = step_catch ctx depth cur step i stepStart iter last e' next s.
Proof.
  intros Hmsg. unfold step_catch, is_not_found. now rewrite Hmsg.
Qed.


End StepFailures.

(* ------------------------------------------------------------------ *)
(** * Runs on the scripted backend *)
(* ------------------------------------------------------------------ *)

Module Counterexamples.

Import Sim.
Import Runs.


(** C4 as stated does not hold. The step succeeds nine times and fails
    with "Element not found" in the tenth iteration; the scroll fallback
    swipes and dispatches the step once more: eleven dispatches of the
    step for one entry of the flow. So the dispatches of a step are not
    always ten at most. *)
Lemma step_dispatched_eleven_times :
  (let out := run_flow_handler ten_times_with_scroll ctx 0
                (android [] [] (repeat (Ok "done") 9 ++ [not_found])%list)
   in
   result_of out
   = lines ["Flow completed (420ms)"; EmptyString;
            "1. find_and_tap: OK — done (after scroll_down) (330ms)"]
   /\ List.length
        (filter (named "find_and_tap") (dispatches (trace_of out)))
      = 11%nat
   /\ calls_at FlowStepAttempt (trace_of out) = 10%nat
   /\ calls_at FlowFallbackSwipe (trace_of out) = 1%nat
   /\ calls_at FlowFallbackRetry (trace_of out) = 1%nat)
  /\ ~ (forall (E : Env) (ctx : ToolContext)
           (depth flowStart maxDuration : Z) (cur : option string)
           (step : FlowStep) (i : Z) (s : State),
          let tr :=
            trace_of (run_step ctx depth flowStart maxDuration cur step i s)
          in
          (calls_at FlowStepAttempt tr + calls_at FlowFallbackRetry tr
           <= 10)%nat).
Proof.
  split; [repeat split; vm_compute; reflexivity|].
  intros H.
  specialize (H Sim.env ctx 0 0 30000 (Some "android") ten_times_step 0
                (android [] [] (repeat (Ok "done") 9 ++ [not_found])%list)).
  vm_compute in H. lia.
Qed.

(** A scroll fallback does not always retry the step. The dispatch
    throws "Element not found", the swipe of the fallback throws too:
    the step is not dispatched again, and the failure of the swipe is
    what the flow records. *)
Lemma failed_swipe_means_no_retry :
  (let out := run_flow_handler find_with_scroll ctx 0
                (android [] [] [not_found; Throw swipe_failed])
   in
   result_of out
   = lines ["Flow completed (20ms)"; EmptyString;
            "1. find_and_tap: FAIL — swipe failed (after scroll_down) (20ms)"]
   /\ dispatches (trace_of out)
      = [(FlowStepAttempt, "find_and_tap", [("platform", JStr "android")],
          1);
         (FlowFallbackSwipe, "swipe",
          [("direction", JStr "up"); ("platform", JStr "android")], 1)]
   /\ calls_at FlowFallbackRetry (trace_of out) = 0%nat)
  /\ ~ (forall (E : Env) (ctx : ToolContext)
           (depth flowStart maxDuration : Z) (cur : option string)
           (step : FlowStep) (i iter : Z) (last : option FlowStepResult)
           (next : option FlowStepResult -> M LoopExit) (s s1 : State)
           (e : JsError) (t1 : Trace) (inf : string),
          in_budget flowStart maxDuration s ->
          ctx_handleTool ctx (step_action step) (stepArgs cur step)
            (depth + 1) s = (Throw e, s1, t1) ->
          is_not_found e = true ->
          step_if_not_found step = Some inf ->
          is_scroll inf ->
          let tr :=
            trace_of
              (step_body ctx depth flowStart maxDuration cur step i iter
                 last next s) in
          calls_at FlowFallbackSwipe tr = 1%nat
          /\ calls_at FlowFallbackRetry tr = 1%nat).
Proof.
  split; [repeat split; vm_compute; reflexivity|].
  intros H.
  assert (Hb : in_budget 0 30000
                 (android [] [] [not_found; Throw swipe_failed]))
    by (unfold in_budget; simpl; lia).
  specialize (H Sim.env ctx 0 0 30000 (Some "android") scroll_step 0 0 None
                no_next (android [] [] [not_found; Throw swipe_failed])
                (state_of (mkBackend 10 (Some "android") [] [] []
                             [Throw swipe_failed]))
                element_not_found
                [EvInvoke "find_and_tap" [("platform", JStr "android")] 1]
                "scroll_down" Hb eq_refl eq_refl eq_refl
                (or_introl eq_refl)).
  vm_compute in H. destruct H as [_ H]. discriminate.
Qed.

(** C5. The scenario of the specification, on the tools of the
    repository: a flow whose first step taps the text "Submit", with a
    fallback, on a screen that shows only "Login". The tap tool does
    not throw, it
    returns "Element not found: Submit"; so run_flow never reaches its
    [catch], where the fallbacks are: under "skip", "scroll_down" and
    "scroll_up" alike the step is recorded as a success with that text,
    not as skipped, no swipe is sent and the step is dispatched once. *)
Lemma returned_not_found_gets_no_fallback :
  let run (if_not_found : string) :=
    run_flow_handler (MoreRuns.submit_then_tap if_not_found) ctx 0
      MoreRuns.login_screen in
  let report :=
    lines ["Flow completed (20ms)"; EmptyString;
           "1. tap: OK — Element not found: Submit (10ms)";
           "2. tap: OK — Tapped at (1, 1) (10ms)"] in
  let dispatched :=
    [(FlowStepAttempt, "tap",
      [("text", JStr "Submit"); ("platform", JStr "android")], 1);
     (FlowStepAttempt, "tap",
      [("x", JNum 1); ("y", JNum 1); ("platform", JStr "android")], 1)] in
  result_of
    (tap_handler [("text", JStr "Submit"); ("platform", JStr "android")]
       ctx 1 MoreRuns.login_screen)
  = Ok (text_response "Element not found: Submit")
  /\ is_not_found (mkError PlainError "Element not found: Submit") = true
  /\ (result_of (run "skip") = report
      /\ dispatches (trace_of (run "skip")) = dispatched)
  /\ (result_of (run "scroll_down") = report
      /\ dispatches (trace_of (run "scroll_down")) = dispatched)
  /\ (result_of (run "scroll_up") = report
      /\ dispatches (trace_of (run "scroll_up")) = dispatched).
Proof. repeat split; vm_compute; reflexivity. Qed.

End Counterexamples.

(* ------------------------------------------------------------------ *)
(** * The theorems at work on the scripted backend *)
(* ------------------------------------------------------------------ *)

Module Instances.

Import Sim.
Import Runs.

Lemma run_flow_rejects_disallowed_action_witness :
  flow_allowed "run_flow" = false
  /\ exists r,
       run_flow_handler nested_flow ctx 0 (android [] [] [])
       = (r, android [] [] [], []).
Proof.
  split; [reflexivity|].
  destruct (run_flow_rejects_disallowed_action nested_flow ctx 0
              (android [] [] [])
              (mkFlowArgs None
                 (Some [mkFlowStep "tap"
                          (Some [("x", JNum 1); ("y", JNum 1)])
                          None None None None;
                        mkFlowStep "run_flow" None None None None None])
                 None)
              _ (mkFlowStep "run_flow" None None None None None)
              eq_refl eq_refl)
    as (r & Hrun & _).
  - simpl. auto.
  - reflexivity.
  - exists r. exact Hrun.
Defined.

Lemma run_flow_dispatches_on_flow_platform_witness :
  Forall (flow_event 0 (Some "ios") [mixed_step])
    (trace_of (run_flow_handler mixed_flow ctx 0 (android [] [] [])))
  /\ dispatches
       (trace_of (run_flow_handler mixed_flow ctx 0 (android [] [] [])))
     = [(FlowStepAttempt, "tap",
         [("x", JNum 1); ("y", JNum 1); ("platform", JStr "ios")], 1)].
Proof.
  split.
  - exact (run_flow_dispatches_on_flow_platform mixed_flow ctx 0
             (android [] [] [])
             (mkFlowArgs (Some "ios") (Some [mixed_step]) None) eq_refl).
  - vm_compute. reflexivity.
Defined.

Lemma batch_commands_stops_after_first_error_witness :
  0 <= MAX_RECURSION_DEPTH
  /\ result_of (batch_commands_handler (three_commands []) ctx 0 state0)
     = lines ["Batch: 2/3 executed, 1 failed"; EmptyString;
              "1. ok_tool: OK — ok"; "2. failing_tool: ERROR — boom"]
  /\ result_of
       (batch_commands_handler
          (three_commands [("stopOnError", JBool false)]) ctx 0 state0)
     = lines ["Batch: 3/3 executed, 1 failed"; EmptyString;
              "1. ok_tool: OK — ok"; "2. failing_tool: ERROR — boom";
              "3. ok_tool: OK — ok"].
Proof.
  assert (Hdepth : 0 <= MAX_RECURSION_DEPTH) by (unfold MAX_RECURSION_DEPTH; lia).
  destruct (batch_commands_stops_after_first_error ctx 0 Hdepth)
    as (_ & _ & Hscenario).
  split; [exact Hdepth | split].
  - rewrite (proj1 (Hscenario (three_commands []) _ _ _
                      (mkCommand "ok_tool" None)
                      (mkCommand "failing_tool" None)
                      (mkCommand "ok_tool" None)
                      state0 (text_response "ok") (mkError PlainError "boom")
                      (text_response "ok") state0 state0 state0
                      [EvInvoke "ok_tool" [] 1]
                      [EvInvoke "failing_tool" [] 1]
                      [EvInvoke "ok_tool" [] 1]
                      eq_refl eq_refl eq_refl eq_refl eq_refl eq_refl
                      eq_refl)).
    reflexivity.
  - rewrite (proj1 (Hscenario (three_commands [("stopOnError", JBool false)])
                      _ _ _
                      (mkCommand "ok_tool" None)
                      (mkCommand "failing_tool" None)
                      (mkCommand "ok_tool" None)
                      state0 (text_response "ok") (mkError PlainError "boom")
                      (text_response "ok") state0 state0 state0
                      [EvInvoke "ok_tool" [] 1]
                      [EvInvoke "failing_tool" [] 1]
                      [EvInvoke "ok_tool" [] 1]
                      eq_refl eq_refl eq_refl eq_refl eq_refl eq_refl
                      eq_refl)).
    reflexivity.
Defined.

Lemma hints_failure_keeps_action_result_witness :
  let s := android [] [Throw device_offline] [] in
  let unavailable :=
    String "010" ("--- Hints ---"
      ++ String "010"
           "Unable to fetch UI state for hints: device offline") in
  let hints := ("hints", JBool true) in
  generateActionHints None s
  = (Ok unavailable,
     state_of (mkBackend 160 (Some "android") [] [] [] []),
     [EvSleep 150; EvAdapter (OpGetUiHierarchyAsync "android")])
  /\ result_of
       (tap_handler [("x", JNum 1); ("y", JNum 1); hints] ctx 0 s)
     = Ok (text_response ("Tapped at (1, 1)" ++ unavailable))
  /\ result_of
       (swipe_handler (G := MoreRuns.gestures)
          [("direction", JStr "up"); hints] ctx 0 s)
     = Ok (text_response ("Swiped up" ++ unavailable))
  /\ result_of
       (swipe_handler (G := MoreRuns.gestures)
          [("x1", JNum 1); ("y1", JNum 2); ("x2", JNum 3); ("y2", JNum 4);
           hints] ctx 0 s)
     = Ok (text_response ("Swiped from (1, 2) to (3, 4)" ++ unavailable))
  /\ result_of
       (input_text_handler (G := MoreRuns.gestures)
          [("text", JStr "hi"); hints] ctx 0 s)
     = Ok (text_response
             ("Entered text: "
              ++ String "034" ("hi" ++ String "034" unavailable)))
  /\ result_of
       (press_key_handler (G := MoreRuns.gestures)
          [("key", JStr "BACK"); hints] ctx 0 s)
     = Ok (text_response ("Pressed key: BACK" ++ unavailable)).
Proof.
  split.
  - exact (proj1 (hints_failure_keeps_action_result
                    (G := MoreRuns.gestures) None
                    (android [] [Throw device_offline] [])
                    (state_of (mkBackend 160 (Some "android") [] [] [] []))
                    device_offline
                    [EvAdapter (OpGetUiHierarchyAsync "android")] eq_refl)).
  - repeat split; vm_compute; reflexivity.
Defined.

Lemma screenshot_diff_tiers_witness :
  screenshot_handler [("diff", JBool true)] ctx 0 with_previous_capture
  = (Ok (mkResponse (Some (unchanged_text "3")) None),
     @mkState env (mkBackend 10 (Some "android") [] [] [] []) []
       [("android", [3; 1])],
     [EvAdapter (OpGetScreenshotBufferAsync "android")]).
Proof.
  apply (proj1 (screenshot_diff_tiers [("diff", JBool true)] ctx 0
                  with_previous_capture
                  (@mkState env (mkBackend 10 (Some "android") [] [] [] [])
                     [] [("android", [9; 9])])
                  [EvAdapter (OpGetScreenshotBufferAsync "android")]
                  None None None None None None [3; 1] [9; 9]
                  (mkScreenDiff (inject_Z 3) (Some (mkRegion 1 2 3 4)))
                  eq_refl eq_refl eq_refl eq_refl eq_refl eq_refl eq_refl
                  eq_refl eq_refl eq_refl)).
  reflexivity.
Defined.


Lemma not_found_fallbacks_witness :
  let s := android [Throw device_not_found] [] [] in
  in_budget 0 30000 s
  /\ is_not_found device_not_found = true
  /\ result_of
       (step_body ctx 0 0 30000 (Some "android") MoreRuns.tap_or_skip 0 0
          None no_next s)
     = Ok (LoopEnd
             (Some (mkFlowStepResult 1 "tap" None true
                      "Skipped (element not found)" 10))).
Proof.
  assert (Hb : in_budget 0 30000 (android [Throw device_not_found] [] []))
    by (unfold in_budget; simpl; lia).
  eassert (Hthrown :
             ctx_handleTool ctx "tap"
               (stepArgs (Some "android") MoreRuns.tap_or_skip) (0 + 1)
               (android [Throw device_not_found] [] [])
             = (Throw device_not_found, _, _))
    by (vm_compute; reflexivity).
  split; [exact Hb | split; [reflexivity|]].
  destruct (not_found_fallbacks ctx 0 0 30000 (Some "android")
              MoreRuns.tap_or_skip 0 0 None no_next _ _ _ _
              Hb Hthrown eq_refl) as (Hskip & _).
  rewrite (Hskip eq_refl). reflexivity.
Defined.

End Instances.

(* ------------------------------------------------------------------ *)
(** * The registry: listing and resolution *)
(* ------------------------------------------------------------------ *)

Section RegistryListing.

Context {E : Env}.

Lemma set_keys_nodup {V} (m : JsMap.t V) (k : string) (v : V) :
  NoDup (JsMap.keys m) -> NoDup (JsMap.keys (JsMap.set m k v)).
Proof.
  induction m as [|[k' v'] m IH]; simpl; intros Hnd.
  - constructor; [intros []|constructor].
  - inversion Hnd as [|? ? Hnotin Hrest]; subst.
    destruct (String.eqb_spec k' k) as [->|Hne]; simpl.
    + now constructor.
    + constructor; auto.
      intros Hin. apply MapFacts.keys_set_in in Hin.
      destruct Hin as [->|Hin]; [now apply Hne | now apply Hnotin].
Qed.

(** Setting a key that is there keeps the keys and their order. *)
Lemma set_keys_present {V} (m : JsMap.t V) (k : string) (v : V) :
  In k (JsMap.keys m) -> JsMap.keys (JsMap.set m k v) = JsMap.keys m.
Proof.
  induction m as [|[k' v'] m IH]; simpl; intros Hin; [contradiction|].
  destruct (String.eqb_spec k' k) as [->|Hne]; simpl; auto.
  destruct Hin as [->|Hin]; [contradiction|]. now rewrite IH.
Qed.

Lemma registerTools_app (defs defs' : list ToolDefinition)
    (reg : Registry) :
  registerTools (defs ++ defs') reg
  = registerTools defs' (registerTools defs reg).
Proof. unfold registerTools. apply fold_left_app. Qed.

Lemma registerTools_keys_nodup (defs : list ToolDefinition)
    (reg : Registry) :
  NoDup (JsMap.keys (toolMap reg)) ->
  NoDup (JsMap.keys (toolMap (registerTools defs reg))).
Proof.
  revert reg. unfold registerTools.
  induction defs as [|d defs IH]; intros reg Hnd; simpl; auto.
  apply IH. simpl. now apply set_keys_nodup.
Qed.

Lemma built_invariant (reg : Registry) :
  built reg -> keyed_by_name reg /\ NoDup (JsMap.keys (toolMap reg)).
Proof.
  induction 1 as [|defs reg _ [Hk Hnd]|aliases reg _ [Hk Hnd]].
  - split; [apply empty_registry_keyed | constructor].
  - split; [now apply registerTools_keyed
           | now apply registerTools_keys_nodup].
  - split; [now apply registerAliases_keyed
           | now rewrite registerAliases_toolMap].
Qed.

(** X1. [getTools] never lists a name twice: whatever sequence of
    [registerTools] and [registerAliases] built the registry, also one
    that registered the same name again and again, the names of the
    tools it lists are pairwise different. *)
Theorem getTools_lists_each_name_once (reg : Registry) :
  built reg -> NoDup (tool_names reg).
Proof.
  intros Hb. destruct (built_invariant reg Hb) as [Hk Hnd].
  now rewrite tool_names_keys.
Qed.

Lemma registerTools_other (defs : list ToolDefinition) (reg : Registry)
    (name : string) :
  none_named name defs ->
  JsMap.get (toolMap (registerTools defs reg)) name
  = JsMap.get (toolMap reg) name.
Proof.
  revert reg. unfold registerTools.
  induction defs as [|d defs IH]; intros reg Hnone; simpl; auto.
  inversion Hnone as [|? ? Hd Hrest]; subst.
  rewrite IH by assumption. simpl.
  now apply MapFacts.get_set_other.
Qed.

(** X2. Registering a name again replaces its definition in place. Of
    the definitions a call of [registerTools] is given under one name,
    [getHandler] returns the handler of the last; and when the name was
    registered before, the listing of [getTools] keeps its names and
    their order. *)
Theorem registerTools_last_definition_wins (reg : Registry)
    (before after : list ToolDefinition) (def : ToolDefinition) :
  none_named (tool_name (tool def)) after ->
  let reg' := registerTools (before ++ def :: after) reg in
  getHandler reg' (tool_name (tool def)) = Some (handler def)
  /\ (keyed_by_name reg ->
      In (tool_name (tool def)) (tool_names reg) ->
      tool_names (registerTools [def] reg) = tool_names reg).
Proof.
  intros Hafter reg'. split.
  - apply getHandler_canonical_first. unfold reg'.
    rewrite registerTools_app.
    change (def :: after) with ([def] ++ after)%list.
    rewrite registerTools_app, registerTools_other by assumption.
    simpl. apply MapFacts.get_set_same.
  - intros Hk Hin.
    rewrite tool_names_keys by now apply registerTools_keyed.
    rewrite tool_names_keys in * by assumption.
    simpl. now apply set_keys_present.
Qed.

Lemma registerAliases_last (aliases : list (string * string))
    (reg : Registry) (a b : string) :
  JsMap.get (aliasMap (registerAliases (aliases ++ [(a, b)]) reg)) a
  = Some b.
Proof.
  unfold registerAliases. rewrite fold_left_app. simpl.
  apply MapFacts.get_set_same.
Qed.

Lemma registerAliases_other (aliases : list (string * string))
    (reg : Registry) (a b name : string) :
  a <> name ->
  getHandler (registerAliases (aliases ++ [(a, b)]) reg) name
  = getHandler (registerAliases aliases reg) name.
Proof.
  intros Hne. unfold getHandler.
  rewrite !registerAliases_toolMap.
  replace (JsMap.get
             (aliasMap (registerAliases (aliases ++ [(a, b)]) reg)) name)
    with (JsMap.get (aliasMap (registerAliases aliases reg)) name);
    auto.
  unfold registerAliases at 2. rewrite fold_left_app. simpl.
  symmetry. now apply MapFacts.get_set_other.
Qed.

(** X3. Aliases are followed one step only. An alias [a] of [b], where
    neither is the name of a tool, resolves to nothing, also when [b] is
    itself an alias that resolves to a handler; registering [a] leaves
    the resolution of every other name as it was. *)
Theorem aliases_are_not_chained (reg : Registry)
    (aliases : list (string * string)) (a b : string) :
  JsMap.get (toolMap reg) a = None ->
  JsMap.get (toolMap reg) b = None ->
  let reg' := registerAliases (aliases ++ [(a, b)]) reg in
  getHandler reg' a = None
  /\ (forall name, a <> name ->
        getHandler reg' name
        = getHandler (registerAliases aliases reg) name).
Proof.
  intros Ha Hb reg'. split.
  - unfold getHandler, reg'.
    rewrite registerAliases_toolMap, Ha, registerAliases_last, Hb.
    now destruct (JsString.truthy b).
  - intros name Hne. now apply registerAliases_other.
Qed.

End RegistryListing.

(* ------------------------------------------------------------------ *)
(** * The request handler of the server *)
(* ------------------------------------------------------------------ *)

Section ServerReplies.

Context {E : Env}.

Lemma handleTool_unknown (reg : Registry) (name : string)
    (args : JsObject) (depth : Z) (s : State) :
  depth <= MAX_RECURSION_DEPTH ->
  getHandler reg name = None ->
  handleTool reg name args depth s = (Throw (UnknownTool name), s, []).
Proof.
  intros Hd Hnone. unfold handleTool, fuel_for. simpl.
  destruct (Z.gtb_spec depth MAX_RECURSION_DEPTH) as [Hgt|_];
    [lia|].
  now rewrite Hnone.
Qed.

(** X4. A request never fails at the level of the protocol. Whatever
    the tool, the arguments and the state, the request handler does
    not throw: an error thrown by the dispatcher or by the tool comes
    back as a reply with [isError] and the text "Error: " followed by
    the message, what the tool returned comes back as its content, and
    in both cases the state is the one the tool left. *)
Theorem call_tool_request_never_throws (reg : Registry) (name : string)
    (args : option JsObject) (s : State) :
  (forall e, result_of (call_tool_request reg name args s) <> Throw e)
  /\ (forall e s1 t1,
        handleTool reg name (or_else args []) 0 s = (Throw e, s1, t1) ->
        call_tool_request reg name args s
        = (Ok (mkCallToolResult
                 [TextContent ("Error: " ++ err_message e)] true),
           s1, t1))
  /\ (forall result s1 t1,
        handleTool reg name (or_else args []) 0 s = (Ok result, s1, t1) ->
        call_tool_request reg name args s
        = (Ok (reply_of result), s1, t1)
        /\ isError (reply_of result) = false).
Proof.
  unfold call_tool_request, try_catch, bind, ret, result_of.
  split; [|split].
  - intros e.
    destruct (handleTool reg name (or_else args []) 0 s)
      as [[[r|[e'| |]] s1] t1]; simpl; discriminate.
  - intros e s1 t1 ->. simpl. now rewrite app_nil_r.
  - intros result s1 t1 ->. simpl. rewrite app_nil_r. split; auto.
    unfold reply_of. now destruct (resp_image result).
Qed.

(** X5. A request for a name that is neither a tool nor an alias of a
    tool runs nothing: the reply is the error "Error: Unknown tool: "
    with the name, and the state is untouched. *)
Theorem call_tool_request_unknown_tool (reg : Registry) (name : string)
    (args : option JsObject) (s : State) :
  getHandler reg name = None ->
  call_tool_request reg name args s
  = (Ok (mkCallToolResult
           [TextContent ("Error: Unknown tool: " ++ name)] true),
     s, []).
Proof.
  intros Hnone. unfold call_tool_request, try_catch, bind.
  rewrite handleTool_unknown by (auto; unfold MAX_RECURSION_DEPTH; lia).
  reflexivity.
Qed.

End ServerReplies.

(* ------------------------------------------------------------------ *)
(** * The elements of an iOS accessibility tree *)
(* ------------------------------------------------------------------ *)

Section IosTree.

(** Induction on a tree, with the property known for the children. *)
Lemma IosNode_children_ind (P : IosNode -> Prop) :
  (forall tree, Forall P (node_children tree) -> P tree) ->
  forall tree, P tree.
Proof.
  intros H. fix IH 1. intros [r i t l v n e s children].
  apply H. simpl.
  induction children as [|child children IHc]; constructor.
  - apply IH.
  - exact IHc.
Qed.

Lemma numbered_from_app (k : Z) (nodes nodes' : list IosNode) :
  numbered_from k (nodes ++ nodes')
  = (numbered_from k nodes
     ++ numbered_from (k + Z.of_nat (List.length nodes)) nodes')%list.
Proof.
  revert k. induction nodes as [|n nodes IH]; intros k; simpl.
  - now rewrite Z.add_0_r.
  - rewrite IH. do 3 f_equal. lia.
Qed.

Lemma numbered_from_length (k : Z) (nodes : list IosNode) :
  List.length (numbered_from k nodes) = List.length nodes.
Proof. revert k. induction nodes; intros k; simpl; auto. Qed.

(** What one node pushes. *)
Lemma pushed_by_node (tree : IosNode) (acc : list UiElement * Z) :
  match node_rect tree with
  | Some rect =>
      let x := match rect_x rect with Some n => n | None => 0 end in
      let y := match rect_y rect with Some n => n | None => 0 end in
      let w := match rect_width rect with Some n => n | None => 0 end in
      let h := match rect_height rect with Some n => n | None => 0 end in
      if (w >? 0) && (h >? 0)
      then ((fst acc ++ [ios_element tree x y w h (snd acc)])%list,
            snd acc + 1)
      else acc
  | None => acc
  end
  = ((fst acc ++ numbered_from (snd acc) (filter on_screen [tree]))%list,
     snd acc + Z.of_nat (List.length (filter on_screen [tree]))).
Proof.
  destruct acc as [els k].
  cbn [filter fst snd]. unfold on_screen, rect_or_zero.
  destruct (node_rect tree) as [rect|] eqn:Hrect.
  - cbv zeta.
    destruct ((_ >? 0) && (_ >? 0)); cbn [numbered_from List.length].
    + unfold element_of_node, rect_or_zero. now rewrite Hrect.
    + now rewrite app_nil_r, Z.add_0_r.
  - cbn [numbered_from List.length]. now rewrite app_nil_r, Z.add_0_r.
Qed.

Lemma iosTreeToUiElements_eq (tree : IosNode) (acc : list UiElement * Z) :
  iosTreeToUiElements tree acc
  = fold_left (fun acc' child => iosTreeToUiElements child acc')
      (node_children tree)
      ((fst acc ++ numbered_from (snd acc) (filter on_screen [tree]))%list,
       snd acc + Z.of_nat (List.length (filter on_screen [tree]))).
Proof. rewrite <- pushed_by_node. now destruct tree. Qed.

Lemma document_order_eq (tree : IosNode) :
  document_order tree
  = ([tree] ++ flat_map document_order (node_children tree))%list.
Proof. now destruct tree. Qed.

(** The traversal with its accumulators against the description: the
    elements of the nodes on screen, in document order, numbered from
    the counter on, are appended, and the counter moves by their
    number. *)
Lemma iosTreeToUiElements_acc (tree : IosNode) :
  forall acc,
    iosTreeToUiElements tree acc
    = ((fst acc
        ++ numbered_from (snd acc)
             (filter on_screen (document_order tree)))%list,
       snd acc
       + Z.of_nat (List.length (filter on_screen (document_order tree)))).
Proof.
  induction tree as [tree IH] using IosNode_children_ind. intros acc.
  rewrite iosTreeToUiElements_eq, document_order_eq.
  assert (Hfold : forall acc',
             fold_left (fun a child => iosTreeToUiElements child a)
               (node_children tree) acc'
             = ((fst acc'
                 ++ numbered_from (snd acc')
                      (filter on_screen
                         (flat_map document_order (node_children tree))))%list,
                snd acc'
                + Z.of_nat
                    (List.length
                       (filter on_screen
                          (flat_map document_order (node_children tree)))))).
  { induction (node_children tree) as [|child children IHc]; intros acc'.
    - simpl. now rewrite app_nil_r, Z.add_0_r, <- surjective_pairing.
    - inversion IH as [|? ? Hchild Hrest]; subst.
      cbn [fold_left flat_map]. rewrite Hchild, (IHc Hrest).
      cbn [fst snd].
      rewrite filter_app, numbered_from_app, length_app, <- app_assoc.
      f_equal; lia. }
  rewrite Hfold. cbn [fst snd].
  rewrite filter_app, numbered_from_app, length_app, <- app_assoc.
  f_equal; lia.
Qed.

(** X6. [iosTreeToUiElements] against its description. With the
    default accumulators it returns, in document order, one element for
    each node that has a rect of positive width and height, numbered
    0, 1, 2, ...; a node without such a rect gives no element, but its
    descendants are still visited. *)
Theorem iosTreeToUiElements_in_document_order (tree : IosNode) :
  iosTreeToUiElements_of tree
  = numbered_from 0 (filter on_screen (document_order tree)).
Proof.
  unfold iosTreeToUiElements_of. now rewrite iosTreeToUiElements_acc.
Qed.

Lemma numbered_from_nth (nodes : list IosNode) :
  forall k i e,
    nth_error (numbered_from k nodes) i = Some e ->
    index e = k + Z.of_nat i.
Proof.
  induction nodes as [|n nodes IH]; intros k i e; simpl.
  - now destruct i.
  - destruct i as [|i]; simpl.
    + intros [= <-]. unfold element_of_node.
      destruct (rect_or_zero n) as [[[[x y] w] h]|]; simpl; lia.
    + intros H. apply IH in H. lia.
Qed.

(** X7. The index of an element is its position. The [i]-th element
    of the array [iosTreeToUiElements] returns has [index] [i], so the
    indices are 0, 1, 2, ... without gap or repetition, whatever nodes
    the traversal skipped. *)
Theorem iosTreeToUiElements_index_is_position (tree : IosNode) (i : nat)
    (e : UiElement) :
  nth_error (iosTreeToUiElements_of tree) i = Some e ->
  index e = Z.of_nat i.
Proof.
  unfold iosTreeToUiElements_of. rewrite iosTreeToUiElements_acc.
  simpl. intros H. now apply numbered_from_nth in H.
Qed.

Lemma numbered_from_in (nodes : list IosNode) :
  forall k e,
    In e (numbered_from k nodes) ->
    exists i node, In node nodes /\ e = element_of_node i node.
Proof.
  induction nodes as [|n nodes IH]; intros k e; simpl; [intros []|].
  intros [<-|Hin].
  - exists k, n. auto.
  - destruct (IH _ _ Hin) as (i & node & Hnode & ->).
    exists i, node. auto.
Qed.

(** X8. Every element [iosTreeToUiElements] returns has a box of
    positive width and height whose corners agree with that size,
    [x2 = x1 + width] and [y2 = y1 + height], and a centre inside the
    box; it is clickable only if it is enabled, and never checkable,
    checked, focused or long-clickable. *)
Theorem iosTreeToUiElements_elements_are_well_shaped (tree : IosNode)
    (e : UiElement) :
  In e (iosTreeToUiElements_of tree) ->
  well_shaped e
  /\ (clickable e = true -> enabled e = true)
  /\ checkable e = false /\ checked e = false /\ focused e = false
  /\ longClickable e = false.
Proof.
  unfold iosTreeToUiElements_of. rewrite iosTreeToUiElements_acc.
  simpl. intros Hin.
  destruct (numbered_from_in _ _ _ Hin) as (i & node & Hnode & ->).
  apply filter_In in Hnode. destruct Hnode as [_ Hon].
  unfold on_screen, element_of_node in *.
  destruct (rect_or_zero node) as [[[[x y] w] h]|]; [|discriminate].
  apply andb_prop in Hon. destruct Hon as [Hw Hh].
  apply Z.gtb_lt in Hw, Hh.
  unfold well_shaped; simpl.
  assert (0 <= w / 2 < w) by (split; [apply Z.div_pos; lia
                                      | apply Z.div_lt_upper_bound; lia]).
  assert (0 <= h / 2 < h) by (split; [apply Z.div_pos; lia
                                      | apply Z.div_lt_upper_bound; lia]).
  repeat split; try lia.
  intros Hc. apply andb_prop in Hc. tauto.
Qed.

End IosTree.

(* ------------------------------------------------------------------ *)
(** * The element cache of [context.ts] *)
(* ------------------------------------------------------------------ *)

Section ElementCache.

Context {E : Env}.

Lemma cached_set_same (s : State) (p : string) (els : list UiElement)
    (d : Device) (shots : JsMap.t Buffer) :
  cached (mkState d (JsMap.set (cachedElementsMap s) p els) shots) p = els.
Proof. unfold cached. simpl. now rewrite MapFacts.get_set_same. Qed.

Lemma cached_set_other (s : State) (p q : string) (els : list UiElement)
    (d : Device) (shots : JsMap.t Buffer) :
  p <> q ->
  cached (mkState d (JsMap.set (cachedElementsMap s) p els) shots) q
  = cached s q.
Proof.
  intros Hne. unfold cached. simpl. now rewrite MapFacts.get_set_other.
Qed.

(** One fetch of [getElementsForPlatform]: the backend call, the
    parser, the cache. *)
Lemma fetch_and_cache (op : AdapterOp)
    (f : Device -> Res string * Device)
    (parse : string -> Res (list UiElement)) (p : string) (s : State) :
  let out :=
    bind (adapter op f)
      (fun raw =>
         bind (lift (parse raw))
           (fun elements =>
              bind (setCachedElements p elements)
                (fun _ => ret elements))) s in
  lastScreenshotMap (final_state out) = lastScreenshotMap s
  /\ match result_of out with
     | Ok els =>
         cached (final_state out) p = els
         /\ (forall q, p <> q -> cached (final_state out) q = cached s q)
         /\ trace_of out = [EvAdapter op]
     | Fail _ => cachedElementsMap (final_state out) = cachedElementsMap s
     end.
Proof.
  unfold bind, adapter, lift, setCachedElements, ret, final_state,
    result_of, trace_of.
  destruct (f (device s)) as [[raw|fl] d]; simpl; auto.
  destruct (parse raw) as [els|fl]; simpl; auto.
  split; auto. split; [|split; auto].
  - unfold cached. simpl. now rewrite MapFacts.get_set_same.
  - intros q Hne. unfold cached. simpl.
    now rewrite MapFacts.get_set_other.
Qed.

(** X9. [getElementsForPlatform] caches what it returns. For
    "android" (also for a missing or empty platform), "ios" and
    "desktop" the elements it returns are, afterwards, the cached
    elements of that platform, the caches of the other platforms are as
    before and the backend was asked once; when the fetch or the parser
    fails the cache is as before. For any other platform it returns the
    empty list and touches nothing. The last screenshots are never
    touched. *)
Theorem getElementsForPlatform_caches_its_result (plat : option string)
    (s : State) :
  let out := getElementsForPlatform plat s in
  lastScreenshotMap (final_state out) = lastScreenshotMap s
  /\ match cache_of plat with
     | Some p =>
         match result_of out with
         | Ok els =>
             cached (final_state out) p = els
             /\ (forall q, p <> q ->
                   cached (final_state out) q = cached s q)
             /\ List.length (trace_of out) = 1%nat
         | Fail _ =>
             cachedElementsMap (final_state out) = cachedElementsMap s
         end
     | None => out = (Ok [], s, [])
     end.
Proof.
  unfold getElementsForPlatform, cache_of.
  destruct (android_or_unset plat).
  - pose proof (fetch_and_cache (OpGetUiHierarchyAsync "android")
                  (dm_getUiHierarchyAsync "android") parseUiHierarchy
                  "android" s) as H.
    cbv zeta in *. destruct H as [H1 H2]. split; auto.
    destruct (result_of _); auto.
    destruct H2 as (? & ? & ->); auto.
  - destruct (String.eqb (or_else plat EmptyString) "ios").
    + pose proof (fetch_and_cache (OpGetUiHierarchy "ios")
                    (dm_getUiHierarchy "ios") parseIosTree "ios" s) as H.
      cbv zeta in *. destruct H as [H1 H2]. split; auto.
      destruct (result_of _); auto.
      destruct H2 as (? & ? & ->); auto.
    + destruct (String.eqb (or_else plat EmptyString) "desktop").
      * pose proof (fetch_and_cache (OpGetUiHierarchyAsync "desktop")
                      (dm_getUiHierarchyAsync "desktop")
                      desktopHierarchyToUiElements "desktop" s) as H.
        cbv zeta in *. destruct H as [H1 H2]. split; auto.
        destruct (result_of _); auto.
        destruct H2 as (? & ? & ->); auto.
      * split; reflexivity.
Qed.

(** X10. [generateActionHints] refreshes the cache before it compares.
    Once the capture after the action succeeded, the cache of the
    platform holds that capture and the trace is the pause of 150 ms
    followed by the capture, whatever [diffUiElements] and
    [suggestNextActions] do next: they are outside the [try] and may
    throw, and the next call still compares against this capture. When
    the cache before and the capture after are both empty the answer is
    "No UI elements detected.", whatever the two functions would do. *)
Theorem generateActionHints_refreshes_the_cache (platform : option string)
    (s s1 : State) (afterElements : list UiElement) (t1 : Trace) :
  let cur :=
    platform_or_android platform (getCurrentPlatform (device s)) in
  capture_after cur (after_delay 150 s) = (Ok afterElements, s1, t1) ->
  let out := generateActionHints platform s in
  cached (final_state out) cur = afterElements
  /\ (forall q, cur <> q -> cached (final_state out) q = cached s1 q)
  /\ trace_of out = EvSleep 150 :: t1
  /\ (cached s cur = [] -> afterElements = [] ->
      result_of out
      = Ok (hints_header ++ JsString.newline ++ "No UI elements detected.")).
Proof.
  intros cur Hcap out. unfold out, generateActionHints.
  rewrite bind_current_platform, bind_getCachedElements.
  fold cur. fold (cached s cur).
  rewrite (bind_ok_prepend (sleep 150) _ tt s (after_delay 150 s)
             [EvSleep 150]) by apply sleep_run.
  rewrite (bind_ok_prepend (attempt (capture_after cur)) _
             (inl afterElements) (after_delay 150 s) s1 t1)
    by now apply attempt_ok.
  rewrite (bind_ok_prepend (setCachedElements cur afterElements) _ tt s1
             (mkState (device s1)
                (JsMap.set (cachedElementsMap s1) cur afterElements)
                (lastScreenshotMap s1)) []) by reflexivity.
  rewrite prepend_nil, prepend_prepend.
  set (s2 := mkState (device s1)
               (JsMap.set (cachedElementsMap s1) cur afterElements)
               (lastScreenshotMap s1)).
  assert (Hs2 : cached s2 cur = afterElements
                /\ (forall q, cur <> q -> cached s2 q = cached s1 q)).
  { split; [apply cached_set_same
           | intros q Hne; now apply cached_set_other]. }
  destruct Hs2 as [Hsame Hother].
  destruct (is_nil (cached s cur) && is_nil afterElements) eqn:Hnil.
  - unfold ret, prepend, final_state, trace_of, result_of. simpl.
    now rewrite app_nil_r.
  - unfold bind, lift, ret, prepend, final_state, trace_of, result_of.
    destruct (diffUiElements (cached s cur) afterElements) as [diff|f];
      [destruct (suggestNextActions afterElements) as [sug|f]|]; simpl;
      rewrite ?app_nil_r;
      (repeat split; auto;
       intros Hb Ha; rewrite Hb, Ha in Hnil; discriminate).
Qed.

End ElementCache.

(* ------------------------------------------------------------------ *)
(** * run_flow: what it never throws, what it reports, what it costs *)
(* ------------------------------------------------------------------ *)

Section NeverThrows.

Context {E : Env}.

Lemma never_throws_ret {A} (a : A) : never_throws (ret a).
Proof. intros s e. discriminate. Qed.

Lemma never_throws_typed {A} (o : option A) : never_throws (typed o).
Proof. intros s e. destruct o; discriminate. Qed.

Lemma never_throws_date_now : never_throws date_now.
Proof. intros s e. discriminate. Qed.

Lemma never_throws_current_platform : never_throws current_platform.
Proof. intros s e. discriminate. Qed.

Lemma never_throws_sleep ms : never_throws (sleep ms).
Proof. intros s e. discriminate. Qed.

Lemma never_throws_attempt {A} (m : M A) : never_throws (attempt m).
Proof.
  intros s e. unfold attempt, result_of.
  destruct (m s) as [[[a|[e'| |]] s1] t1]; discriminate.
Qed.

Lemma never_throws_bind {A B} (m : M A) (k : A -> M B) :
  never_throws m -> (forall a, never_throws (k a)) ->
  never_throws (bind m k).
Proof.
  intros Hm Hk s e. unfold bind, result_of in *.
  specialize (Hm s). destruct (m s) as [[[a|f] s1] t1]; simpl in *.
  - specialize (Hk a s1 e). now destruct (k a s1) as [[r s2] t2].
  - intros [= ->]. now apply (Hm e).
Qed.

Lemma ensures_ret {A} (P : A -> Prop) (a : A) : P a -> ensures P (ret a).
Proof. intros Ha s a' s' t [= <- _ _]. exact Ha. Qed.

Lemma ensures_bind {A B} (P : B -> Prop) (m : M A) (k : A -> M B) :
  (forall a, ensures P (k a)) -> ensures P (bind m k).
Proof.
  intros Hk s b s' t. unfold bind.
  destruct (m s) as [[[a|f] s1] t1]; [|discriminate].
  destruct (k a s1) as [[r s2] t2] eqn:Hka. intros [= -> <- <-].
  eapply Hk; eauto.
Qed.

Lemma ensures_bind_with {A B} (Q : A -> Prop) (P : B -> Prop) (m : M A)
    (k : A -> M B) :
  ensures Q m -> (forall a, Q a -> ensures P (k a)) ->
  ensures P (bind m k).
Proof.
  intros Hm Hk s b s' t. unfold bind.
  destruct (m s) as [[[a|f] s1] t1] eqn:Hma; [|discriminate].
  destruct (k a s1) as [[r s2] t2] eqn:Hka. intros [= -> <- <-].
  eapply Hk; eauto.
Qed.

Lemma ensures_attempt {A} (P : A -> Prop) (m : M A) :
  ensures P m ->
  ensures (fun x => match x with inl a => P a | inr _ => True end)
    (attempt m).
Proof.
  intros Hm s x s' t. unfold attempt.
  destruct (m s) as [[[a|[e| |]] s1] t1] eqn:Hma; intros [= <- <- <-];
    eauto.
Qed.

End NeverThrows.

Ltac never_throws_step :=
  match goal with
  | |- never_throws (bind _ _) => apply never_throws_bind; [|intros]
  | |- never_throws (ret _) => apply never_throws_ret
  | |- never_throws (typed _) => apply never_throws_typed
  | |- never_throws date_now => apply never_throws_date_now
  | |- never_throws current_platform => apply never_throws_current_platform
  | |- never_throws (attempt _) => apply never_throws_attempt
  | |- never_throws (sleep _) => apply never_throws_sleep
  | |- never_throws (if ?b then _ else _) => destruct b eqn:?
  | |- never_throws (match ?x with _ => _ end) => destruct x eqn:?
  end.

Ltac ensures_step :=
  match goal with
  | |- ensures _ (bind _ _) => apply ensures_bind; intros
  | |- ensures _ (ret _) => apply ensures_ret
  | |- ensures _ (if ?b then _ else _) => destruct b eqn:?
  | |- ensures _ (match ?x with _ => _ end) => destruct x eqn:?
  end.

Section FlowReport.

Context {E : Env}.

Variables (ctx : ToolContext) (depth flowStart maxDuration : Z).
Variable cur : option string.

Lemma step_catch_never_throws step i stepStart iter last error next :
  (forall l, never_throws (next l)) ->
  never_throws
    (step_catch ctx depth cur step i stepStart iter last error next).
Proof.
  intros Hnext. unfold step_catch. cbv zeta.
  repeat first [apply Hnext | never_throws_step].
Qed.

Lemma step_iters_never_throws step i (fuel : nat) :
  forall iter last,
    never_throws
      (step_iters ctx depth flowStart maxDuration cur step i fuel iter
         last).
Proof.
  induction fuel as [|fuel IH]; intros iter last; simpl.
  - apply never_throws_ret.
  - unfold step_body. cbv zeta.
    repeat first [ apply step_catch_never_throws; intros; apply IH
                 | apply IH | never_throws_step ].
Qed.

Lemma flow_steps_never_throws (steps : list FlowStep) :
  forall i results,
    never_throws
      (flow_steps ctx depth flowStart maxDuration cur i steps results).
Proof.
  induction steps as [|step steps IH]; intros i results; simpl.
  - apply never_throws_ret.
  - repeat first [ apply step_iters_never_throws | apply IH
                 | never_throws_step ].
Qed.

Lemma step_result_row step i success message durationMs :
  row_of step i (step_result step i success message durationMs).
Proof. now unfold row_of, step_result. Qed.

Lemma scroll_and_retry_row step i stepStart inf :
  ensures (row_of step i)
    (scroll_and_retry ctx depth cur step i stepStart inf).
Proof.
  unfold scroll_and_retry. repeat ensures_step. apply step_result_row.
Qed.

Lemma step_catch_row step i stepStart iter last error next :
  (forall l, exit_row step i (LoopEnd l) ->
             ensures (exit_row step i) (next l)) ->
  exit_row step i (LoopEnd last) ->
  ensures (exit_row step i)
    (step_catch ctx depth cur step i stepStart iter last error next).
Proof.
  intros Hnext Hlast. unfold step_catch. cbv zeta.
  apply ensures_bind. intros t.
  destruct (is_not_found error && truthy_opt (step_if_not_found step)).
  - destruct (String.eqb _ "skip");
      [apply ensures_ret, step_result_row|].
    destruct (String.eqb _ "scroll_down" || String.eqb _ "scroll_up");
      [|apply ensures_ret, step_result_row].
    eapply ensures_bind_with;
      [apply ensures_attempt, scroll_and_retry_row|].
    intros [r|retryErr] Hr; [now apply ensures_ret|].
    apply ensures_bind. intros t'. apply ensures_ret, step_result_row.
  - destruct (String.eqb (onError step) "retry"
              && (iter <? maxIterations step - 1)).
    + apply ensures_bind. intros _. now apply Hnext.
    + destruct (String.eqb (onError step) "stop");
        apply ensures_ret, step_result_row.
Qed.

Lemma step_iters_row step i (fuel : nat) :
  forall iter last,
    exit_row step i (LoopEnd last) ->
    ensures (exit_row step i)
      (step_iters ctx depth flowStart maxDuration cur step i fuel iter
         last).
Proof.
  induction fuel as [|fuel IH]; intros iter last Hlast; simpl.
  - now apply ensures_ret.
  - unfold step_body. cbv zeta.
    repeat first
      [ apply step_catch_row;
        [intros; now apply IH | try assumption; apply step_result_row]
      | apply IH; apply step_result_row
      | ensures_step ];
      try assumption; try apply step_result_row.
Qed.

Lemma increasing_from_weaken (l : list Z) (lo lo' : Z) :
  lo' <= lo -> increasing_from lo l -> increasing_from lo' l.
Proof. destruct l; simpl; auto. intros Hle [Hlt Hrest]. split; auto. lia. Qed.

Lemma increasing_from_above (l : list Z) :
  forall lo, increasing_from lo l -> Forall (fun x => lo < x) l.
Proof.
  induction l as [|x l IH]; intros lo; simpl; constructor.
  - tauto.
  - destruct H as [Hlt Hrest]. specialize (IH _ Hrest).
    eapply Forall_impl; [|exact IH]. simpl. intros; lia.
Qed.

Lemma increasing_from_length (l : list Z) :
  forall lo n,
    increasing_from lo l -> Forall (fun x => x <= n) l -> lo <= n ->
    lo + Z.of_nat (List.length l) <= n.
Proof.
  induction l as [|x l IH]; intros lo n Hinc Hle Hlo; simpl in *; [lia|].
  destruct Hinc as [Hlt Hrest]. inversion Hle as [|? ? Hx Hl]; subst.
  specialize (IH x n Hrest Hl Hx). lia.
Qed.

Lemma rows_follow_skip (i : Z) step steps rows :
  rows_follow (i + 1) steps rows -> rows_follow i (step :: steps) rows.
Proof.
  intros [Hinc Hall]. split.
  - apply increasing_from_weaken with (lo := i + 1); [lia | assumption].
  - apply increasing_from_above in Hinc.
    rewrite Forall_map in Hinc.
    rewrite Forall_forall in *. intros r Hr.
    destruct (Hall r Hr) as (st & Hnth & Hrow). specialize (Hinc r Hr).
    exists st. split; auto.
    replace (Z.to_nat (fsr_step r - i - 1))
      with (S (Z.to_nat (fsr_step r - (i + 1) - 1))) by lia.
    exact Hnth.
Qed.

Lemma rows_follow_first (i : Z) step steps r rows :
  row_of step i r -> rows_follow (i + 1) steps rows ->
  rows_follow i (step :: steps) (r :: rows).
Proof.
  intros Hrow Hrows.
  destruct (rows_follow_skip i step steps rows Hrows) as [_ Hall].
  destruct Hrows as [Hinc _].
  assert (Hstep : fsr_step r = i + 1) by apply Hrow.
  split.
  - simpl. rewrite Hstep. split; [lia | assumption].
  - constructor; auto. exists step. split.
    + rewrite Hstep. now replace (i + 1 - i - 1) with 0 by lia.
    + now rewrite Hstep, Z.add_simpl_r.
Qed.

Lemma rows_follow_nil (i : Z) steps : rows_follow i steps [].
Proof. split; constructor. Qed.

(** The loop over the steps: the rows it adds follow the steps. *)
Lemma flow_steps_rows (steps : list FlowStep) :
  forall i results,
    ensures
      (fun out => exists added, out = (results ++ added)%list
                                /\ rows_follow i steps added)
      (flow_steps ctx depth flowStart maxDuration cur i steps results).
Proof.
  induction steps as [|step steps IH]; intros i results; simpl.
  - apply ensures_ret. exists []. split; [now rewrite app_nil_r|].
    apply rows_follow_nil.
  - apply ensures_bind. intros t.
    destruct (t - flowStart >? maxDuration).
    + apply ensures_ret. eexists. split; [reflexivity|].
      apply rows_follow_first; [now unfold row_of | apply rows_follow_nil].
    + intros s out s' tr. unfold bind.
      destruct (run_step ctx depth flowStart maxDuration cur step i s)
        as [[[exit|f] s1] t1] eqn:Hrun; [|discriminate].
      assert (Hexit : exit_row step i exit).
      { unfold run_step in Hrun.
        eapply step_iters_row; [|exact Hrun]. exact I. }
      destruct exit as [[last|]|last].
      * destruct (negb (fsr_success last) && _).
        -- intros [= <- _ _]. exists [last]. split; auto.
           apply rows_follow_first; [assumption | apply rows_follow_nil].
        -- destruct (flow_steps _ _ _ _ _ _ _ _ s1) as [[r2 s2] t2] eqn:Hrest.
           intros [= -> _ _].
           destruct (IH _ _ _ _ _ _ Hrest) as (added & -> & Hrows).
           exists (last :: added). split; [now rewrite <- app_assoc|].
           now apply rows_follow_first.
      * destruct (flow_steps _ _ _ _ _ _ _ _ s1) as [[r2 s2] t2] eqn:Hrest.
        intros [= -> _ _].
        destruct (IH _ _ _ _ _ _ Hrest) as (added & -> & Hrows).
        exists added. split; auto. now apply rows_follow_skip.
      * intros [= <- _ _]. exists [last]. split; auto.
        apply rows_follow_first; [assumption | apply rows_follow_nil].
Qed.

End FlowReport.

Section FlowHandlerFacts.

Context {E : Env}.

Lemma run_flow_handler_never_throws (args : JsObject) (ctx : ToolContext)
    (depth : Z) :
  depth <= MAX_RECURSION_DEPTH ->
  never_throws (run_flow_handler args ctx depth).
Proof.
  intros Hd. unfold run_flow_handler.
  destruct (Z.gtb_spec depth MAX_RECURSION_DEPTH) as [Hgt|_]; [lia|].
  repeat first [ apply flow_steps_never_throws | never_throws_step ].
Qed.

End FlowHandlerFacts.

(** The same walk through the flow, for what returns or throws. *)
Section Settled.

Context {E : Env}.

Variable Inv : State -> Prop.

Lemma settles_ret {A} (a : A) : settles_from Inv (ret a).
Proof. intros s Hs. now split. Qed.

Lemma settles_date_now : settles_from Inv date_now.
Proof. intros s Hs. now split. Qed.

Lemma settles_lift {A} (r : Res A) :
  returns_or_throws r -> settles_from Inv (lift r).
Proof. intros Hr s Hs. now split. Qed.

Lemma settles_bind {A B} (m : M A) (k : A -> M B) :
  settles_from Inv m -> (forall a, settles_from Inv (k a)) ->
  settles_from Inv (bind m k).
Proof.
  intros Hm Hk s Hs. unfold bind, result_of, final_state in *.
  destruct (Hm s Hs) as [Hr Hs1].
  destruct (m s) as [[[a|f] s1] t1]; simpl in *; [|now split].
  destruct (Hk a s1 Hs1) as [Hr2 Hs2].
  now destruct (k a s1) as [[r s2] t2].
Qed.

Lemma settles_attempt {A} (m : M A) :
  settles_from Inv m -> settles_from Inv (attempt m).
Proof.
  intros Hm s Hs. unfold attempt, result_of, final_state in *.
  destruct (Hm s Hs) as [Hr Hs1].
  now destruct (m s) as [[[a|[e| |]] s1] t1].
Qed.

Lemma settles_call (site : CallSite) (ctx : ToolContext) (name : string)
    (a : JsObject) (depth : Z) :
  settles_from Inv (ctx_handleTool ctx name a depth) ->
  settles_from Inv (call site ctx name a depth).
Proof.
  intros Hm s Hs. unfold call, result_of, final_state in *.
  specialize (Hm s Hs).
  now destruct (ctx_handleTool ctx name a depth s) as [[r s1] t1].
Qed.

End Settled.

Ltac settles_step :=
  match goal with
  | |- settles_from _ (bind _ _) => apply settles_bind; [|intros]
  | |- settles_from _ (ret _) => apply settles_ret
  | |- settles_from _ date_now => apply settles_date_now
  | |- settles_from _ (attempt _) => apply settles_attempt
  | |- settles_from _ (if ?b then _ else _) => destruct b eqn:?
  | |- settles_from _ (match ?x with _ => _ end) => destruct x eqn:?
  end.

Section SettledFlow.

Context {E : Env}.

Variables (Inv : State -> Prop) (ctx : ToolContext).
Variables (depth flowStart maxDuration : Z) (cur : option string).
Variable steps : list FlowStep.

Hypothesis settled : flow_settles Inv ctx depth cur steps.

Lemma settles_sleep (ms : Z) : settles_from Inv (sleep ms).
Proof. apply settled. Qed.

Lemma settles_dispatch (site : CallSite) (step : FlowStep) :
  In step steps ->
  settles_from Inv
    (call site ctx (step_action step) (stepArgs cur step) (depth + 1)).
Proof.
  intros Hin. apply settles_call. apply settled. left. now exists step.
Qed.

Lemma settles_repeat_condition (step : FlowStep) :
  settles_from Inv (repeat_condition cur step).
Proof.
  destruct settled as (_ & _ & Hcapture & Hsearch).
  unfold repeat_condition.
  repeat first [ exact Hcapture | apply settles_lift, Hsearch
               | settles_step ].
Qed.

Lemma settles_scroll_and_retry (step : FlowStep) (i stepStart : Z)
    (inf : string) :
  In step steps ->
  settles_from Inv (scroll_and_retry ctx depth cur step i stepStart inf).
Proof.
  intros Hin. unfold scroll_and_retry.
  apply settles_bind; [|intros _].
  - apply settles_call. apply settled. right. split; [reflexivity|].
    unfold swipe_args. destruct (String.eqb inf "scroll_down"); auto.
  - repeat first [ apply settles_sleep | now apply settles_dispatch
                 | settles_step ].
Qed.

Lemma settles_step_catch (step : FlowStep) (i stepStart iter : Z)
    (last : option FlowStepResult) (error : JsError)
    (next : option FlowStepResult -> M LoopExit) :
  In step steps ->
  (forall l, settles_from Inv (next l)) ->
  settles_from Inv
    (step_catch ctx depth cur step i stepStart iter last error next).
Proof.
  intros Hin Hnext. unfold step_catch. cbv zeta.
  repeat first [ apply Hnext | apply settles_sleep
               | now apply settles_scroll_and_retry | settles_step ].
Qed.

Lemma settles_step_iters (step : FlowStep) (i : Z) (fuel : nat) :
  In step steps ->
  forall iter last,
    settles_from Inv
      (step_iters ctx depth flowStart maxDuration cur step i fuel iter
         last).
Proof.
  intros Hin. induction fuel as [|fuel IH]; intros iter last; simpl.
  - apply settles_ret.
  - unfold step_body. cbv zeta.
    repeat first [ apply settles_step_catch; [assumption | intros; apply IH]
                 | apply IH | apply settles_sleep
                 | now apply settles_dispatch
                 | apply settles_repeat_condition | settles_step ].
Qed.

Lemma settles_flow_steps (rest : list FlowStep) :
  incl rest steps ->
  forall i results,
    settles_from Inv
      (flow_steps ctx depth flowStart maxDuration cur i rest results).
Proof.
  induction rest as [|step rest IH]; intros Hincl i results; simpl.
  - apply settles_ret.
  - assert (Hin : In step steps) by (apply Hincl; now left).
    assert (Hrest : incl rest steps)
      by (intros st Hst; apply Hincl; now right).
    unfold run_step.
    repeat first [ now apply settles_step_iters | now apply IH
                 | settles_step ].
Qed.

End SettledFlow.

Section FlowAnswers.

Context {E : Env}.


(** X12. The report of run_flow follows the steps. When run_flow
    returns, its answer is one of the three refusals that come before
    any step (no steps, too many steps, an action that is not allowed),
    or the report of some rows whose step numbers grow strictly and
    each of which carries the action and the label of the declared step
    of its number: no step is reported twice, none out of order, and
    there are at most as many rows as steps. *)
Theorem run_flow_report_follows_the_steps (args : JsObject)
    (ctx : ToolContext) (depth : Z) (s s' : State) (fa : FlowArgs)
    (response : Response) (t : Trace) :
  decode_flow_args args = Some fa ->
  run_flow_handler args ctx depth s = (Ok response, s', t) ->
  refusal (declared_steps fa) response
  \/ exists rows total,
       response = text_response (formatFlowResults rows total)
       /\ rows_follow 0 (declared_steps fa) rows
       /\ (List.length rows <= List.length (declared_steps fa))%nat.
Proof.
  intros Hfa. unfold run_flow_handler.
  destruct (depth >? MAX_RECURSION_DEPTH); [discriminate|].
  rewrite (bind_typed _ fa) by assumption.
  rewrite bind_current_platform. unfold declared_steps.
  destruct (flow_steps_arg fa) as [[|st steps]|];
    try (intros [= <- _ _]; left; left; reflexivity).
  cbn [or_else].
  destruct (Z.of_nat (List.length (st :: steps)) >? FLOW_MAX_STEPS);
    [intros [= <- _ _]; left; right; left; reflexivity|].
  destruct (find _ (st :: steps)) as [bad|] eqn:Hfind.
  { intros [= <- _ _]. left. right. right. exists bad.
    apply find_some in Hfind. destruct Hfind as [Hin Hbad].
    apply negb_true_iff in Hbad. auto. }
  rewrite bind_date_now. unfold bind.
  destruct (flow_steps _ _ _ _ _ _ _ _ s) as [[[rows|f] s1] t1] eqn:Hrun;
    [|discriminate].
  intros [= <- _ _]. right. exists rows. eexists. split; [reflexivity|].
  destruct (flow_steps_rows _ _ _ _ _ _ _ _ _ _ _ _ Hrun)
    as (added & -> & Hrows).
  simpl. split; auto.
  (* growing numbers that index the steps: no more rows than steps *)
  destruct Hrows as [Hinc Hall].
  assert (Hle : Forall (fun x => x <= Z.of_nat (List.length (st :: steps)))
                  (List.map fsr_step added)).
  { rewrite Forall_map. eapply Forall_impl; [|exact Hall].
    intros r (st' & Hnth & Hrow).
    assert (Hlt : (Z.to_nat (fsr_step r - 0 - 1)
                   < List.length (st :: steps))%nat)
      by (apply nth_error_Some; now rewrite Hnth).
    lia. }
  assert (Hlen := increasing_from_length _ _ _ Hinc Hle ltac:(lia)).
  rewrite length_map in Hlen. cbn [List.length] in *. lia.
Qed.

End FlowAnswers.

Section FlowCost.

Context {E : Env}.

Variables (ctx : ToolContext) (depth flowStart maxDuration : Z).
Variable cur : option string.

Lemma calls_fail site {A} (f : Failure) (n : nat) :
  calls_at_most site n (@fail E A f).
Proof. intros s. unfold calls_at. simpl. lia. Qed.

Lemma scroll_and_retry_no_batch step i stepStart inf :
  calls_at_most BatchCommand 0
    (scroll_and_retry ctx depth cur step i stepStart inf).
Proof. apply calls_none. unfold scroll_and_retry. no_calls. Qed.

Lemma step_iters_no_batch step i (fuel : nat) :
  forall iter last,
    calls_at_most BatchCommand 0
      (step_iters ctx depth flowStart maxDuration cur step i fuel iter
         last).
Proof.
  induction fuel as [|fuel IH]; intros iter last; simpl.
  - apply calls_ret.
  - change 0%nat with (0 + 0)%nat.
    apply step_body_calls with (fallback := 0%nat).
    + intros inner. simpl. lia.
    + apply scroll_and_retry_no_batch.
    + lia.
    + intros l. apply IH.
Qed.

Lemma run_step_cost (site : CallSite) step i :
  calls_at_most site (per_step site)
    (run_step ctx depth flowStart maxDuration cur step i).
Proof.
  unfold run_step. destruct site; simpl.
  - apply step_iters_no_batch.
  - eapply calls_weaken; [apply step_iters_attempts|].
    pose proof (maxIterations_capped step) as Hcap.
    unfold FLOW_MAX_REPEAT in Hcap. lia.
  - apply step_iters_fallbacks. now left.
  - apply step_iters_fallbacks. now right.
Qed.

Lemma flow_steps_cost (site : CallSite) (steps : list FlowStep) :
  forall i results,
    calls_at_most site (per_step site * List.length steps)
      (flow_steps ctx depth flowStart maxDuration cur i steps results).
Proof.
  induction steps as [|step steps IH]; intros i results;
    cbn [flow_steps List.length].
  - apply calls_ret.
  - apply calls_bind_free; [no_calls | intros t].
    destruct (t - flowStart >? maxDuration); [apply calls_ret|].
    replace (per_step site * S (List.length steps))%nat
      with (per_step site + per_step site * List.length steps)%nat by lia.
    apply calls_bind; [apply run_step_cost|].
    intros [[last|]|last]; try apply calls_ret; try apply IH.
    destruct (negb (fsr_success last) && _); [apply calls_ret | apply IH].
Qed.

End FlowCost.

Section FlowBudget.

Context {E : Env}.

Lemma dispatches_length (tr : Trace) :
  List.length (dispatches tr)
  = (calls_at BatchCommand tr + calls_at FlowStepAttempt tr
     + calls_at FlowFallbackSwipe tr + calls_at FlowFallbackRetry tr)%nat.
Proof.
  unfold calls_at. induction tr as [|ev tr IH]; simpl; auto.
  destruct ev as [| [] | |]; simpl; lia.
Qed.

Lemma run_flow_cost (site : CallSite) (args : JsObject)
    (ctx : ToolContext) (depth : Z) :
  calls_at_most site (per_step site * 20)
    (run_flow_handler args ctx depth).
Proof.
  unfold run_flow_handler.
  destruct (depth >? MAX_RECURSION_DEPTH); [apply calls_fail|].
  apply calls_bind_free; [no_calls | intros fa].
  apply calls_bind_free; [no_calls | intros active].
  destruct (flow_steps_arg fa) as [[|st steps]|]; try apply calls_ret.
  destruct (Z.gtb_spec (Z.of_nat (List.length (st :: steps)))
              FLOW_MAX_STEPS) as [_|Hlen]; [apply calls_ret|].
  destruct (find _ (st :: steps)); [apply calls_ret|].
  apply calls_bind_free; [no_calls | intros flowStart].
  eapply calls_weaken with (n := (per_step site
                                  * List.length (st :: steps) + 0)%nat).
  - apply calls_bind; [apply flow_steps_cost | intros results].
    apply calls_bind_free; [no_calls | intros; apply calls_ret].
  - unfold FLOW_MAX_STEPS in Hlen. nia.
Qed.

(** X13. What a flow can cost. In one call of run_flow a step is
    dispatched at most 10 times at the top of its iterations, and the
    scroll fallback adds at most one swipe and one retry to a step; with
    at most 20 steps that is at most 200 attempts, 20 swipes and 20
    retries, 240 calls of [ctx.handleTool] in all. *)
Theorem run_flow_dispatches_are_bounded (args : JsObject)
    (ctx : ToolContext) (depth : Z) (s : State) :
  let tr := trace_of (run_flow_handler args ctx depth s) in
  (calls_at FlowStepAttempt tr <= 200)%nat
  /\ (calls_at FlowFallbackSwipe tr <= 20)%nat
  /\ (calls_at FlowFallbackRetry tr <= 20)%nat
  /\ (List.length (dispatches tr) <= 240)%nat.
Proof.
  intros tr. unfold tr. rewrite dispatches_length.
  pose proof (run_flow_cost BatchCommand args ctx depth s).
  pose proof (run_flow_cost FlowStepAttempt args ctx depth s).
  pose proof (run_flow_cost FlowFallbackSwipe args ctx depth s).
  pose proof (run_flow_cost FlowFallbackRetry args ctx depth s).
  simpl in *. lia.
Qed.

End FlowBudget.

(* ------------------------------------------------------------------ *)
(** * batch_commands at the depth limit *)
(* ------------------------------------------------------------------ *)

Section BatchAtTheLimit.

Context {E : Env}.

Lemma handleTool_fuel_guard (fuel : nat) (reg : Registry) :
  guarded (mkToolContext (handleTool_fuel (S fuel) reg)).
Proof.
  intros name args depth s Hd. simpl.
  destruct (Z.gtb_spec depth MAX_RECURSION_DEPTH); [reflexivity | lia].
Qed.

(** The dispatcher within the limit, with the context it hands on. *)
Lemma handleTool_fuel_run (fuel : nat) (reg : Registry) (name : string)
    (args : JsObject) (depth : Z) (h : Handler) (s : State) :
  depth <= MAX_RECURSION_DEPTH ->
  getHandler reg name = Some h ->
  handleTool_fuel (S fuel) reg name args depth s
  = (let '(r, s', t) :=
       h args (mkToolContext (handleTool_fuel fuel reg)) depth s in
     (r, s', EvInvoke name args depth :: t)).
Proof.
  intros Hd Hh. cbn [handleTool_fuel].
  destruct (Z.gtb_spec depth MAX_RECURSION_DEPTH); [lia|].
  rewrite Hh. unfold bind, emit.
  now destruct (h args _ depth s) as [[r s'] t].
Qed.

Lemma batch_loop_refused (ctx : ToolContext) (stopOnError : bool) :
  guarded ctx ->
  forall commands results s,
    batch_loop ctx MAX_RECURSION_DEPTH stopOnError commands results s
    = (Ok (results
           ++ List.map refused_by_guard
                (if stopOnError then firstn 1 commands else commands))%list,
       s,
       List.map (fun cmd => batch_call MAX_RECURSION_DEPTH cmd [])
         (if stopOnError then firstn 1 commands else commands)).
Proof.
  intros Hg. induction commands as [|cmd rest IH]; intros results s.
  - destruct stopOnError; simpl; now rewrite app_nil_r.
  - rewrite batch_loop_cons.
    rewrite Hg by (unfold MAX_RECURSION_DEPTH; lia).
    destruct stopOnError.
    + reflexivity.
    + rewrite IH. cbn [List.map]. rewrite <- app_assoc. reflexivity.
Qed.

(** X14. The deepest batch runs nothing. A batch_commands reached
    through the dispatcher at depth 3, the limit, is itself run, but
    each command it sends goes to depth 4 and is refused by the depth
    guard: the report has, for the first command when [stopOnError]
    holds and for every command otherwise, a failed entry with the
    message of the guard; no tool is run and the state is unchanged. *)
Theorem batch_at_depth_limit_is_refused (reg : Registry) (name : string)
    (args : JsObject) (commands : list Command) (s : State) :
  getHandler reg name = Some batch_commands_handler ->
  as_opt_array decode_command (Obj.get args "commands")
  = Some (Some commands) ->
  commands <> [] ->
  let attempted :=
    if stopOnError_of args then firstn 1 commands else commands in
  handleTool reg name args MAX_RECURSION_DEPTH s
  = (Ok (text_response
           (batch_text (List.map refused_by_guard attempted)
              (List.length commands))),
     s,
     EvInvoke name args MAX_RECURSION_DEPTH
     :: List.map (fun cmd => batch_call MAX_RECURSION_DEPTH cmd [])
          attempted).
Proof.
  intros Hh Hcmds Hne attempted.
  unfold handleTool, fuel_for.
  change (Z.to_nat (MAX_RECURSION_DEPTH + 1 - MAX_RECURSION_DEPTH))
    with 1%nat.
  rewrite (handleTool_fuel_run 1 reg name args MAX_RECURSION_DEPTH
             batch_commands_handler s) by (auto; reflexivity).
  destruct commands as [|cmd rest]; [contradiction|].
  rewrite (batch_handler_run args _ MAX_RECURSION_DEPTH cmd rest s)
    by (auto; reflexivity).
  rewrite batch_loop_refused by apply handleTool_fuel_guard.
  reflexivity.
Qed.

End BatchAtTheLimit.

(* ------------------------------------------------------------------ *)
(** * tap: what it says and what it does *)
(* ------------------------------------------------------------------ *)

Ltac conjuncts :=
  repeat match goal with |- _ /\ _ => split end.

Ltac emits_any :=
  first [ emits_step
        | apply emits_only_adapter
        | apply emits_only_getCachedElements
        | apply emits_only_setCachedElements ].

Section TapReports.

Context {E : Env}.

Lemma never_throws_try_catch {A} (m : M A) (h : JsError -> M A) :
  (forall e, never_throws (h e)) -> never_throws (try_catch m h).
Proof.
  intros Hh s e. unfold try_catch, result_of.
  destruct (m s) as [[[a|[e'| |]] s1] t1]; try discriminate.
  specialize (Hh e' s1 e). unfold result_of in Hh.
  now destruct (h e' s1) as [[r s2] t2].
Qed.

Lemma ensures_try_catch {A} (P : A -> Prop) (m : M A)
    (h : JsError -> M A) :
  ensures P m -> (forall e, ensures P (h e)) ->
  ensures P (try_catch m h).
Proof.
  intros Hm Hh s a s' t. unfold try_catch.
  destruct (m s) as [[[a'|[e| |]] s1] t1] eqn:Hms; try discriminate.
  - intros [= <- <- <-]. eapply Hm; eauto.
  - destruct (h e s1) as [[r s2] t2] eqn:Hhe. intros [= -> <- <-].
    eapply Hh; eauto.
Qed.

Lemma tapped_after_quiet (t1 t2 : Trace) :
  Forall not_a_tap t1 -> tapped (t1 ++ t2)%list <-> tapped t2.
Proof.
  intros Hq. unfold tapped. split; intros (x & y & Hin);
    exists x, y; [|apply in_or_app; now right].
  apply in_app_or in Hin. destruct Hin as [Hin|Hin]; auto.
  rewrite Forall_forall in Hq. now destruct (Hq _ Hin).
Qed.

Lemma not_tapped_quiet (t : Trace) : Forall not_a_tap t -> ~ tapped t.
Proof.
  intros Hq (x & y & Hin). rewrite Forall_forall in Hq.
  exact (Hq _ Hin).
Qed.

(** A computation without a tap whose answers do not say "Tapped at". *)
Lemma reports_quiet (m : M Response) :
  emits_only not_a_tap m -> ensures (fun r => says_tapped r = false) m ->
  reports_taps m.
Proof.
  intros Hq He s. specialize (Hq s). specialize (He s).
  unfold result_of, trace_of in *.
  destruct (m s) as [[[r|f] s1] t1]; simpl in *; auto.
  specialize (He r s1 t1 eq_refl). rewrite He.
  split; [intros Ht; now apply not_tapped_quiet in Ht | discriminate].
Qed.

Lemma reports_bind_with {A} (Q : A -> Prop) (m : M A)
    (k : A -> M Response) :
  emits_only not_a_tap m -> ensures Q m ->
  (forall a, Q a -> reports_taps (k a)) ->
  reports_taps (bind m k).
Proof.
  intros Hq He Hk s. specialize (Hq s). specialize (He s).
  unfold bind, result_of, trace_of in *.
  destruct (m s) as [[[a|f] s1] t1]; simpl in *; auto.
  specialize (Hk a (He a s1 t1 eq_refl) s1).
  unfold result_of, trace_of in Hk.
  destruct (k a s1) as [[[r|f] s2] t2]; simpl in *; auto.
  now rewrite tapped_after_quiet.
Qed.

Lemma reports_bind_free {A} (m : M A) (k : A -> M Response) :
  emits_only not_a_tap m -> (forall a, reports_taps (k a)) ->
  reports_taps (bind m k).
Proof.
  intros Hq Hk. apply reports_bind_with with (Q := fun _ => True); auto.
  now intros s a s' t _.
Qed.

Lemma generateActionHints_quiet (platform : option string) :
  emits_only not_a_tap (generateActionHints platform).
Proof.
  unfold generateActionHints, capture_after. repeat emits_any; exact I.
Qed.

Lemma says_tapped_at (x y : Z) (rest : string) :
  says_tapped (text_response (tapped_at x y ++ rest)) = true.
Proof.
  unfold says_tapped, tapped_at. simpl.
  now destruct ((JsString.of_Z x ++ _) ++ rest).
Qed.

Lemma tap_and_report_reports x y platform targetPid hints :
  reports_taps (tap_and_report x y platform targetPid hints).
Proof.
  intros s. unfold tap_and_report, bind, adapter, result_of, trace_of.
  destruct (dm_tap x y platform targetPid (device s)) as [[[]|f] d];
    simpl; auto.
  destruct hints.
  - destruct (generateActionHints platform _) as [[[h|f] s2] t2];
      simpl; auto.
    split; [intros _; apply says_tapped_at|].
    intros _. exists x, y. now left.
  - simpl. split.
    + intros _. unfold says_tapped, tapped_at. simpl.
      now destruct (JsString.of_Z x ++ _).
    + intros _. exists x, y. now left.
Qed.

(** X15. tap says what it did. Whenever the tap tool returns, its
    answer begins with "Tapped at (" if and only if a tap at
    coordinates was sent to the backend during the call: the answers
    for an element that was not found, for an index that is not in the
    cache, for missing coordinates and for an iOS element come without
    such a tap, and a tap is never sent without being reported. *)
Theorem tap_says_what_it_did (args : JsObject) (ctx : ToolContext)
    (depth : Z) (s : State) :
  let out := tap_handler args ctx depth s in
  match result_of out with
  | Ok r => tapped (trace_of out) <-> says_tapped r = true
  | Fail _ => True
  end.
Proof.
  revert s. change (reports_taps (tap_handler args ctx depth)).
  unfold tap_handler.
  do 9 (apply reports_bind_free; [repeat emits_any | intros ?]).
  match goal with |- reports_taps (if ?c then _ else _) => destruct c end.
  - apply reports_quiet.
    + repeat emits_any; exact I.
    + apply ensures_try_catch; [|intros e]; repeat ensures_step;
        reflexivity.
  - apply reports_bind_with
      with (Q := fun r => match r with
                          | inl early => says_tapped early = false
                          | inr _ => True
                          end).
    + repeat emits_any; exact I.
    + repeat ensures_step; auto.
    + intros [early|[x1 y1]] Hearly.
      { apply reports_quiet; [repeat emits_any|now apply ensures_ret]. }
      apply reports_bind_with
        with (Q := fun r => match r with
                            | inl early => says_tapped early = false
                            | inr _ => True
                            end).
      * repeat emits_any; exact I.
      * repeat ensures_step; auto.
      * intros [early|[[x|] [y|]]] Hearly2;
          try (apply reports_quiet;
               [repeat emits_any
               |apply ensures_ret; auto; reflexivity]).
        apply tap_and_report_reports.
Qed.

Lemma given_truthy (args : JsObject) (key : string) (o : option string) :
  as_opt_string (Obj.get args key) = Some o ->
  given args key = truthy_opt o.
Proof.
  unfold given. destruct (Obj.get args key); simpl; try discriminate;
    now intros [= <-].
Qed.

Lemma requested_platform_read (args : JsObject) (s : State)
    (platform : option string) :
  as_opt_string (Obj.get args "platform") = Some platform ->
  requested_platform args s
  = match platform with
    | Some p => Some p
    | None => getCurrentPlatform (device s)
    end.
Proof.
  unfold requested_platform.
  destruct (Obj.get args "platform"); simpl; try discriminate;
    now intros [= <-].
Qed.

(** X16. A tap on an iOS element stays with the iOS client and does
    not throw. When the platform is "ios" and a label or a text is
    given, the tool only calls [findElement] and [tapElement] of the
    iOS client, never the coordinate tap, leaves the caches alone, and
    does not throw: what these two calls throw is caught. *)
Theorem tap_on_ios_element_never_throws (args : JsObject)
    (ctx : ToolContext) (depth : Z) (s : State) :
  requested_platform args s = Some "ios" ->
  given args "label" || given args "text" = true ->
  let out := tap_handler args ctx depth s in
  (forall e, result_of out <> Throw e)
  /\ Forall ios_element_call (trace_of out)
  /\ cachedElementsMap (final_state out) = cachedElementsMap s
  /\ lastScreenshotMap (final_state out) = lastScreenshotMap s.
Proof.
  intros Hp Hg out. unfold out, tap_handler.
  repeat
    match goal with
    | |- context [bind (typed ?o) _ s] =>
        let v := fresh "v" in
        let H := fresh "Hread" in
        destruct o as [v|] eqn:H;
        [ rewrite (bind_typed _ v _ _ eq_refl)
        | repeat split; [discriminate | constructor] ]
    end.
  rewrite bind_current_platform.
  rewrite (requested_platform_read _ _ _ Hread) in Hp.
  rewrite (given_truthy _ _ _ Hread3), (given_truthy _ _ _ Hread2) in Hg.
  rewrite Hp, Hg. cbn [platform_is String.eqb Ascii.eqb Bool.eqb andb].
  unfold try_catch, bind, adapter, ret, result_of, trace_of, final_state.
  destruct (ios_findElement v2 v3 (device s)) as [[el|[e| |]] d]; simpl;
    try (repeat split;
         [discriminate | repeat constructor; now left]).
  destruct (ios_tapElement el d) as [[[]|[e| |]] d']; simpl;
    repeat split; try discriminate;
    repeat constructor; (now left) || (now right).
Qed.

End TapReports.

(* ------------------------------------------------------------------ *)
(** * screenshot: the stable capture and the remembered capture *)
(* ------------------------------------------------------------------ *)

Section ScreenshotCapture.

Context {E : Env}.

Variable platform : string.

Abbreviation capture :=
  (adapter (OpGetScreenshotBufferAsync platform)
     (dm_getScreenshotBufferAsync platform)).

Abbreviation recapture :=
  [EvSleep 300; EvAdapter (OpGetScreenshotBufferAsync platform)].

Lemma capture_run (s : State) :
  capture s
  = (fst (dm_getScreenshotBufferAsync platform (device s)),
     with_device (snd (dm_getScreenshotBufferAsync platform (device s))) s,
     [EvAdapter (OpGetScreenshotBufferAsync platform)]).
Proof.
  unfold adapter, with_device.
  now destruct (dm_getScreenshotBufferAsync platform (device s)).
Qed.

Lemma stable_loop_shape (retries : nat) :
  forall prev s,
    let out := stable_loop capture retries prev s in
    exists k,
      (k <= retries)%nat
      /\ trace_of out = concat (repeat recapture k)
      /\ ((0 < retries)%nat -> (0 < k)%nat)
      /\ cachedElementsMap (final_state out) = cachedElementsMap s
      /\ lastScreenshotMap (final_state out) = lastScreenshotMap s
      /\ (forall buf, result_of out = Ok buf ->
                      buf = prev \/ captured platform buf).
Proof.
  induction retries as [|retries IH]; intros prev s out; unfold out.
  - exists 0%nat. simpl. conjuncts; auto; try lia.
    intros buf [= <-]. now left.
  - cbn [stable_loop].
    rewrite (bind_ok_prepend (sleep STABLE_INTERVAL_MS) _ tt s
               (after_delay STABLE_INTERVAL_MS s)
               [EvSleep STABLE_INTERVAL_MS]) by apply sleep_run.
    set (s1 := after_delay STABLE_INTERVAL_MS s).
    pose proof (capture_run s1) as Hcap.
    destruct (dm_getScreenshotBufferAsync platform (device s1))
      as [[next|f] d] eqn:Hbackend; cbn [fst snd] in Hcap.
    + rewrite (bind_ok_prepend capture _ next s1 (with_device d s1)
                 [EvAdapter (OpGetScreenshotBufferAsync platform)])
        by exact Hcap.
      unfold lift.
      destruct (compareScreenshots prev next 30) as [diff|f] eqn:Hcmp.
      * rewrite (bind_ok_prepend _ _ diff (with_device d s1)
                   (with_device d s1) []) by reflexivity.
        destruct (Qltb (changePercent diff) STABLE_THRESHOLD_PERCENT).
        -- exists 1%nat. simpl. conjuncts; auto; try lia.
           intros buf [= <-]. right. exists (device s1).
           exact (f_equal fst Hbackend).
        -- destruct (IH next (with_device d s1))
             as (k & Hk & Htr & Hpos & Hc & Hl & Hb).
           exists (S k). unfold trace_of, final_state, result_of in *.
           destruct (stable_loop _ retries next _) as [[r s2] t2].
           simpl in *. conjuncts; auto; try lia.
           ++ now rewrite Htr.
           ++ intros buf Hbuf. destruct (Hb buf Hbuf) as [->|Hcapd]; auto.
              right. exists (device s1). exact (f_equal fst Hbackend).
      * rewrite (bind_fail _ _ f (with_device d s1) (with_device d s1) [])
          by reflexivity.
        exists 1%nat. simpl. conjuncts; auto; try lia. discriminate.
    + rewrite (bind_fail capture _ f s1 (with_device d s1)
                 [EvAdapter (OpGetScreenshotBufferAsync platform)])
        by exact Hcap.
      exists 1%nat. simpl. conjuncts; auto; try lia. discriminate.
Qed.

(** X17. Waiting for a stable screen is bounded. With
    [waitForStable], a capture phase is one capture followed by at most
    three rounds of a pause of 300 ms and a new capture, and nothing
    else; it returns only after at least one such round, what it returns
    is a buffer the backend gave, and it touches neither the element
    cache nor the last screenshots. *)
Theorem waitForStableScreenshot_is_bounded (s : State) :
  let out := capture_phase true platform s in
  exists k,
    (k <= 3)%nat
    /\ trace_of out = stable_trace platform k
    /\ (is_ok (result_of out) = true -> (1 <= k)%nat)
    /\ (forall buf, result_of out = Ok buf -> captured platform buf)
    /\ cachedElementsMap (final_state out) = cachedElementsMap s
    /\ lastScreenshotMap (final_state out) = lastScreenshotMap s.
Proof.
  intros out. unfold out, capture_phase, waitForStableScreenshot.
  pose proof (capture_run s) as Hcap.
  destruct (dm_getScreenshotBufferAsync platform (device s))
    as [[prev|f] d] eqn:Hbackend; cbn [fst snd] in Hcap.
  - rewrite (bind_ok_prepend capture _ prev s (with_device d s)
               [EvAdapter (OpGetScreenshotBufferAsync platform)])
      by exact Hcap.
    destruct (stable_loop_shape STABLE_MAX_RETRIES prev (with_device d s))
      as (k & Hk & Htr & Hpos & Hc & Hl & Hb).
    exists k. unfold trace_of, final_state, result_of, stable_trace in *.
    destruct (stable_loop _ _ prev _) as [[r s2] t2]. simpl in *.
    unfold STABLE_MAX_RETRIES in *.
    conjuncts; auto; try lia.
    + now rewrite Htr.
    + intros buf Hbuf. destruct (Hb buf Hbuf) as [->|Hcapd]; auto.
      exists (device s). exact (f_equal fst Hbackend).
  - rewrite (bind_fail capture _ f s (with_device d s)
               [EvAdapter (OpGetScreenshotBufferAsync platform)])
      by exact Hcap.
    exists 0%nat. simpl. conjuncts; auto; try lia; discriminate.
Qed.

End ScreenshotCapture.

Section ScreenshotMemory.

Context {E : Env}.

Lemma final_state_prepend {A} (t : Trace) (o : Res A * State * Trace) :
  final_state (prepend t o) = final_state o.
Proof. now destruct o as [[r s] t']. Qed.

Lemma keeps_state_ret {A} (a : A) : keeps_state (ret a).
Proof. now intros s. Qed.

Lemma keeps_state_lift {A} (r : Res A) : keeps_state (lift r).
Proof. now intros s. Qed.

Lemma keeps_state_bind {A B} (m : M A) (k : A -> M B) :
  keeps_state m -> (forall a, keeps_state (k a)) ->
  keeps_state (bind m k).
Proof.
  intros Hm Hk s. specialize (Hm s). unfold bind, final_state in *.
  destruct (m s) as [[[a|f] s1] t1]; simpl in *; auto.
  specialize (Hk a s1). unfold final_state in Hk.
  destruct (k a s1) as [[r s2] t2]. simpl in *. congruence.
Qed.

Lemma keeps_state_encode_image compress options buf :
  keeps_state (encode_image compress options buf).
Proof.
  unfold encode_image. destruct compress;
    [apply keeps_state_lift | apply keeps_state_ret].
Qed.

Lemma keeps_state_diff_tiers compress options buf diff :
  keeps_state (diff_tiers compress options buf diff).
Proof.
  unfold diff_tiers. cbv zeta.
  repeat first
    [ apply keeps_state_ret | apply keeps_state_lift
    | apply keeps_state_encode_image
    | apply keeps_state_bind; [|intros]
    | match goal with
      | |- keeps_state (if ?b then _ else _) => destruct b
      | |- keeps_state (match ?x with _ => _ end) => destruct x
      end ].
Qed.

Lemma capture_phase_keeps_the_maps (stable : bool) (platform : string)
    (s : State) :
  let out := capture_phase stable platform s in
  cachedElementsMap (final_state out) = cachedElementsMap s
  /\ lastScreenshotMap (final_state out) = lastScreenshotMap s.
Proof.
  intros out. unfold out, capture_phase. destruct stable.
  - unfold waitForStableScreenshot.
    pose proof (capture_run platform s) as Hcap.
    destruct (dm_getScreenshotBufferAsync platform (device s))
      as [[prev|f] d]; cbn [fst snd] in Hcap.
    + rewrite (bind_ok_prepend _ _ prev s (with_device d s)
                 [EvAdapter (OpGetScreenshotBufferAsync platform)])
        by exact Hcap.
      destruct (stable_loop_shape platform STABLE_MAX_RETRIES prev
                  (with_device d s))
        as (k & _ & _ & _ & Hc & Hl & _).
      unfold final_state in *.
      destruct (stable_loop _ _ prev _) as [[r s2] t2]. simpl in *. auto.
    + rewrite (bind_fail _ _ f s (with_device d s)
                 [EvAdapter (OpGetScreenshotBufferAsync platform)])
        by exact Hcap.
      auto.
  - rewrite capture_run. auto.
Qed.

Lemma screenshot_platform_read (args : JsObject) (s : State)
    (platform : option string) :
  as_opt_string (Obj.get args "platform") = Some platform ->
  platform_or_android platform (getCurrentPlatform (device s))
  = screenshot_platform args s.
Proof.
  unfold screenshot_platform.
  destruct (Obj.get args "platform"); simpl; try discriminate;
    now intros [= <-].
Qed.

(** X18. screenshot remembers what it captured. Once the capture
    phase returned a buffer, that buffer is the last screenshot of the
    platform when the call ends, in diff mode and in plain mode, also
    when the comparison, the cropping or the compression that follow
    fail; the last screenshots of the other platforms and the element
    cache are as before. In diff mode without an earlier screenshot of
    the platform the answer, if any, is the whole image with the text
    "First screenshot (no previous to diff against)". *)
Theorem screenshot_remembers_its_capture (args : JsObject)
    (ctx : ToolContext) (depth : Z) (s s1 : State) (t1 : Trace)
    (pngBuffer : Buffer) :
  screenshot_args_typed args ->
  let cur := screenshot_platform args s in
  capture_phase (is_true (Obj.get args "waitForStable")) cur s
  = (Ok pngBuffer, s1, t1) ->
  let out := screenshot_handler args ctx depth s in
  lastScreenshotMap (final_state out)
  = JsMap.set (lastScreenshotMap s) cur pngBuffer
  /\ JsMap.get (lastScreenshotMap (final_state out)) cur = Some pngBuffer
  /\ (forall other, cur <> other ->
        JsMap.get (lastScreenshotMap (final_state out)) other
        = JsMap.get (lastScreenshotMap s) other)
  /\ cachedElementsMap (final_state out) = cachedElementsMap s
  /\ (Obj.get args "diff" = JBool true ->
      JsMap.get (lastScreenshotMap s) cur = None ->
      forall response,
        result_of out = Ok response ->
        resp_text response
        = Some "First screenshot (no previous to diff against)"
        /\ resp_image response <> None).
Proof.
  intros (Hp & Ht & Hw & Hh & Hq & Hm) cur Hcap out.
  destruct (capture_phase_keeps_the_maps
              (is_true (Obj.get args "waitForStable")) cur s)
    as [Hc1 Hl1].
  rewrite Hcap in Hc1, Hl1. cbn [final_state fst snd] in Hc1, Hl1.
  assert (Hstore :
            lastScreenshotMap (final_state out)
            = JsMap.set (lastScreenshotMap s) cur pngBuffer
            /\ cachedElementsMap (final_state out) = cachedElementsMap s
            /\ (Obj.get args "diff" = JBool true ->
                JsMap.get (lastScreenshotMap s) cur = None ->
                forall response,
                  result_of out = Ok response ->
                  resp_text response
                  = Some "First screenshot (no previous to diff against)"
                  /\ resp_image response <> None)).
  { unfold out, screenshot_handler.
    destruct (as_opt_string (Obj.get args "platform")) as [platform|] eqn:Hplatform;
      [|contradiction].
    destruct (as_opt_number (Obj.get args "diffThreshold")) as [threshold|];
      [|contradiction].
    destruct (as_opt_number (Obj.get args "maxWidth")) as [mw|];
      [|contradiction].
    destruct (as_opt_number (Obj.get args "maxHeight")) as [mh|];
      [|contradiction].
    destruct (as_opt_number (Obj.get args "quality")) as [q|];
      [|contradiction].
    destruct (as_opt_number (Obj.get args "monitorIndex")) as [mi|];
      [|contradiction].
    rewrite !(bind_typed _ _ _ _ eq_refl).
    rewrite bind_current_platform.
    rewrite (screenshot_platform_read _ _ _ Hplatform). fold cur.
    fold (capture_phase (is_true (Obj.get args "waitForStable")) cur).
    set (compress := is_not_false (Obj.get args "compress")).
    set (options := mkCompressOptions mw mh q mi).
    destruct (is_true (Obj.get args "diff")) eqn:Hdiff.
    - rewrite (bind_ok_prepend _ _ pngBuffer s s1 t1 Hcap).
      rewrite (bind_ok_prepend (get_last_screenshot cur) _
                 (JsMap.get (lastScreenshotMap s1) cur) s1 s1 [])
        by reflexivity.
      rewrite (bind_ok_prepend (set_last_screenshot cur pngBuffer) _ tt s1
                 (with_last_screenshot cur pngBuffer s1) [])
        by reflexivity.
      rewrite !prepend_prepend, Hl1.
      destruct (JsMap.get (lastScreenshotMap s) cur) as [prev|] eqn:Hprev.
      + rewrite final_state_prepend.
        rewrite (keeps_state_bind _ _ (keeps_state_lift _)
                   (fun diff => keeps_state_diff_tiers _ _ _ diff)).
        unfold with_last_screenshot. simpl. rewrite Hl1, Hc1.
        conjuncts; auto. intros _ Hnone. discriminate.
      + rewrite final_state_prepend.
        rewrite (keeps_state_bind _ _ (keeps_state_encode_image _ _ _)
                   (fun result => keeps_state_ret _)).
        unfold with_last_screenshot. simpl. rewrite Hl1, Hc1.
        conjuncts; auto. intros _ _ response.
        unfold bind, ret, prepend, result_of.
        destruct (encode_image compress options pngBuffer _)
          as [[[img|f] s3] t3]; simpl; [|discriminate].
        intros [= <-]. simpl. split; [reflexivity | discriminate].
    - rewrite (bind_ok_prepend _ _ pngBuffer s s1 t1 Hcap).
      rewrite (bind_ok_prepend (set_last_screenshot cur pngBuffer) _ tt s1
                 (with_last_screenshot cur pngBuffer s1) [])
        by reflexivity.
      rewrite !prepend_prepend, final_state_prepend.
      rewrite (keeps_state_bind _ _ (keeps_state_encode_image _ _ _)
                 (fun result => keeps_state_ret _)).
      unfold with_last_screenshot. simpl. rewrite Hl1, Hc1.
      conjuncts; auto. intros Hd.
      unfold is_true in Hdiff. rewrite Hd in Hdiff. discriminate. }
  destruct Hstore as (Hset & Hcache & Hfirst).
  conjuncts; auto.
  - rewrite Hset. apply MapFacts.get_set_same.
  - intros other Hne. rewrite Hset. now apply MapFacts.get_set_other.
Qed.

End ScreenshotMemory.

(* ------------------------------------------------------------------ *)
(** * The tools of [ui-tools.ts] *)
(* ------------------------------------------------------------------ *)

Section Assertions.

Context {E : Env} {P : UiParser}.

Lemma bind_platform_or_active {B} (platform : option string)
    (k : option string -> M B) (s : State) :
  bind (platform_or_active platform) k s
  = k (match platform with
       | Some p => Some p
       | None => getCurrentPlatform (device s)
       end) s.
Proof.
  unfold platform_or_active, bind, current_platform, ret.
  now destruct (k _ s) as [[r s2] t2].
Qed.

(** X19. assert_visible and assert_not_exists are complementary. Run
    from the same state with the same arguments, the two tools read the
    same hierarchy, leave the same state and the same trace, and either
    both fail in the same way, or both ask for a criterion, or exactly
    one of them answers PASS and the other FAIL. *)
Theorem assertions_are_complementary (args : JsObject)
    (ctx : ToolContext) (depth : Z) (s : State) :
  let visible := assert_visible_handler args ctx depth s in
  let absent := assert_not_exists_handler args ctx depth s in
  final_state visible = final_state absent
  /\ trace_of visible = trace_of absent
  /\ match result_of visible, result_of absent with
     | Ok v, Ok a =>
         (verdict v = Some true /\ verdict a = Some false)
         \/ (verdict v = Some false /\ verdict a = Some true)
         \/ (verdict v = None /\ verdict a = None
             /\ given args "text" || given args "resourceId" = false)
     | Fail f, Fail f' => f = f'
     | _, _ => False
     end.
Proof.
  intros visible absent. unfold visible, absent.
  unfold assert_visible_handler, assert_not_exists_handler.
  destruct (as_opt_string (Obj.get args "platform")) as [platform|];
    [rewrite !(bind_typed _ _ _ _ eq_refl) | now cbn].
  rewrite !bind_platform_or_active.
  destruct (as_opt_string (Obj.get args "text")) as [searchText|] eqn:Ht;
    [rewrite !(bind_typed _ _ _ _ eq_refl) | now cbn].
  destruct (as_opt_string (Obj.get args "resourceId")) as [searchId|] eqn:Hi;
    [rewrite !(bind_typed _ _ _ _ eq_refl) | now cbn].
  rewrite (given_truthy _ _ _ Ht), (given_truthy _ _ _ Hi).
  destruct (truthy_opt searchText || truthy_opt searchId) eqn:Hgiven.
  - replace (negb (truthy_opt searchText) && negb (truthy_opt searchId))
      with false
      by (destruct (truthy_opt searchText), (truthy_opt searchId);
          simpl in *; congruence).
    unfold bind, lift, ret, final_state, trace_of, result_of.
    destruct (asserted_elements _ s) as [[[elements|f] s1] t1]; simpl; auto.
    destruct (findElements elements _) as [[|first rest]|f]; simpl;
      [ | | now auto ].
    + conjuncts; auto.
    + destruct (formatElement first) as [formatted|f]; simpl; auto.
  - replace (negb (truthy_opt searchText) && negb (truthy_opt searchId))
      with true
      by (destruct (truthy_opt searchText), (truthy_opt searchId);
          simpl in *; congruence).
    cbn. conjuncts; auto.
Qed.

End Assertions.

Section FindAndTap.

Context {E : Env} {P : UiParser}.

(** X20. find_and_tap taps only a confident match. If a tap at
    coordinates is sent during the call, then the platform was
    "android", the hierarchy was fetched and parsed, [findBestMatch]
    returned a match for the description whose confidence is not below
    [minConfidence] (30 when it is not given), and the tap went to the
    centre of the matched element; it is the only tap of the call. *)
Theorem find_and_tap_needs_a_confident_match (args : JsObject)
    (ctx : ToolContext) (depth : Z) (s : State) (x y : Z) :
  let out := find_and_tap_handler args ctx depth s in
  In (EvAdapter (OpTap x y)) (trace_of out) ->
  requested_platform args s = Some "android"
  /\ exists description elements m,
       Obj.get args "description" = JStr description
       /\ cached (final_state out) "android" = elements
       /\ findBestMatch elements description = Ok (Some m)
       /\ (inject_Z (min_confidence args) <= match_confidence m)%Q
       /\ x = centerX (match_element m)
       /\ y = centerY (match_element m)
       /\ trace_of out
          = [EvAdapter (OpGetUiHierarchyAsync "android");
             EvAdapter (OpTap x y)].
Proof.
  intros out. unfold out, find_and_tap_handler.
  destruct (as_opt_string (Obj.get args "platform")) as [platform|]
    eqn:Hplatform;
    [rewrite (bind_typed _ _ _ _ eq_refl) | intros []].
  rewrite bind_platform_or_active.
  rewrite (requested_platform_read _ _ _ Hplatform).
  set (cur := match platform with
              | Some p => Some p
              | None => getCurrentPlatform (device s)
              end).
  destruct (platform_is cur "android") eqn:Hcur; [|intros []].
  cbn [negb].
  destruct (Obj.get args "description") as [| | | |description| |]
    eqn:Hdesc; try (intros []).
  cbn [as_string]. rewrite (bind_typed _ _ _ _ eq_refl).
  assert (Hmin : as_opt_number (Obj.get args "minConfidence") = None
                 \/ as_opt_number (Obj.get args "minConfidence")
                    = Some (match Obj.get args "minConfidence" with
                            | JNum n => Some n
                            | _ => None
                            end)).
  { destruct (Obj.get args "minConfidence"); simpl; auto. }
  destruct Hmin as [Hmin|Hmin]; rewrite Hmin; [intros []|].
  rewrite (bind_typed _ _ _ _ eq_refl).
  assert (Hor : or_else (match Obj.get args "minConfidence" with
                         | JNum n => Some n
                         | _ => None
                         end) 30 = min_confidence args).
  { unfold min_confidence. now destruct (Obj.get args "minConfidence"). }
  rewrite Hor. clear Hor Hmin.
  unfold bind, adapter, lift, setCachedElements, ret, trace_of,
    final_state.
  destruct (dm_getUiHierarchyAsync "android" (device s)) as [[xml|f] d];
    simpl; [|intros [[=]|[]]].
  destruct (parseUiHierarchy xml) as [elements|f]; simpl;
    [|intros [[=]|[]]].
  destruct (findBestMatch elements description) as [[m|]|f] eqn:Hbest;
    simpl; try (intros [[=]|[]]).
  destruct (Qltb (match_confidence m) (inject_Z (min_confidence args)))
    eqn:Hconf.
  - destruct (formatElement (match_element m)); simpl; intros [[=]|[]].
  - match goal with
    | |- context [dm_tap ?a ?b ?c ?e ?f] =>
        destruct (dm_tap a b c e f) as [[[]|f'] d']
    end; simpl;
      (intros [[=]|[[= <- <-]|[]]]);
      (split;
       [ unfold platform_is in Hcur; destruct cur as [c|];
         [apply String.eqb_eq in Hcur; now subst | discriminate]
       | exists description, elements, m;
         conjuncts; auto;
         [ unfold cached; simpl; now rewrite MapFacts.get_set_same
         | now apply Qltb_ge ] ]).
Qed.

End FindAndTap.

Section WaitForElement.

Context {E : Env} {P : UiParser}.

Variables (cur : option string) (timeout interval : Z).
Variables (searchText searchId searchClass : option string).

Abbreviation waiting startTime :=
  (wait_loop cur timeout interval searchText searchId searchClass
     startTime).

Abbreviation searching startTime :=
  (poll_search searchText searchId searchClass startTime).

(** One round of the loop, by what the two halves of its [try] block
    did. *)
Lemma wait_loop_round (startTime : Z) (fuel : nat)
    (lastElements : list UiElement) (s : State) :
  now (device s) - startTime < timeout ->
  waiting startTime (S fuel) lastElements s
  = match poll_elements cur lastElements s with
    | (Ok elements, s1, t1) =>
        match searching startTime elements s1 with
        | (Ok (Some response), s2, t2) =>
            (Ok (Some response), s2, (t1 ++ t2)%list)
        | (Ok None, s2, t2) =>
            prepend (t1 ++ t2 ++ [EvSleep interval])%list
              (waiting startTime fuel elements (after_delay interval s2))
        | (Throw e, s2, t2) =>
            if is_backend_unavailable e
            then (Throw e, s2, (t1 ++ t2)%list)
            else prepend (t1 ++ t2 ++ [EvSleep interval])%list
                   (waiting startTime fuel elements
                      (after_delay interval s2))
        | (Fail f, s2, t2) => (Fail f, s2, (t1 ++ t2)%list)
        end
    | (Throw e, s1, t1) =>
        if is_backend_unavailable e then (Throw e, s1, t1)
        else prepend (t1 ++ [EvSleep interval])%list
               (waiting startTime fuel lastElements
                  (after_delay interval s1))
    | (Fail f, s1, t1) => (Fail f, s1, t1)
    end.
Proof.
  intros Hin. cbn [wait_loop]. rewrite bind_date_now.
  destruct (Z.ltb_spec (now (device s) - startTime) timeout) as [_|Hge];
    [|lia].
  unfold bind at 1, attempt at 1.
  destruct (poll_elements cur lastElements s) as [[[elements|[e| |]] s1] t1];
    try reflexivity.
  - unfold bind at 1, attempt at 1.
    destruct (searching startTime elements s1)
      as [[[[response|]|[e| |]] s2] t2]; try reflexivity.
    + unfold ret. now rewrite app_nil_r.
    + rewrite (bind_ok_prepend (sleep interval) _ tt s2
                 (after_delay interval s2) [EvSleep interval])
        by apply sleep_run.
      unfold prepend.
      destruct (waiting startTime fuel elements _) as [[r s3] t3].
      now rewrite <- !app_assoc.
    + destruct (is_backend_unavailable e).
      * unfold fail. now rewrite app_nil_r.
      * rewrite (bind_ok_prepend (sleep interval) _ tt s2
                   (after_delay interval s2) [EvSleep interval])
          by apply sleep_run.
        unfold prepend.
        destruct (waiting startTime fuel elements _) as [[r s3] t3].
        now rewrite <- !app_assoc.
  - destruct (is_backend_unavailable e).
    + unfold fail. now rewrite app_nil_r.
    + rewrite (bind_ok_prepend (sleep interval) _ tt s1
                 (after_delay interval s1) [EvSleep interval])
        by apply sleep_run.
      unfold prepend.
      destruct (waiting startTime fuel lastElements _) as [[r s3] t3].
      now rewrite <- !app_assoc.
Qed.

(** X21. wait_for_element lets the errors of an unreachable backend
    through and swallows the others. In a round of the loop that is
    still within the timeout, an error of one of the three classes
    device not found, device offline, adb not installed, thrown by the
    fetch or by the search, ends the call with that error, without a
    pause and without another poll; any other error is dropped, and the
    loop pauses for [interval] and polls again. *)
Theorem wait_for_element_poll_errors (startTime : Z) (fuel : nat)
    (lastElements : list UiElement) (s : State) :
  now (device s) - startTime < timeout ->
  (forall e s1 t1,
      poll_elements cur lastElements s = (Throw e, s1, t1) ->
      (is_backend_unavailable e = true ->
       waiting startTime (S fuel) lastElements s = (Throw e, s1, t1))
      /\ (is_backend_unavailable e = false ->
          waiting startTime (S fuel) lastElements s
          = prepend (t1 ++ [EvSleep interval])%list
              (waiting startTime fuel lastElements
                 (after_delay interval s1))))
  /\ (forall elements s1 t1 e s2 t2,
        poll_elements cur lastElements s = (Ok elements, s1, t1) ->
        searching startTime elements s1 = (Throw e, s2, t2) ->
        (is_backend_unavailable e = true ->
         waiting startTime (S fuel) lastElements s
         = (Throw e, s2, (t1 ++ t2)%list))
        /\ (is_backend_unavailable e = false ->
            waiting startTime (S fuel) lastElements s
            = prepend (t1 ++ t2 ++ [EvSleep interval])%list
                (waiting startTime fuel elements
                   (after_delay interval s2)))).
Proof.
  intros Hin. split.
  - intros e s1 t1 Hpoll.
    rewrite wait_loop_round, Hpoll by assumption.
    split; intros ->; reflexivity.
  - intros elements s1 t1 e s2 t2 Hpoll Hsearch.
    rewrite wait_loop_round, Hpoll, Hsearch by assumption.
    split; intros ->; reflexivity.
Qed.

End WaitForElement.

Section WaitTermination.

Context {E : Env} {P : UiParser}.

(** The clock of the backend: a pause of [ms] moves it by [ms] at
    least, and fetching a hierarchy does not move it back. *)
Hypothesis clock_pauses : forall ms d, now d + ms <= now (elapse ms d).
Hypothesis clock_fetches :
  forall p d, now d <= now (snd (dm_getUiHierarchyAsync p d)).

Variables (cur : option string) (timeout interval : Z).
Variables (searchText searchId searchClass : option string).
Hypothesis interval_positive : 0 < interval.

Section Started.

Variable startTime : Z.

Lemma backend_calls_app (t1 t2 : Trace) :
  backend_calls (t1 ++ t2)%list
  = (backend_calls t1 + backend_calls t2)%nat.
Proof. unfold backend_calls. now rewrite filter_app, length_app. Qed.

Lemma pauses_app (t1 t2 : Trace) :
  pauses (t1 ++ t2)%list = (pauses t1 + pauses t2)%nat.
Proof. unfold pauses. now rewrite filter_app, length_app. Qed.

(** A fetch is at most one call to the backend, no pause, and the clock
    does not go back. *)
Lemma poll_elements_cost (lastElements : list UiElement) (s : State) :
  let out := poll_elements cur lastElements s in
  (backend_calls (trace_of out) <= 1)%nat
  /\ pauses (trace_of out) = 0%nat
  /\ now (device s) <= now (device (final_state out)).
Proof.
  intros out. unfold out, poll_elements.
  destruct (platform_is cur "android"); [|destruct (platform_is cur "ios")].
  - pose proof (clock_fetches "android" (device s)) as Hclock.
    unfold bind, adapter, lift, setCachedElements, ret, trace_of,
      final_state.
    destruct (dm_getUiHierarchyAsync "android" (device s)) as [[raw|f] d];
      simpl in *; auto.
    destruct (parseUiHierarchy raw) as [els|f]; simpl; auto.
  - pose proof (clock_fetches "ios" (device s)) as Hclock.
    unfold bind, adapter, lift, ret, trace_of, final_state.
    destruct (dm_getUiHierarchyAsync "ios" (device s)) as [[raw|f] d];
      simpl in *; auto.
  - unfold backend_calls, pauses, ret, final_state. simpl.
    conjuncts; lia.
Qed.

(** The search touches neither the backend nor the state. *)
Lemma poll_search_pure (elements : list UiElement) (s : State) :
  let out :=
    poll_search searchText searchId searchClass startTime elements s in
  final_state out = s /\ trace_of out = [].
Proof.
  intros out. unfold out, poll_search, bind, lift, date_now, ret,
    final_state, trace_of.
  destruct (findElements elements _) as [[|first rest]|f]; simpl; auto.
  destruct (formatElement first); simpl; auto.
Qed.

Lemma polls_within_step (remaining remaining' : Z) :
  0 < remaining -> remaining' <= remaining - interval ->
  (S (polls_within remaining' interval)
   <= polls_within remaining interval)%nat.
Proof.
  intros Hpos Hle. unfold polls_within.
  assert (Hstep : (remaining + interval - 1) / interval
                  = (remaining - 1) / interval + 1).
  { replace (remaining + interval - 1)
      with (remaining - 1 + 1 * interval) by lia.
    apply Z.div_add. lia. }
  assert (Hmono : (remaining' + interval - 1) / interval
                  <= (remaining - 1) / interval)
    by (apply Z.div_le_mono; lia).
  assert (Hnonneg : 0 <= (remaining - 1) / interval)
    by (apply Z.div_pos; lia).
  lia.
Qed.

(** Enough fuel for the time that is left: the loop ends by itself,
    within the number of polls that fit. *)
Lemma wait_loop_ends (fuel : nat) :
  forall lastElements s,
    let remaining := timeout - (now (device s) - startTime) in
    (polls_within remaining interval < fuel)%nat ->
    let out :=
      wait_loop cur timeout interval searchText searchId searchClass
        startTime fuel lastElements s in
    result_of out <> Ok None
    /\ (backend_calls (trace_of out) <= polls_within remaining interval)%nat
    /\ (pauses (trace_of out) <= polls_within remaining interval)%nat.
Proof.
  induction fuel as [|fuel IH]; intros lastElements s remaining Hfuel out;
    [lia|].
  unfold out.
  destruct (Z.ltb_spec (now (device s) - startTime) timeout) as [Hin|Hout].
  - assert (Hpos : 0 < remaining) by (unfold remaining; lia).
    (* the state after a pause has less time left *)
    assert (Hnext : forall els s2,
               now (device s) <= now (device s2) ->
               let o := wait_loop cur timeout interval searchText searchId
                          searchClass startTime fuel els
                          (after_delay interval s2) in
               result_of o <> Ok None
               /\ (S (backend_calls (trace_of o))
                   <= polls_within remaining interval)%nat
               /\ (S (pauses (trace_of o))
                   <= polls_within remaining interval)%nat).
    { intros els s2 Hclock o.
      pose proof (clock_pauses interval (device s2)) as Hpause.
      assert (Hless : timeout - (now (device (after_delay interval s2))
                                 - startTime)
                      <= remaining - interval)
        by (unfold remaining; simpl; lia).
      pose proof (polls_within_step _ _ Hpos Hless) as Hstep.
      destruct (IH els (after_delay interval s2)) as (Hr & Hc & Hp);
        [lia|].
      fold o in Hr, Hc, Hp. conjuncts; auto; lia. }
    assert (Hone : (1 <= polls_within remaining interval)%nat).
    { pose proof (polls_within_step remaining (remaining - interval) Hpos
                    (Z.le_refl _)). lia. }
    rewrite wait_loop_round by assumption.
    destruct (poll_elements_cost lastElements s) as (Hc1 & Hp1 & Hclock1).
    unfold trace_of, final_state in Hc1, Hp1, Hclock1.
    destruct (poll_elements cur lastElements s)
      as [[[elements|[e| |]] s1] t1]; cbn [fst snd] in *.
    + destruct (poll_search_pure elements s1) as (Hs2 & Ht2).
      unfold trace_of, final_state in Hs2, Ht2.
      destruct (poll_search _ _ _ _ elements s1)
        as [[[[response|]|[e| |]] s2] t2]; cbn [fst snd] in *; subst.
      * unfold result_of, trace_of. simpl. rewrite app_nil_r.
        conjuncts; [discriminate | lia | lia].
      * destruct (Hnext elements s1 Hclock1) as (Hr & Hc & Hp).
        unfold result_of, trace_of, prepend in *.
        destruct (wait_loop _ _ _ _ _ _ _ fuel elements _)
          as [[r s3] t3].
        simpl in *. rewrite !backend_calls_app, !pauses_app.
        unfold backend_calls at 2, pauses at 2. simpl.
        conjuncts; auto; lia.
      * destruct (is_backend_unavailable e).
        -- unfold result_of, trace_of. simpl. rewrite app_nil_r.
           conjuncts; [discriminate | lia | lia].
        -- destruct (Hnext elements s1 Hclock1) as (Hr & Hc & Hp).
           unfold result_of, trace_of, prepend in *.
           destruct (wait_loop _ _ _ _ _ _ _ fuel elements _)
             as [[r s3] t3].
           simpl in *. rewrite !backend_calls_app, !pauses_app.
           unfold backend_calls at 2, pauses at 2. simpl.
           conjuncts; auto; lia.
      * unfold result_of, trace_of. simpl. rewrite app_nil_r.
        conjuncts; [discriminate | lia | lia].
      * unfold result_of, trace_of. simpl. rewrite app_nil_r.
        conjuncts; [discriminate | lia | lia].
    + destruct (is_backend_unavailable e).
      * unfold result_of, trace_of. simpl.
        conjuncts; [discriminate | lia | lia].
      * destruct (Hnext lastElements s1 Hclock1) as (Hr & Hc & Hp).
        unfold result_of, trace_of, prepend in *.
        destruct (wait_loop _ _ _ _ _ _ _ fuel lastElements _)
          as [[r s3] t3].
        simpl in *. rewrite !backend_calls_app, !pauses_app.
        unfold backend_calls at 2, pauses at 2. simpl.
        conjuncts; auto; lia.
    + unfold result_of, trace_of. simpl.
      conjuncts; [discriminate | lia | lia].
    + unfold result_of, trace_of. simpl.
      conjuncts; [discriminate | lia | lia].
  - cbn [wait_loop]. rewrite bind_date_now.
    destruct (Z.ltb_spec (now (device s) - startTime) timeout); [lia|].
    unfold result_of, trace_of, ret, backend_calls, pauses. simpl.
    conjuncts; [discriminate | lia | lia].
Qed.

End Started.

(** X22. wait_for_element gives up by itself. With a clock that a
    pause of [ms] moves by [ms] at least and that fetching a hierarchy
    does not move back, and with a positive [interval], the loop started
    at the current time fetches the hierarchy at most
    [ceil(timeout / interval)] times and pauses at most as often, and
    then ends: by the element, by the timeout text or by an error, never
    still polling, whatever the fuel above that number. *)
Theorem wait_for_element_gives_up (fuel : nat) (s : State) :
  (polls_within timeout interval < fuel)%nat ->
  let out :=
    wait_loop cur timeout interval searchText searchId searchClass
      (now (device s)) fuel [] s in
  result_of out <> Ok None
  /\ (backend_calls (trace_of out) <= polls_within timeout interval)%nat
  /\ (pauses (trace_of out) <= polls_within timeout interval)%nat.
Proof.
  intros Hfuel out.
  pose proof (wait_loop_ends (now (device s)) fuel [] s) as H.
  cbv zeta in H.
  replace (timeout - (now (device s) - now (device s))) with timeout in H
    by lia.
  now apply H.
Qed.

End WaitTermination.


(* ------------------------------------------------------------------ *)
(** * The device manager *)
(* ------------------------------------------------------------------ *)

Section ManagerFacts.

Context {C : DeviceManager.Clients}.

Import DeviceManager.

(** What [getAllDevices] does, by what the two clients answer. *)
Lemma getAllDevices_run (m : Manager) :
  let a := adb_getDevices (world m) in
  let i := ios_getDevices (snd a) in
  match fst a with
  | Ok _ | Throw _ =>
      match fst i with
      | Ok _ | Throw _ =>
          getAllDevices m
          = (Ok (listed of_adb (fst a) ++ listed of_sim (fst i))%list,
             mkManager (activeDevice m) (snd i),
             [GetDevices AndroidClient; GetDevices IosClient])
      | Fail f =>
          getAllDevices m
          = (Fail f, mkManager (activeDevice m) (snd i),
             [GetDevices AndroidClient; GetDevices IosClient])
      end
  | Fail f =>
      getAllDevices m
      = (Fail f, mkManager (activeDevice m) (snd a),
         [GetDevices AndroidClient])
  end.
Proof.
  unfold getAllDevices, bind, or_nothing, client, ret.
  destruct (adb_getDevices (world m)) as [[la|[e| |]] w1]; cbn;
    try reflexivity;
    destruct (ios_getDevices w1) as [[li|[e'| |]] w2]; cbn; reflexivity.
Qed.

(** Whatever the clients do, a listing does not throw, leaves the
    active device alone and only asks for devices. *)
Lemma getAllDevices_shape (m : Manager) :
  exists r w t,
    getAllDevices m = (r, mkManager (activeDevice m) w, t)
    /\ (forall e, r <> Throw e)
    /\ Forall (fun call => is_listing call = true) t.
Proof.
  pose proof (getAllDevices_run m) as H. cbv zeta in H.
  destruct (fst (adb_getDevices (world m))) as [la|[e| |]];
    try (destruct (fst (ios_getDevices (snd (adb_getDevices (world m)))))
           as [li|[e'| |]]);
    rewrite H; do 3 eexists; (split; [reflexivity|]);
    (split; [intros ? [=] | repeat constructor]).
Qed.

(** X23. Listing the devices does not throw: a client that throws
    contributes no device, and the other one is asked all the same. When
    both clients return or throw, the listing is the Android devices
    followed by the iOS ones, after one call to each client, Android
    first; the active device stays as it was. *)
Theorem getAllDevices_survives_a_failing_client (m : Manager) :
  let a := adb_getDevices (world m) in
  let i := ios_getDevices (snd a) in
  let out := getAllDevices m in
  (forall e, dm_result out <> Throw e)
  /\ activeDevice (dm_manager out) = activeDevice m
  /\ (returns_or_throws (fst a) -> returns_or_throws (fst i) ->
      dm_result out
      = Ok (listed of_adb (fst a) ++ listed of_sim (fst i))%list
      /\ dm_calls out = [GetDevices AndroidClient; GetDevices IosClient]).
Proof.
  intros a i out.
  destruct (getAllDevices_shape m) as (r & w & t & Hrun & Hr & _).
  split; [|split].
  - unfold out. rewrite Hrun. exact Hr.
  - unfold out. now rewrite Hrun.
  - intros Ha Hi. pose proof (getAllDevices_run m) as H. cbv zeta in H.
    fold a in H. fold i in H. unfold out.
    destruct (fst a) as [la|[e| |]]; try contradiction;
      destruct (fst i) as [li|[e'| |]]; try contradiction;
      rewrite H; split; reflexivity.
Qed.

Lemma chosen_device_matches (deviceId : string) (platform : option string)
    (devices : list Device) (d : Device) :
  chosen_device deviceId platform devices = Some d ->
  In d devices
  /\ (dev_id d = deviceId
      \/ (truthy_opt platform = true
          /\ fallback_match (or_else platform EmptyString) d = true)).
Proof.
  unfold chosen_device.
  destruct (find _ devices) as [d0|] eqn:Hid.
  - intros [= ->]. apply find_some in Hid as [Hin Heq].
    apply String.eqb_eq in Heq. auto.
  - destruct (truthy_opt platform); [|discriminate].
    intros Hfb. apply find_some in Hfb as [Hin Hfb]. auto.
Qed.

(** What [setDevice] does after the listing. *)
Lemma setDevice_run (deviceId : string) (platform : option string)
    (m : Manager) :
  exists r w t,
    getAllDevices m = (r, mkManager (activeDevice m) w, t)
    /\ Forall (fun call => is_listing call = true) t
    /\ match r with
       | Fail f =>
           setDevice deviceId platform m
           = (Fail f, mkManager (activeDevice m) w, t)
       | Ok devices =>
           match chosen_device deviceId platform devices with
           | None =>
               setDevice deviceId platform m
               = (Throw (mkError PlainError
                           ("Device not found: " ++ deviceId)),
                  mkManager (activeDevice m) w, t)
           | Some d =>
               let c := client_of (dev_platform d) in
               setDevice deviceId platform m
               = (match fst (client_setDevice c (dev_id d) w) with
                  | Ok _ => Ok d
                  | Fail f => Fail f
                  end,
                  mkManager (Some d) (snd (client_setDevice c (dev_id d) w)),
                  (t ++ [SetDevice c (dev_id d)])%list)
           end
       end.
Proof.
  destruct (getAllDevices_shape m) as (r & w & t & Hrun & _ & Ht).
  exists r, w, t. split; [exact Hrun|]. split; [exact Ht|].
  unfold setDevice, bind. rewrite Hrun.
  destruct r as [devices|f]; [|reflexivity].
  fold (chosen_device deviceId platform devices).
  destruct (chosen_device deviceId platform devices) as [d|].
  - cbv zeta. unfold set_active, client, ret. cbn.
    destruct (client_setDevice _ _ w) as [[u|f] w']; cbn;
      now rewrite ?app_nil_r.
  - unfold throw_error. cbn. now rewrite app_nil_r.
Qed.

Lemma listing_is_no_setDevice (t : list ClientCall) (c : Client)
    (id : string) :
  Forall (fun call => is_listing call = true) t ->
  ~ In (SetDevice c id) t.
Proof.
  intros Ht Hin. rewrite Forall_forall in Ht. now apply Ht in Hin.
Qed.

(** X24. [setDevice] makes the device active before it tells the
    client. If a client was told to use a device, then that device is
    the active one, it has the id asked for or matched the fallback of a
    given platform, and the client is the one of its platform, even when
    the client threw. If no client was told, the active device is as
    before and nothing was returned. What is returned is the active
    device. *)
Theorem setDevice_sets_the_device_before_the_client (deviceId : string)
    (platform : option string) (m : Manager) :
  let out := setDevice deviceId platform m in
  (forall c id, In (SetDevice c id) (dm_calls out) ->
     exists d,
       activeDevice (dm_manager out) = Some d
       /\ id = dev_id d /\ c = client_of (dev_platform d)
       /\ (dev_id d = deviceId
           \/ (truthy_opt platform = true
               /\ fallback_match (or_else platform EmptyString) d = true)))
  /\ ((forall c id, ~ In (SetDevice c id) (dm_calls out)) ->
      activeDevice (dm_manager out) = activeDevice m
      /\ forall d, dm_result out <> Ok d)
  /\ (forall d, dm_result out = Ok d ->
      activeDevice (dm_manager out) = Some d
      /\ In (SetDevice (client_of (dev_platform d)) (dev_id d))
           (dm_calls out)).
Proof.
  intros out.
  destruct (setDevice_run deviceId platform m) as (r & w & t & _ & Ht & H).
  destruct r as [devices|f].
  - destruct (chosen_device deviceId platform devices) as [d|] eqn:Hd.
    + cbv zeta in H. apply chosen_device_matches in Hd as [_ Hd].
      unfold out. rewrite H. unfold dm_calls, dm_manager, dm_result. cbn.
      split; [|split].
      * intros c id Hin. apply in_app_or in Hin as [Hin|[Hin|[]]].
        -- now apply listing_is_no_setDevice in Hin.
        -- injection Hin as <- <-. now exists d.
      * intros Hno. exfalso. apply (Hno (client_of (dev_platform d)) (dev_id d)).
        apply in_or_app. right. now left.
      * intros d' Hok. destruct (fst (client_setDevice _ _ w)); [|discriminate].
        injection Hok as <-. split; [reflexivity|].
        apply in_or_app. right. now left.
    + unfold out. rewrite H. unfold dm_calls, dm_manager, dm_result. cbn.
      split; [|split].
      * intros c id Hin. now apply listing_is_no_setDevice in Hin.
      * intros _. split; [reflexivity|discriminate].
      * discriminate.
  - unfold out. rewrite H. unfold dm_calls, dm_manager, dm_result. cbn.
    split; [|split].
    + intros c id Hin. now apply listing_is_no_setDevice in Hin.
    + intros _. split; [reflexivity|discriminate].
    + discriminate.
Qed.

(** With a platform to go by, [getClient] asks nobody. *)
Lemma getClient_known_platform (platform : option string) (m : Manager) :
  truthy_opt (target_platform platform m) = true ->
  getClient platform m
  = (Ok (client_of (or_else (target_platform platform m) EmptyString)),
     m, []).
Proof.
  intros Htarget. unfold getClient, bind, getCurrentPlatform.
  fold (target_platform platform m). now rewrite Htarget.
Qed.

(** [getClient] never taps. *)
Lemma getClient_does_not_tap (platform : option string) (m : Manager) :
  Forall (fun call => is_tap call = false) (dm_calls (getClient platform m)).
Proof.
  destruct (truthy_opt (target_platform platform m)) eqn:Htarget.
  - rewrite getClient_known_platform by exact Htarget. constructor.
  - unfold getClient, bind, getCurrentPlatform.
    fold (target_platform platform m). rewrite Htarget.
    destruct (getAllDevices_shape m) as (r & w & t & Hrun & _ & Ht).
    assert (Hquiet : forall l,
               Forall (fun call => is_listing call = true) l ->
               Forall (fun call => is_tap call = false) l).
    { intros l Hl. eapply Forall_impl; [|exact Hl].
      now intros [ | | | ]. }
    rewrite Hrun. unfold dm_calls. cbn.
    destruct r as [devices|f]; [|cbn; auto].
    destruct (find usable devices) as [booted|].
    + destruct (setDevice_run (dev_id booted) None
                  (mkManager (activeDevice m) w))
        as (r2 & w2 & t2 & _ & Ht2 & H2).
      assert (Hset : Forall (fun call => is_tap call = false)
                       (dm_calls (setDevice (dev_id booted) None
                                    (mkManager (activeDevice m) w)))).
      { destruct r2 as [devices2|f2].
        - destruct (chosen_device _ _ devices2).
          + cbv zeta in H2. rewrite H2. unfold dm_calls. cbn.
            apply Forall_app. split; [auto|]. now repeat constructor.
          + rewrite H2. unfold dm_calls. cbn. auto.
        - rewrite H2. unfold dm_calls. cbn. auto. }
      unfold dm_calls in Hset.
      destruct (setDevice _ _ _) as [[[d|f] m2] t3]; cbn in *;
        rewrite ?app_nil_r; apply Forall_app; auto.
    + unfold throw_error. cbn. rewrite !app_nil_r. auto.
Qed.

Lemma taps_of_quiet (t : list ClientCall) :
  Forall (fun call => is_tap call = false) t -> filter is_tap t = [].
Proof.
  induction 1 as [|call t Hcall _ IH]; [reflexivity|].
  cbn. now rewrite Hcall.
Qed.

(** X25. A tap of the manager reaches one client, once, with the
    coordinates it was given: the calls hold at most one tap, a tap
    that returned made exactly one, as its last call, and with a
    platform to go by (the one given or that of the active device) the
    tap is the only call, on the Android client for [android] and on the
    iOS client for anything else. *)
Theorem tap_reaches_one_client (x y : Z) (platform : option string)
    (m : Manager) :
  let out := tap x y platform m in
  (List.length (filter is_tap (dm_calls out)) <= 1)%nat
  /\ (forall c x' y', In (Tap c x' y') (dm_calls out) -> x' = x /\ y' = y)
  /\ (forall u, dm_result out = Ok u ->
      exists c before,
        dm_calls out = (before ++ [Tap c x y])%list
        /\ filter is_tap before = [])
  /\ (truthy_opt (target_platform platform m) = true ->
      dm_calls out
      = [Tap (client_of (or_else (target_platform platform m) EmptyString))
           x y]).
Proof.
  intros out.
  pose proof (getClient_does_not_tap platform m) as Hquiet.
  pose proof (getClient_known_platform platform m) as Hknown.
  unfold out, tap, bind, dm_calls, dm_result in *.
  destruct (getClient platform m) as [[[c|f] m1] t1]; cbn in *.
  - unfold client. destruct (client_tap c x y (world m1)) as [r w]. cbn.
    conjuncts.
    + rewrite filter_app, (taps_of_quiet _ Hquiet). cbn. lia.
    + intros c' x' y' Hin. apply in_app_or in Hin as [Hin|[Hin|[]]].
      * rewrite Forall_forall in Hquiet. now apply Hquiet in Hin.
      * now injection Hin as _ <- <-.
    + intros u _. exists c, t1. split; [reflexivity|].
      now apply taps_of_quiet.
    + intros Htarget. specialize (Hknown Htarget).
      now injection Hknown as -> _ ->.
  - conjuncts.
    + rewrite (taps_of_quiet _ Hquiet). cbn. lia.
    + intros c' x' y' Hin. rewrite Forall_forall in Hquiet.
      now apply Hquiet in Hin.
    + discriminate.
    + intros Htarget. specialize (Hknown Htarget). discriminate.
Qed.

(** X26. Off Android a long press is a tap: when [getClient] gives the
    iOS client, [longPress] does what [tap] does, whatever the duration
    asked for. *)
Theorem longPress_off_android_is_a_tap (x y : Z) (durationMs : option Z)
    (platform : option string) (m : Manager) :
  dm_result (getClient platform m) = Ok IosClient ->
  longPress x y durationMs platform m = tap x y platform m.
Proof.
  unfold longPress, tap, bind, dm_result.
  destruct (getClient platform m) as [[[c|f] m1] t1]; cbn; [|discriminate].
  now intros [= ->].
Qed.

Lemma filter_platform_keeps {A} (f : A -> Device) (p : string)
    (l : list A) :
  (forall a, dev_platform (f a) = p) ->
  filter (fun d => String.eqb (dev_platform d) p) (List.map f l)
  = List.map f l.
Proof.
  intros Hf. induction l as [|a l IH]; [reflexivity|].
  cbn. now rewrite Hf, String.eqb_refl, IH.
Qed.

Lemma filter_platform_drops {A} (f : A -> Device) (p q : string)
    (l : list A) :
  (forall a, dev_platform (f a) = q) -> String.eqb q p = false ->
  filter (fun d => String.eqb (dev_platform d) p) (List.map f l) = [].
Proof.
  intros Hf Hqp. induction l as [|a l IH]; [reflexivity|].
  cbn. now rewrite Hf, Hqp, IH.
Qed.

Lemma filter_platform_listed {A} (f : A -> Device) (p q : string)
    (r : Res (list A)) :
  (forall a, dev_platform (f a) = q) ->
  filter (fun d => String.eqb (dev_platform d) p) (listed f r)
  = if String.eqb q p then listed f r else [].
Proof.
  intros Hf. destruct (String.eqb q p) eqn:Hqp.
  - apply String.eqb_eq in Hqp as <-.
    destruct r as [l|]; [now apply filter_platform_keeps|reflexivity].
  - destruct r as [l|]; [now apply (filter_platform_drops f p q)|reflexivity].
Qed.

(** X27. [getDevices] by platform. When both clients return or throw,
    [getDevices("android")] is what the Android client lists,
    [getDevices("ios")] what the iOS client lists, any other non-empty
    platform gives no device, and no platform or the empty one gives
    both listings, Android first. *)
Theorem getDevices_by_platform (platform : option string) (m : Manager) :
  let a := adb_getDevices (world m) in
  let i := ios_getDevices (snd a) in
  returns_or_throws (fst a) -> returns_or_throws (fst i) ->
  dm_result (getDevices platform m)
  = Ok (if truthy_opt platform then
          if String.eqb (or_else platform EmptyString) "android"
          then listed of_adb (fst a)
          else if String.eqb (or_else platform EmptyString) "ios"
               then listed of_sim (fst i)
               else []
        else (listed of_adb (fst a) ++ listed of_sim (fst i))%list).
Proof.
  intros a i Ha Hi.
  pose proof (getAllDevices_run m) as H. cbv zeta in H.
  fold a in H. fold i in H.
  assert (Hall : getAllDevices m
                 = (Ok (listed of_adb (fst a) ++ listed of_sim (fst i))%list,
                    mkManager (activeDevice m) (snd i),
                    [GetDevices AndroidClient; GetDevices IosClient])).
  { destruct (fst a) as [la|[e| |]]; try contradiction;
      destruct (fst i) as [li|[e'| |]]; try contradiction; exact H. }
  unfold getDevices, bind, dm_result. rewrite Hall.
  destruct (truthy_opt platform); [|reflexivity].
  cbn. f_equal. rewrite filter_app.
  rewrite (filter_platform_listed of_adb _ "android") by reflexivity.
  rewrite (filter_platform_listed of_sim _ "ios") by reflexivity.
  rewrite (String.eqb_sym "android"), (String.eqb_sym "ios").
  destruct (String.eqb (or_else platform EmptyString) "android") eqn:Hand.
  - apply String.eqb_eq in Hand. rewrite Hand. cbn. apply app_nil_r.
  - destruct (String.eqb (or_else platform EmptyString) "ios");
      reflexivity.
Qed.

End ManagerFacts.

(* ------------------------------------------------------------------ *)
(** * More instances *)
(* ------------------------------------------------------------------ *)

Module MoreInstances.

Import Sim.
Import Runs.
Import MoreRuns.

Lemma getTools_lists_each_name_once_witness :
  NoDup (tool_names registry_with_alias).
Proof.
  apply getTools_lists_each_name_once.
  unfold registry_with_alias, registry.
  apply built_aliases, built_tools, built_tools, built_empty.
Defined.

Lemma registerTools_last_definition_wins_witness :
  getHandler
    (registerTools
       [def "tap" ok_handler; def "tap" failing_handler;
        def "swipe" ok_handler] registry) "tap"
  = Some failing_handler
  /\ (keyed_by_name registry ->
      In "tap" (tool_names registry) ->
      tool_names (registerTools [def "tap" failing_handler] registry)
      = tool_names registry).
Proof.
  apply (registerTools_last_definition_wins registry
           [def "tap" ok_handler] [def "swipe" ok_handler]
           (def "tap" failing_handler)).
  repeat constructor. discriminate.
Defined.

Lemma aliases_are_not_chained_witness :
  getHandler
    (registerAliases [("press", "tap"); ("push", "press")] registry) "push"
  = None
  /\ getHandler
       (registerAliases [("press", "tap"); ("push", "press")] registry)
       "press"
     = getHandler (registerAliases [("press", "tap")] registry) "press".
Proof.
  destruct (aliases_are_not_chained registry [("press", "tap")]
              "push" "press" eq_refl eq_refl) as [Hpush Hother].
  split; [exact Hpush|]. apply Hother. discriminate.
Defined.

Lemma call_tool_request_unknown_tool_witness :
  call_tool_request registry "nope" None state0
  = (Ok (mkCallToolResult [TextContent "Error: Unknown tool: nope"] true),
     state0, []).
Proof.
  exact (call_tool_request_unknown_tool registry "nope" None state0
           eq_refl).
Defined.

Lemma iosTreeToUiElements_index_is_position_witness :
  exists e,
    nth_error (iosTreeToUiElements_of window) 2 = Some e
    /\ text e = "Hello" /\ index e = 2.
Proof.
  eexists. split; [reflexivity|]. split; [reflexivity|].
  exact (iosTreeToUiElements_index_is_position window 2 _ eq_refl).
Defined.

Lemma iosTreeToUiElements_elements_are_well_shaped_witness :
  exists e,
    In e (iosTreeToUiElements_of window)
    /\ text e = "OK"
    /\ well_shaped e /\ (clickable e = true -> enabled e = true)
    /\ checkable e = false /\ checked e = false /\ focused e = false
    /\ longClickable e = false.
Proof.
  eexists. split; [right; left; reflexivity|]. split; [reflexivity|].
  apply (iosTreeToUiElements_elements_are_well_shaped window).
  right. left. reflexivity.
Defined.

Lemma generateActionHints_refreshes_the_cache_witness :
  let s := android [] [Ok "Done"] [] in
  let out := generateActionHints None s in
  cached (final_state out) "android" = [element_of "Done"]
  /\ trace_of out
     = [EvSleep 150; EvAdapter (OpGetUiHierarchyAsync "android")].
Proof.
  destruct (generateActionHints_refreshes_the_cache None
              (android [] [Ok "Done"] [] ) _ _ _ eq_refl)
    as (Hcached & _ & Htrace & _).
  split; [exact Hcached | exact Htrace].
Defined.

(** On the scripted backend, with scripts that return or throw, the
    tap tool, the swipe and the capture return or throw. *)
Lemma scripted_flow_settles (step : @FlowStep) :
  step_action step = "tap" ->
  step_args step = Some [("x", JNum 1); ("y", JNum 1)] ->
  flow_settles scripts_settle ctx 0 (Some "android") [step].
Proof.
  intros Haction Hargs. unfold flow_settles. conjuncts.
  - intros ms s Hs. split; [exact I | exact Hs].
  - intros name a Hcall
      [[clock active taps hierarchies shots tools] cache last]
      (Htaps & Hhier & Htools).
    cbn in Htaps, Hhier, Htools.
    destruct Hcall as [(st & [<-|[]] & -> & ->)|(-> & [-> | ->])].
    + unfold stepArgs. rewrite Haction, Hargs.
      destruct taps as [|outcome taps]; [now vm_compute|].
      inversion Htaps as [|? ? Houtcome Hrest]; subst.
      destruct outcome as [[]|[e| |]]; try contradiction;
        vm_compute; auto.
    + destruct tools as [|outcome tools]; [now vm_compute|].
      inversion Htools as [|? ? Houtcome Hrest]; subst.
      destruct outcome as [t|[e| |]]; try contradiction;
        vm_compute; auto.
    + destruct tools as [|outcome tools]; [now vm_compute|].
      inversion Htools as [|? ? Houtcome Hrest]; subst.
      destruct outcome as [t|[e| |]]; try contradiction;
        vm_compute; auto.
  - intros [[clock active taps hierarchies shots tools] cache last]
      (Htaps & Hhier & Htools).
    cbn in Htaps, Hhier, Htools.
    destruct hierarchies as [|outcome hierarchies]; [now vm_compute|].
    inversion Hhier as [|? ? Houtcome Hrest]; subst.
    destruct outcome as [dump|[e| |]]; try contradiction.
    + unfold getElementsForPlatform, bind, adapter, lift,
        setCachedElements, ret, result_of, final_state, scripts_settle.
      cbn. destruct (JsString.truthy dump); cbn; auto.
    + vm_compute. auto.
  - intros els c. exact I.
Qed.


Lemma run_flow_report_follows_the_steps_witness :
  exists fa response s' t,
    decode_flow_args tap_until_done_then_tap = Some fa
    /\ run_flow_handler tap_until_done_then_tap ctx 0
         (android [Throw element_not_found] [] [])
       = (Ok response, s', t)
    /\ (refusal (declared_steps fa) response
        \/ exists rows total,
             response = text_response (formatFlowResults rows total)
             /\ rows_follow 0 (declared_steps fa) rows
             /\ (List.length rows <= List.length (declared_steps fa))%nat).
Proof.
  eassert (Hdecoded : decode_flow_args tap_until_done_then_tap = Some _)
    by (vm_compute; reflexivity).
  eassert (Hrun : run_flow_handler tap_until_done_then_tap ctx 0
                    (android [Throw element_not_found] [] [])
                  = (Ok _, _, _))
    by (vm_compute; reflexivity).
  pose proof (run_flow_report_follows_the_steps _ _ _ _ _ _ _ _
                Hdecoded Hrun) as Hreport.
  do 4 eexists. split; [exact Hdecoded|]. split; [exact Hrun|].
  exact Hreport.
Defined.

Lemma batch_at_depth_limit_is_refused_witness :
  handleTool registry "batch_commands" (three_commands [])
    MAX_RECURSION_DEPTH state0
  = (Ok (text_response
           (batch_text
              [refused_by_guard (mkCommand "ok_tool" None)] 3)),
     state0,
     [EvInvoke "batch_commands" (three_commands []) MAX_RECURSION_DEPTH;
      batch_call MAX_RECURSION_DEPTH (mkCommand "ok_tool" None) []]).
Proof.
  apply (batch_at_depth_limit_is_refused registry "batch_commands"
           (three_commands [])
           [mkCommand "ok_tool" None; mkCommand "failing_tool" None;
            mkCommand "ok_tool" None] state0);
    [reflexivity | reflexivity | discriminate].
Defined.

Lemma tap_on_ios_element_never_throws_witness :
  let out :=
    tap_handler ios_label_tap ctx 0 (android [] [] [not_found]) in
  result_of out <> Throw element_not_found
  /\ Forall ios_element_call (trace_of out)
  /\ trace_of out = [EvAdapter OpIosFindElement].
Proof.
  destruct (tap_on_ios_element_never_throws ios_label_tap ctx 0
              (android [] [] [not_found]) eq_refl eq_refl)
    as (Hthrows & Hcalls & _).
  split; [apply Hthrows|]. split; [exact Hcalls | reflexivity].
Defined.

Lemma screenshot_remembers_its_capture_witness :
  let s := state_of (mkBackend 0 (Some "android") [] [] [Ok [7; 7]] []) in
  let out := screenshot_handler shot_of_android ctx 0 s in
  JsMap.get (lastScreenshotMap (final_state out)) "android" = Some [7; 7]
  /\ cachedElementsMap (final_state out) = cachedElementsMap s
  /\ exists response,
       result_of out = Ok response
       /\ resp_text response
          = Some "First screenshot (no previous to diff against)".
Proof.
  assert (Htyped : screenshot_args_typed shot_of_android)
    by (unfold screenshot_args_typed; cbn; conjuncts; discriminate).
  eassert (Hcapture :
             capture_phase false "android"
               (state_of (mkBackend 0 (Some "android") [] [] [Ok [7; 7]] []))
             = (Ok _, _, _))
    by (vm_compute; reflexivity).
  destruct (screenshot_remembers_its_capture shot_of_android ctx 0
              (state_of (mkBackend 0 (Some "android") [] [] [Ok [7; 7]] []))
              _ _ _ Htyped Hcapture)
    as (_ & Hget & _ & Hcache & Hfirst).
  eassert (Hout : result_of
                    (screenshot_handler shot_of_android ctx 0
                       (state_of
                          (mkBackend 0 (Some "android") [] [] [Ok [7; 7]]
                             [])))
                  = Ok _)
    by (vm_compute; reflexivity).
  split; [exact Hget|]. split; [exact Hcache|].
  eexists. split; [exact Hout|].
  exact (proj1 (Hfirst eq_refl eq_refl _ Hout)).
Defined.

Lemma find_and_tap_needs_a_confident_match_witness :
  let out :=
    find_and_tap_handler (P := parser) find_login ctx 0
      (android [] [Ok "Login"] []) in
  In (EvAdapter (OpTap 5 5)) (trace_of out)
  /\ trace_of out
     = [EvAdapter (OpGetUiHierarchyAsync "android"); EvAdapter (OpTap 5 5)].
Proof.
  assert (Htap : In (EvAdapter (OpTap 5 5))
                   (trace_of
                      (find_and_tap_handler (P := parser) find_login ctx 0
                         (android [] [Ok "Login"] []))))
    by (right; left; reflexivity).
  split; [exact Htap|].
  destruct (find_and_tap_needs_a_confident_match (P := parser) find_login
              ctx 0 (android [] [Ok "Login"] []) 5 5 Htap)
    as (_ & description & elements & m & _ & _ & _ & _ & _ & _ & Htrace).
  exact Htrace.
Defined.

Lemma wait_for_element_poll_errors_witness :
  result_of
    (wait_loop (P := parser) (Some "android") 5000 500 (Some "Done") None
       None 0 2 [] (android [] [Throw device_offline] []))
  = Throw device_offline.
Proof.
  assert (Hearly : now (device (android [] [Throw device_offline] [])) - 0
                   < 5000) by reflexivity.
  destruct (wait_for_element_poll_errors (P := parser) (Some "android")
              5000 500 (Some "Done") None None 0 1 []
              (android [] [Throw device_offline] []) Hearly)
    as [Hpoll _].
  destruct (Hpoll device_offline _ _ eq_refl) as [Hstop _].
  rewrite (Hstop eq_refl). reflexivity.
Defined.

Lemma wait_for_element_gives_up_witness :
  let out :=
    wait_loop (P := parser) (Some "android") 5000 500 (Some "Done") None
      None 0 11 [] (android [] [] []) in
  0 < 500
  /\ result_of out <> Ok None
  /\ (backend_calls (trace_of out) <= 10)%nat
  /\ (pauses (trace_of out) <= 10)%nat.
Proof.
  assert (Hpauses : forall ms d,
             now (Env := env) d + ms <= now (elapse ms d))
    by (intros ms d; cbn; lia).
  assert (Hfetches : forall p d,
             now (Env := env) d <= now (snd (dm_getUiHierarchyAsync p d))).
  { intros p d. cbn. unfold next_hierarchy.
    destruct (hierarchies d); cbn; lia. }
  assert (Hinterval : 0 < 500) by lia.
  split; [exact Hinterval|].
  apply (wait_for_element_gives_up (P := parser) Hpauses Hfetches
           (Some "android") 5000 500 (Some "Done") None None Hinterval 11
           (android [] [] [])).
  vm_compute. lia.
Defined.

Lemma longPress_off_android_is_a_tap_witness :
  DeviceManager.longPress 1 2 (Some 3000) (Some "ios") both
  = DeviceManager.tap 1 2 (Some "ios") both
  /\ dm_calls (DeviceManager.longPress 1 2 (Some 3000) (Some "ios") both)
     = [DeviceManager.Tap DeviceManager.IosClient 1 2].
Proof.
  split; [|reflexivity].
  exact (longPress_off_android_is_a_tap 1 2 (Some 3000) (Some "ios") both
           eq_refl).
Defined.

Lemma getDevices_by_platform_witness :
  dm_result (DeviceManager.getDevices (Some "ios") no_adb)
  = Ok [DeviceManager.of_sim iphone]
  /\ dm_result (DeviceManager.getDevices (Some "android") no_adb) = Ok [].
Proof.
  split.
  - exact (getDevices_by_platform (Some "ios") no_adb I I).
  - exact (getDevices_by_platform (Some "android") no_adb I I).
Defined.

End MoreInstances.
